(** * Binary archives of Project Chrono: ChArchiveOutBinary / ChArchiveInBinary

    A shallow embedding of [src/chrono/serialization/ChArchiveBinary.h] and of
    the collaborators it relies on (the primitive binary stream, the pointer
    registry of the archive base class, the functors that wrap the objects
    being archived), followed by the properties of the engine. *)

From Stdlib Require Import ZArith Lia Bool.
From Stdlib Require Import Strings.Byte Strings.Ascii Strings.String.
From stdpp Require Import base tactics option list strings.

Local Open Scope string_scope.
Local Open Scope list_scope.
Local Open Scope Z_scope.

(* ===================================================================== *)
(** ** Outcomes of archive operations *)
(* ===================================================================== *)

(** C++ exceptions that can cross an archive operation. [ChExceptionArchive]
    is the one thrown by the archive itself; [StreamError] stands for the
    failure of the underlying stream (a read past the end of the data). *)
Inductive exn : Type :=
  | ChExceptionArchive (msg : string)
  | StreamError.

(** Ways in which a run leaves the behaviour the C++ text defines: an
    unchecked subscript past the end of the pointer vector, the use of a
    pointer that designates no object, or the fuel of a recursive traversal
    running out. *)
Inductive stuck : Type :=
  | OutOfRange
  | BadPointer
  | OutOfFuel.

Inductive result (St A : Type) : Type :=
  | Ok (a : A) (s : St)
  | Throw (e : exn) (s : St)
  | Stuck (why : stuck).

Arguments Ok {St A} a s.
Arguments Throw {St A} e s.
Arguments Stuck {St A} why.

Definition M (St A : Type) : Type := St -> result St A.

Definition ret {St A} (a : A) : M St A := fun s => Ok a s.

Definition bind {St A B} (c : M St A) (k : A -> M St B) : M St B :=
  fun s =>
    match c s with
    | Ok a s' => k a s'
    | Throw e s' => Throw e s'
    | Stuck w => Stuck w
    end.

Definition throw {St A} (e : exn) : M St A := fun s => Throw e s.
Definition stuck_at {St A} (w : stuck) : M St A := fun _ => Stuck w.
Definition gets {St A} (f : St -> A) : M St A := fun s => Ok (f s) s.
Definition modify {St} (f : St -> St) : M St unit := fun s => Ok tt (f s).

Notation "x <- c1 ;; c2" := (bind c1 (fun x => c2))
  (at level 100, c1 at next level, c2 at level 200, right associativity).
Notation "c1 ;; c2" := (bind c1 (fun _ => c2))
  (at level 100, c2 at level 200, right associativity).

Fixpoint mapM {St A B} (f : A -> M St B) (l : list A) : M St (list B) :=
  match l with
  | [] => ret []
  | a :: l' => b <- f a ;; bs <- mapM f l' ;; ret (b :: bs)
  end.

Fixpoint iterM {St A} (f : A -> M St unit) (l : list A) : M St unit :=
  match l with
  | [] => ret tt
  | a :: l' => f a ;; iterM f l'
  end.

Definition is_throw {St A} (r : result St A) : bool :=
  match r with Throw _ _ => true | _ => false end.

(* ===================================================================== *)
(** ** The primitive binary stream *)
(* ===================================================================== *)

Module ChStream.

Definition byte_of_Z (z : Z) : byte :=
  default "000"%byte (Byte.of_N (Z.to_N (z mod 256))).

Definition Z_of_byte (b : byte) : Z := Z.of_N (Byte.to_N b).

(** [w] bytes of [z], least significant first; the value wraps modulo
    [256 ^ w] as a C++ conversion to a [w]-byte unsigned type does. *)
Fixpoint le_bytes (w : nat) (z : Z) : list byte :=
  match w with
  | O => []
  | S w' => byte_of_Z z :: le_bytes w' (z / 256)
  end.

Fixpoint le_value (bs : list byte) : Z :=
  match bs with
  | [] => 0
  | b :: bs' => Z_of_byte b + 256 * le_value bs'
  end.

(** Modelled from the spec: the encodings of [ChStreamOutBinary::operator<<],
    whose source file is absent. Section 6 fixes "native-width binary form"
    for numerics and "length-prefixed binary blob" for strings, with a
    64-bit count for array lengths and object identifiers; the byte order
    (least significant first) and the 64-bit string length are this
    model's choice where the spec leaves them to the stream. Floating-point
    values are carried as their IEEE bit patterns. *)
Definition enc_bool (b : bool) : list byte := le_bytes 1 (if b then 1 else 0).
Definition enc_char (c : ascii) : list byte := [byte_of_ascii c].
Definition enc_int (z : Z) : list byte := le_bytes 4 (z mod 2 ^ 32).
Definition enc_unsigned_int (z : Z) : list byte := le_bytes 4 z.
Definition enc_float (bits : Z) : list byte := le_bytes 4 bits.
Definition enc_double (bits : Z) : list byte := le_bytes 8 bits.
Definition enc_unsigned_long (z : Z) : list byte := le_bytes 8 z.
Definition enc_unsigned_long_long (z : Z) : list byte := le_bytes 8 z.
Definition enc_size_t (z : Z) : list byte := le_bytes 8 z.
Definition enc_string (s : string) : list byte :=
  enc_size_t (Z.of_nat (String.length s)) ++ list_byte_of_string s.

(** Modelled from the spec: the decoders of [ChStreamInBinary::operator>>],
    whose source file is absent; each consumes exactly the bytes its
    encoder produces and fails when the stream holds fewer. *)
Definition take_bytes (w : nat) (s : list byte) : option (list byte * list byte) :=
  if decide (w <= length s)%nat then Some (take w s, drop w s) else None.

Definition dec_unsigned (w : nat) (s : list byte) : option (Z * list byte) :=
  match take_bytes w s with
  | Some (bs, rest) => Some (le_value bs, rest)
  | None => None
  end.

Definition dec_bool (s : list byte) : option (bool * list byte) :=
  match dec_unsigned 1 s with
  | Some (v, rest) => Some (negb (v =? 0), rest)
  | None => None
  end.

Definition dec_char (s : list byte) : option (ascii * list byte) :=
  match s with
  | b :: rest => Some (ascii_of_byte b, rest)
  | [] => None
  end.

Definition dec_int (s : list byte) : option (Z * list byte) :=
  match dec_unsigned 4 s with
  | Some (v, rest) => Some (if v <? 2 ^ 31 then v else v - 2 ^ 32, rest)
  | None => None
  end.

Definition dec_unsigned_int := dec_unsigned 4.
Definition dec_float := dec_unsigned 4.
Definition dec_double := dec_unsigned 8.
Definition dec_unsigned_long := dec_unsigned 8.
Definition dec_unsigned_long_long := dec_unsigned 8.
Definition dec_size_t := dec_unsigned 8.

Definition dec_string (s : list byte) : option (string * list byte) :=
  match dec_size_t s with
  | Some (n, rest) =>
      match take_bytes (Z.to_nat n) rest with
      | Some (bs, rest') => Some (string_of_list_byte bs, rest')
      | None => None
      end
  | None => None
  end.

End ChStream.

(* ===================================================================== *)
(** ** What the archives share: named values and the pointer registry *)
(* ===================================================================== *)

(** [void*]: an object identity; [nullptr] is the null pointer. *)
Abbreviation ptr := nat (only parsing).
Definition nullptr : ptr := 0%nat.

(** A pointer to characters read as a C string: the characters before the
    first NUL. This is what the constructor of [std::string] copies from
    such a pointer, and what the receiver of [s.c_str()] sees of a
    [std::string] [s]. *)
Fixpoint c_str (s : string) : string :=
  match s with
  | EmptyString => EmptyString
  | String c s' =>
      if Ascii.eqb c zero then EmptyString else String c (c_str s')
  end.

(** [ChNameValue<T>]: a transient view of one field. The binary archives
    never look at [name]. *)
Record ChNameValue (T : Type) : Type := make_ChNameValue {
  name : string;
  value : T;
  flags : Z
}.

Arguments make_ChNameValue {T} name value flags.
Arguments name {T} _.
Arguments value {T} _.
Arguments flags {T} _.

Module ChArchive.

(** Modelled from the spec: [ChArchive::PutPointer] and the vector
    [objects_pointers] of the archive base class, whose header is absent.
    By Section 4.3: look the identity up; if it is present return
    [(true, existing id)], otherwise insert it with the next sequential id
    and return [(false, id)]; ids are positions in insertion order, the
    registry is append-only and a session starts with none registered
    (Sections 3 and 4.3). The result is (already_stored, pos, registry). *)
Definition PutPointer (object : ptr) (objects_pointers : list ptr)
  : bool * nat * list ptr :=
  match list_find (fun q => q = object) objects_pointers with
  | Some (i, _) => (true, i, objects_pointers)
  | None => (false, length objects_pointers, objects_pointers ++ [object])
  end.

End ChArchive.

(* ===================================================================== *)
(** ** ChArchiveOutBinary *)
(* ===================================================================== *)

Module ChArchiveOutBinary.
Section WithWorld.

(** [W] is the memory of the application whose objects are archived; the
    archive itself owns the stream and the pointer registry. *)
Context {W : Type}.

Record t : Type := mk {
  ostream : list byte;
  objects_pointers : list ptr;
  world : W
}.

Definition append (bs : list byte) (a : t) : t :=
  mk (ostream a ++ bs) (objects_pointers a) (world a).

(** [ostream << v] for the already encoded bytes of [v]. *)
Definition write (bs : list byte) : M t unit := modify (append bs).

(** [ChFunctorArchiveOut]: the two write callbacks of a wrapped object. *)
Record ChFunctorArchiveOut : Type := {
  CallArchiveOut : M t unit;
  CallArchiveOutConstructor : M t unit
}.

Definition out_bool (bVal : ChNameValue bool) : M t unit :=
  write (ChStream.enc_bool (value bVal)).
Definition out_int (bVal : ChNameValue Z) : M t unit :=
  write (ChStream.enc_int (value bVal)).
Definition out_double (bVal : ChNameValue Z) : M t unit :=
  write (ChStream.enc_double (value bVal)).
Definition out_float (bVal : ChNameValue Z) : M t unit :=
  write (ChStream.enc_float (value bVal)).
Definition out_char (bVal : ChNameValue ascii) : M t unit :=
  write (ChStream.enc_char (value bVal)).
Definition out_unsigned_int (bVal : ChNameValue Z) : M t unit :=
  write (ChStream.enc_unsigned_int (value bVal)).
Definition out_string (bVal : ChNameValue string) : M t unit :=
  write (ChStream.enc_string (value bVal)).
Definition out_unsigned_long (bVal : ChNameValue Z) : M t unit :=
  write (ChStream.enc_unsigned_long (value bVal)).
Definition out_unsigned_long_long (bVal : ChNameValue Z) : M t unit :=
  write (ChStream.enc_unsigned_long_long (value bVal)).
(** [ChEnumMapperBase]: the wrapped value is its [GetValueAsInt()]. *)
Definition out_ChEnumMapperBase (bVal : ChNameValue Z) : M t unit :=
  write (ChStream.enc_int (value bVal)).

Definition out_array_pre (name : string) (msize : Z) (classname : string)
  : M t unit :=
  write (ChStream.enc_size_t msize).
Definition out_array_between (msize : Z) (classname : string) : M t unit :=
  ret tt.
Definition out_array_end (msize : Z) (classname : string) : M t unit :=
  ret tt.

(** for custom c++ objects *)
Definition out_ChFunctorArchiveOut (bVal : ChNameValue ChFunctorArchiveOut)
    (classname : string) (tracked : bool) (obj_ID : Z) : M t unit :=
  CallArchiveOut (value bVal).

(** for pointed objects (if the pointer has not been serialized yet,
    otherwise save its ID) *)
Definition out_ref_polimorphic (bVal : ChNameValue ChFunctorArchiveOut)
    (already_inserted : bool) (obj_ID : Z) (classname : string) : M t unit :=
  if negb already_inserted then
    write (ChStream.enc_string (c_str classname)) ;;
    CallArchiveOutConstructor (value bVal) ;;
    CallArchiveOut (value bVal)
  else
    write (ChStream.enc_string "oID") ;;
    write (ChStream.enc_size_t obj_ID).

Definition out_ref (bVal : ChNameValue ChFunctorArchiveOut)
    (already_inserted : bool) (obj_ID : Z) (classname : string) : M t unit :=
  if negb already_inserted then
    write (ChStream.enc_string "") ;;
    CallArchiveOutConstructor (value bVal) ;;
    CallArchiveOut (value bVal)
  else
    write (ChStream.enc_string "oID") ;;
    write (ChStream.enc_size_t obj_ID).

Definition with_objects_pointers (l : list ptr) (a : t) : t :=
  mk (ostream a) l (world a).

(** [ChArchive::PutPointer] run on this archive's registry. *)
Definition PutPointer (object : ptr) : M t (bool * nat) :=
  fun a =>
    let r := ChArchive.PutPointer object (objects_pointers a) in
    Ok (fst (fst r), snd (fst r)) (with_objects_pointers (snd r) a).

End WithWorld.
Arguments t : clear implicits.
Arguments ChFunctorArchiveOut : clear implicits.
End ChArchiveOutBinary.

(* ===================================================================== *)
(** ** ChArchiveInBinary *)
(* ===================================================================== *)

Module ChArchiveInBinary.
Section WithWorld.

Context {W : Type}.

(** The flag constant lives in the absent base header; the archive only
    tests [flags & NVP_TRACK_OBJECT]. *)
Variable NVP_TRACK_OBJECT : Z.

Record t : Type := mk {
  istream : list byte;
  objects_pointers : list ptr;
  world : W
}.

Definition with_istream (rest : list byte) (a : t) : t :=
  mk rest (objects_pointers a) (world a).

(** [istream >> v] with decoder [dec]; a short stream is a stream error. *)
Definition read {A} (dec : list byte -> option (A * list byte)) : M t A :=
  fun a =>
    match dec (istream a) with
    | Some (v, rest) => Ok v (with_istream rest a)
    | None => Throw StreamError a
    end.

(** [ChFunctorArchiveIn]: the callbacks of a wrapped object or pointer.
    The constructor callback takes the class name as a C string. *)
Record ChFunctorArchiveIn : Type := {
  CallArchiveIn : M t unit;
  CallArchiveInConstructor : string -> M t unit;
  CallGetRawPtr : t -> ptr;
  CallSetRawPtr : ptr -> M t unit
}.

Definition with_objects_pointers (l : list ptr) (a : t) : t :=
  mk (istream a) l (world a).

(** [ChArchive::PutPointer] run on this archive's registry. *)
Definition PutPointer (object : ptr) : M t (bool * nat) :=
  fun a =>
    let r := ChArchive.PutPointer object (objects_pointers a) in
    Ok (fst (fst r), snd (fst r)) (with_objects_pointers (snd r) a).

(** [objects_pointers[obj_ID]]: the subscript has no bounds check. *)
Definition subscript (obj_ID : Z) : M t ptr :=
  fun a =>
    match objects_pointers a !! Z.to_nat obj_ID with
    | Some p => Ok p a
    | None => Stuck OutOfRange
    end.

(** The primitive readers return the content that [bVal.value()], a
    reference in the C++ text, holds after the call. *)
Definition in_bool (bVal : ChNameValue bool) : M t bool :=
  read ChStream.dec_bool.
Definition in_int (bVal : ChNameValue Z) : M t Z :=
  read ChStream.dec_int.
Definition in_double (bVal : ChNameValue Z) : M t Z :=
  read ChStream.dec_double.
Definition in_float (bVal : ChNameValue Z) : M t Z :=
  read ChStream.dec_float.
Definition in_char (bVal : ChNameValue ascii) : M t ascii :=
  read ChStream.dec_char.
Definition in_unsigned_int (bVal : ChNameValue Z) : M t Z :=
  read ChStream.dec_unsigned_int.
Definition in_string (bVal : ChNameValue string) : M t string :=
  read ChStream.dec_string.
Definition in_unsigned_long (bVal : ChNameValue Z) : M t Z :=
  read ChStream.dec_unsigned_long.
Definition in_unsigned_long_long (bVal : ChNameValue Z) : M t Z :=
  read ChStream.dec_unsigned_long_long.
(** [int foo; istream >> foo; SetValueAsInt(foo)]: yields [foo]. *)
Definition in_ChEnumMapperBase (bVal : ChNameValue Z) : M t Z :=
  read ChStream.dec_int.

(** for wrapping arrays and lists *)
Definition in_array_pre (name : string) : M t Z :=
  read ChStream.dec_size_t.
Definition in_array_between (name : string) : M t unit := ret tt.
Definition in_array_end (name : string) : M t unit := ret tt.

(** for custom c++ objects *)
Definition in_ChFunctorArchiveIn (bVal : ChNameValue ChFunctorArchiveIn)
  : M t unit :=
  (if negb (Z.land (flags bVal) NVP_TRACK_OBJECT =? 0) then
     p <- gets (CallGetRawPtr (value bVal)) ;;
     PutPointer p ;;
     ret tt
   else ret tt) ;;
  CallArchiveIn (value bVal).

(** The text of the exception of [in_ref_polimorphic]: the whole string
    read from the stream goes into it. *)
Definition cannot_create_polimorphic (cls_name : string) : string :=
  String.append "Archive cannot create polimorphic object '"
    (String.append cls_name "' ").

(** for pointed objects *)
Definition in_ref_polimorphic (bVal : ChNameValue ChFunctorArchiveIn)
  : M t unit :=
  cls_name <- read ChStream.dec_string ;;
  if negb (String.eqb cls_name "oID") then
    CallArchiveInConstructor (value bVal) (c_str cls_name) ;;
    p <- gets (CallGetRawPtr (value bVal)) ;;
    if negb (Nat.eqb p nullptr) then
      p' <- gets (CallGetRawPtr (value bVal)) ;;
      PutPointer p' ;;
      CallArchiveIn (value bVal)
    else
      throw (ChExceptionArchive (cannot_create_polimorphic cls_name))
  else
    obj_ID <- read ChStream.dec_size_t ;;
    p <- subscript obj_ID ;;
    CallSetRawPtr (value bVal) p.

Definition in_ref (bVal : ChNameValue ChFunctorArchiveIn) : M t unit :=
  cls_name <- read ChStream.dec_string ;;
  if negb (String.eqb cls_name "oID") then
    CallArchiveInConstructor (value bVal) (c_str cls_name) ;;
    p <- gets (CallGetRawPtr (value bVal)) ;;
    if negb (Nat.eqb p nullptr) then
      p' <- gets (CallGetRawPtr (value bVal)) ;;
      PutPointer p' ;;
      CallArchiveIn (value bVal)
    else
      throw (ChExceptionArchive "Archive cannot create object")
  else
    obj_ID <- read ChStream.dec_size_t ;;
    p <- subscript obj_ID ;;
    CallSetRawPtr (value bVal) p.

End WithWorld.
Arguments t : clear implicits.
Arguments ChFunctorArchiveIn : clear implicits.
End ChArchiveInBinary.

(* ===================================================================== *)
(** ** Object graphs and the traversal that drives the archives *)
(* ===================================================================== *)

Module ObjectGraph.

Import ChArchiveOutBinary ChArchiveInBinary.

(** A field is an [int] or a polymorphic pointer to another object. *)
Inductive val : Type :=
  | VInt (z : Z)
  | VRef (p : ptr).

Inductive kind : Type :=
  | KInt
  | KRef.

Definition kind_of (v : val) : kind :=
  match v with VInt _ => KInt | VRef _ => KRef end.

Definition kind_eqb (k1 k2 : kind) : bool :=
  match k1, k2 with
  | KInt, KInt | KRef, KRef => true
  | _, _ => false
  end.

(** An object: its registered class name, what its constructor-argument
    writer emits and what its field writer emits. *)
Record object : Type := make_object {
  cls : string;
  cargs : list val;
  flds : list val
}.

(** Object memory; the object at position [i] has address [S i]. *)
Abbreviation heap := (list object) (only parsing).

Definition deref (h : heap) (p : ptr) : option object :=
  match p with
  | O => None
  | S i => h !! i
  end.

(** What a class reads back: the kinds of its constructor arguments and of
    its fields, in order. *)
Record layout : Type := make_layout {
  l_cargs : list kind;
  l_flds : list kind
}.

(** The class factory: a registered name yields a layout to construct
    from, an unknown name yields nothing ([createByName -> instance | null]
    of Section 6). *)
Definition factory : Type := string -> option layout.

(* ------------------------------------------------------------------- *)
(** *** Writing *)

Definition wstate : Type := ChArchiveOutBinary.t heap.

Definition get_object (p : ptr) : M wstate object :=
  fun a =>
    match deref (ChArchiveOutBinary.world a) p with
    | Some o => Ok o a
    | None => Stuck BadPointer
    end.

(** Modelled from the spec: the functor that wraps an object for writing
    (its class is in the absent [ChArchive.h]); Section 6: an object exposes
    a constructor-argument writer and a field writer, each of which writes
    its values in order through the archive. *)
Definition functor_out (wr : val -> M wstate unit) (o : object)
  : ChFunctorArchiveOut heap :=
  {| CallArchiveOut := iterM wr (flds o);
     CallArchiveOutConstructor := iterM wr (cargs o) |}.

(** Modelled from the spec: the caller of the output archive for a pointer
    field, which is part of the absent [ChArchive.h]. Section 4.3: the
    registry is queried by the caller before the write method is invoked,
    and the write method consumes the computed (already inserted, id)
    pair; Section 4.1: the identity is registered before recursing. *)
Fixpoint write_value (fuel : nat) (v : val) : M wstate unit :=
  match v with
  | VInt z => out_int (make_ChNameValue "" z 0)
  | VRef p =>
      match fuel with
      | O => stuck_at OutOfFuel
      | S n =>
          o <- get_object p ;;
          r <- ChArchiveOutBinary.PutPointer p ;;
          out_ref_polimorphic
            (make_ChNameValue "" (functor_out (write_value n) o) 0)
            (fst r) (Z.of_nat (snd r)) (cls o)
      end
  end.

Definition serialize (fuel : nat) (h : heap) (roots : list val)
  : result wstate unit :=
  iterM (write_value fuel) roots (ChArchiveOutBinary.mk [] [] h).

(* ------------------------------------------------------------------- *)
(** *** Reading *)

(** Memory on the reading side: the objects constructed so far and the
    stack of pointer variables the pending reads fill in. *)
Record rworld : Type := make_rworld {
  objs : heap;
  locals : list ptr
}.

Definition rstate : Type := ChArchiveInBinary.t rworld.

Definition with_world (f : rworld -> rworld) : M rstate unit :=
  modify (fun a =>
    ChArchiveInBinary.mk (istream a) (ChArchiveInBinary.objects_pointers a)
      (f (ChArchiveInBinary.world a))).

Definition push_local (p : ptr) : M rstate unit :=
  with_world (fun w => make_rworld (objs w) (p :: locals w)).

Definition top_local (a : rstate) : ptr :=
  match locals (ChArchiveInBinary.world a) with
  | p :: _ => p
  | [] => nullptr
  end.

Definition set_top (p : ptr) : M rstate unit :=
  with_world (fun w => make_rworld (objs w) (p :: tail (locals w))).

Definition pop_local : M rstate ptr :=
  p <- gets top_local ;;
  with_world (fun w => make_rworld (objs w) (tail (locals w))) ;;
  ret p.

(** [new T(args)]: the fresh object gets the next address. *)
Definition alloc (o : object) : M rstate ptr :=
  p <- gets (fun a => S (length (objs (ChArchiveInBinary.world a)))) ;;
  with_world (fun w => make_rworld (objs w ++ [o]) (locals w)) ;;
  ret p.

Definition get_robject (p : ptr) : M rstate object :=
  fun a =>
    match deref (objs (ChArchiveInBinary.world a)) p with
    | Some o => Ok o a
    | None => Stuck BadPointer
    end.

Definition set_flds (p : ptr) (vs : list val) : M rstate unit :=
  with_world (fun w =>
    make_rworld
      (alter (fun o => make_object (cls o) (cargs o) vs) (pred p) (objs w))
      (locals w)).

Section Reading.

Variable fac : factory.

(** Modelled from the spec: the functor of a pointer variable (its class is
    in the absent [ChArchive.h]), the variable being the top of the local
    stack. Section 4.2: construction looks the class name up in the
    factory, lets the constructor-argument reader consume its part of the
    stream and then materialises the instance, or leaves the pointer null
    when the factory knows no such class; the field reader fills the
    instance the variable points to. *)
Definition functor_in (rd : kind -> M rstate val)
  : ChFunctorArchiveIn rworld :=
  {| CallArchiveInConstructor := fun cls_name =>
       match fac cls_name with
       | Some l =>
           vs <- mapM rd (l_cargs l) ;;
           p <- alloc (make_object cls_name vs []) ;;
           set_top p
       | None => ret tt
       end;
     CallGetRawPtr := top_local;
     CallSetRawPtr := set_top;
     CallArchiveIn :=
       p <- gets top_local ;;
       o <- get_robject p ;;
       match fac (cls o) with
       | Some l => vs <- mapM rd (l_flds l) ;; set_flds p vs
       | None => stuck_at BadPointer
       end |}.

(** Modelled from the spec: the caller of the input archive for one field
    of the given kind (part of the absent [ChArchive.h]). A pointer field
    declares a null pointer variable, hands it to [in_ref_polimorphic] and
    yields what the variable holds afterwards. *)
Fixpoint read_value (fuel : nat) (k : kind) : M rstate val :=
  match k with
  | KInt => z <- in_int (make_ChNameValue "" 0 0) ;; ret (VInt z)
  | KRef =>
      match fuel with
      | O => stuck_at OutOfFuel
      | S n =>
          push_local nullptr ;;
          in_ref_polimorphic
            (make_ChNameValue "" (functor_in (read_value n)) 0) ;;
          p <- pop_local ;;
          ret (VRef p)
      end
  end.

Definition deserialize (fuel : nat) (ks : list kind) (bytes : list byte)
  : result rstate (list val) :=
  mapM (read_value fuel) ks
    (ChArchiveInBinary.mk bytes [] (make_rworld [] [])).

End Reading.

(* ------------------------------------------------------------------- *)
(** *** Graphs the round trip is stated for, and what it preserves *)

Definition int_fits (z : Z) : bool := (- 2 ^ 31 <=? z) && (z <? 2 ^ 31).

(** An [int] field holds an [int]; a pointer field designates an object
    of the graph: it is neither null nor dangling. *)
Definition value_ok (h : heap) (v : val) : bool :=
  match v with
  | VInt z => int_fits z
  | VRef p => match deref h p with Some _ => true | None => false end
  end.

Definition is_int (v : val) : bool :=
  match v with VInt _ => true | VRef _ => false end.

Fixpoint kinds_eqb (ks1 ks2 : list kind) : bool :=
  match ks1, ks2 with
  | [], [] => true
  | k1 :: ks1', k2 :: ks2' => kind_eqb k1 k2 && kinds_eqb ks1' ks2'
  | _, _ => false
  end.

(** The class name of the object is a C string (it holds no NUL); the
    class is registered with the layout the object has, under a name that
    is not the sentinel; its constructor arguments hold no pointer; its
    values are well formed. *)
Definition object_ok (fac : factory) (h : heap) (o : object) : bool :=
  negb (existsb (fun c => Ascii.eqb c zero) (list_ascii_of_string (cls o)))
  && negb (String.eqb (cls o) "oID")
  && (Z.of_nat (String.length (cls o)) <? 2 ^ 64)
  && forallb is_int (cargs o)
  && forallb (value_ok h) (cargs o)
  && forallb (value_ok h) (flds o)
  && match fac (cls o) with
     | Some l =>
         kinds_eqb (l_cargs l) (map kind_of (cargs o))
         && kinds_eqb (l_flds l) (map kind_of (flds o))
     | None => false
     end.

Definition graph_ok (fac : factory) (h : heap) (roots : list val) : bool :=
  (Z.of_nat (length h) <? 2 ^ 64)
  && forallb (object_ok fac h) h
  && forallb (value_ok h) roots.

(** A value read back corresponds to a written one: equal integers, or
    pointers to the objects that hold the same ID in the writer's registry
    [Wr] and in the reader's registry [Rd]. *)
Definition related (Wr Rd : list ptr) (v v' : val) : Prop :=
  match v, v' with
  | VInt z, VInt z' => z = z'
  | VRef p, VRef p' => exists n, Wr !! n = Some p /\ Rd !! n = Some p'
  | _, _ => False
  end.

(** [o'] is the reconstruction of [o]: same class, corresponding
    constructor arguments and fields. *)
Definition reconstructs (Wr Rd : list ptr) (o o' : object) : Prop :=
  cls o' = cls o /\
  Forall2 (related Wr Rd) (cargs o) (cargs o') /\
  Forall2 (related Wr Rd) (flds o) (flds o').

(** The reader's registry when objects are registered in the order in
    which they are constructed. *)
Definition reg_of (k : nat) : list ptr := map S (seq 0 k).

Section Simulation.

Variable fac : factory.
Variable h : heap.

Definition Winv (a : wstate) : Prop :=
  ChArchiveOutBinary.world a = h /\
  NoDup (ChArchiveOutBinary.objects_pointers a) /\
  Forall (fun p => is_Some (deref h p))
    (ChArchiveOutBinary.objects_pointers a).

(** The reader has registered as many objects as the writer, in
    construction order, each with the class and the constructor
    arguments of its original. *)
Definition Rinv (Wr : list ptr) (b : rstate) : Prop :=
  ChArchiveInBinary.objects_pointers b = reg_of (length Wr) /\
  length (objs (ChArchiveInBinary.world b)) = length Wr /\
  forall i p o,
    Wr !! i = Some p -> deref h p = Some o ->
    exists o', objs (ChArchiveInBinary.world b) !! i = Some o' /\
               cls o' = cls o /\ cargs o' = cargs o.

Definition rel (Wr : list ptr) (v v' : val) : Prop :=
  related Wr (reg_of (length Wr)) v v'.

(** What a read of [vals] establishes, started from [b] when the writer's
    registry was [Wa] and ending in [b'] with the writer's at [Wa']. *)
Definition Rpost (Wa Wa' : list ptr) (b b' : rstate)
    (rest : list byte) (vals vals' : list val) : Prop :=
  istream b' = rest /\
  locals (ChArchiveInBinary.world b') = locals (ChArchiveInBinary.world b) /\
  Rinv Wa' b' /\
  (forall i, (i < length Wa)%nat ->
     objs (ChArchiveInBinary.world b') !! i
     = objs (ChArchiveInBinary.world b) !! i) /\
  (forall i p o,
     (length Wa <= i)%nat -> Wa' !! i = Some p -> deref h p = Some o ->
     exists o', objs (ChArchiveInBinary.world b') !! i = Some o' /\
                Forall2 (rel Wa') (flds o) (flds o')) /\
  Forall2 (rel Wa') vals vals'.

(** Writing [vals] with [wr] and reading them back with [rd], when the
    objects not yet registered are fewer than [n]. *)
Definition sim_core {C : Type} (n : nat) (wr : M wstate unit)
    (rd : M rstate C) (vals : list val) (out : C -> list val) : Prop :=
  forall a,
    Winv a ->
    forallb (value_ok h) vals = true ->
    (length h - length (ChArchiveOutBinary.objects_pointers a) < n)%nat ->
    exists a' bs,
      wr a = Ok tt a' /\
      ChArchiveOutBinary.ostream a' = ChArchiveOutBinary.ostream a ++ bs /\
      Winv a' /\
      ChArchiveOutBinary.objects_pointers a
        `prefix_of` ChArchiveOutBinary.objects_pointers a' /\
      forall b rest,
        Rinv (ChArchiveOutBinary.objects_pointers a) b ->
        istream b = bs ++ rest ->
        exists b' c,
          rd b = Ok c b' /\
          Rpost (ChArchiveOutBinary.objects_pointers a)
            (ChArchiveOutBinary.objects_pointers a') b b' rest vals (out c).

Definition sim_value (n : nat) : Prop :=
  forall v,
    sim_core n (write_value n v) (read_value fac n (kind_of v))
      [v] (fun v' => [v']).

Definition sim_list (n : nat) : Prop :=
  forall vals,
    sim_core n (iterM (write_value n) vals)
      (mapM (read_value fac n) (map kind_of vals)) vals (fun vs => vs).

End Simulation.

End ObjectGraph.

(* ===================================================================== *)
(** ** Primitive kinds and array framing, as a caller uses them *)
(* ===================================================================== *)

Module Primitives.

Import ChArchiveOutBinary ChArchiveInBinary.

(** The primitive kinds both archives support, with a value of each.
    Floating-point values are represented by their bit patterns. *)
Inductive prim : Type :=
  | PBool (b : bool)
  | PInt (z : Z)
  | PDouble (bits : Z)
  | PFloat (bits : Z)
  | PChar (c : ascii)
  | PUnsignedInt (z : Z)
  | PString (s : string)
  | PUnsignedLong (z : Z)
  | PUnsignedLongLong (z : Z).

Inductive prim_kind : Type :=
  | TBool | TInt | TDouble | TFloat | TChar | TUnsignedInt | TString
  | TUnsignedLong | TUnsignedLongLong.

Definition kind_of_prim (v : prim) : prim_kind :=
  match v with
  | PBool _ => TBool
  | PInt _ => TInt
  | PDouble _ => TDouble
  | PFloat _ => TFloat
  | PChar _ => TChar
  | PUnsignedInt _ => TUnsignedInt
  | PString _ => TString
  | PUnsignedLong _ => TUnsignedLong
  | PUnsignedLongLong _ => TUnsignedLongLong
  end.

(** The bytes the stream holds for a value. *)
Definition prim_bytes (v : prim) : list byte :=
  match v with
  | PBool b => ChStream.enc_bool b
  | PInt z => ChStream.enc_int z
  | PDouble z => ChStream.enc_double z
  | PFloat z => ChStream.enc_float z
  | PChar c => ChStream.enc_char c
  | PUnsignedInt z => ChStream.enc_unsigned_int z
  | PString s => ChStream.enc_string s
  | PUnsignedLong z => ChStream.enc_unsigned_long z
  | PUnsignedLongLong z => ChStream.enc_unsigned_long_long z
  end.

(** The value fits the C++ type it stands for. *)
Definition prim_fits (v : prim) : bool :=
  match v with
  | PBool _ | PChar _ => true
  | PInt z => (- 2 ^ 31 <=? z) && (z <? 2 ^ 31)
  | PFloat z | PUnsignedInt z => (0 <=? z) && (z <? 2 ^ 32)
  | PDouble z | PUnsignedLong z | PUnsignedLongLong z =>
      (0 <=? z) && (z <? 2 ^ 64)
  | PString s => Z.of_nat (String.length s) <? 2 ^ 64
  end.

Section WithWorld.

Context {W W' : Type}.

(** [archive.out(nvp)] at the overload selected by the static type. *)
Definition out_prim (nm : string) (v : prim)
  : M (ChArchiveOutBinary.t W) unit :=
  match v with
  | PBool b => out_bool (make_ChNameValue nm b 0)
  | PInt z => out_int (make_ChNameValue nm z 0)
  | PDouble z => out_double (make_ChNameValue nm z 0)
  | PFloat z => out_float (make_ChNameValue nm z 0)
  | PChar c => out_char (make_ChNameValue nm c 0)
  | PUnsignedInt z => out_unsigned_int (make_ChNameValue nm z 0)
  | PString s => out_string (make_ChNameValue nm s 0)
  | PUnsignedLong z => out_unsigned_long (make_ChNameValue nm z 0)
  | PUnsignedLongLong z =>
      out_unsigned_long_long (make_ChNameValue nm z 0)
  end.

(** [archive.in(nvp)] into a freshly declared variable of kind [k]. *)
Definition in_prim (nm : string) (k : prim_kind)
  : M (ChArchiveInBinary.t W') prim :=
  match k with
  | TBool => x <- in_bool (make_ChNameValue nm false 0) ;; ret (PBool x)
  | TInt => x <- in_int (make_ChNameValue nm 0 0) ;; ret (PInt x)
  | TDouble => x <- in_double (make_ChNameValue nm 0 0) ;; ret (PDouble x)
  | TFloat => x <- in_float (make_ChNameValue nm 0 0) ;; ret (PFloat x)
  | TChar => x <- in_char (make_ChNameValue nm zero 0) ;; ret (PChar x)
  | TUnsignedInt =>
      x <- in_unsigned_int (make_ChNameValue nm 0 0) ;;
      ret (PUnsignedInt x)
  | TString => x <- in_string (make_ChNameValue nm "" 0) ;; ret (PString x)
  | TUnsignedLong =>
      x <- in_unsigned_long (make_ChNameValue nm 0 0) ;;
      ret (PUnsignedLong x)
  | TUnsignedLongLong =>
      x <- in_unsigned_long_long (make_ChNameValue nm 0 0) ;;
      ret (PUnsignedLongLong x)
  end.

(** Modelled from the spec: the container writer of the absent
    [ChArchive.h]. Section 4.1 and 6: the three-call shape, the count
    first, then the elements with a "between" hook after each and one
    "end" hook. An element is given by the bytes its own writer emits. *)
Definition out_array (nm classname : string) (elems : list (list byte))
  : M (ChArchiveOutBinary.t W) unit :=
  let msize := Z.of_nat (length elems) in
  out_array_pre nm msize classname ;;
  iterM (fun e => ChArchiveOutBinary.write e ;;
                  out_array_between msize classname) elems ;;
  out_array_end msize classname.

End WithWorld.

End Primitives.

(* ===================================================================== *)
(** ** Sample classes, graphs and archives *)
(* ===================================================================== *)

Module Samples.

Import ObjectGraph.

(** A factory with four registered classes. *)
Definition fac : factory := fun c =>
  if String.eqb c "Shared" then Some (make_layout [KInt] [KInt])
  else if String.eqb c "Node" then Some (make_layout [] [KRef; KRef])
  else if String.eqb c "Holder" then Some (make_layout [KRef] [])
  else if String.eqb c "oID" then Some (make_layout [] [KInt; KInt])
  else None.

(** The functor of a pointer variable, as the traversal builds it. *)
Definition ptr_functor : ChNameValue (ChArchiveInBinary.ChFunctorArchiveIn rworld) :=
  make_ChNameValue "p" (functor_in fac (read_value fac 1)) 0.

(** An archive about to read into one null pointer variable. *)
Definition reader (bytes : list byte) (registry : list ptr) (os : heap)
  : rstate :=
  ChArchiveInBinary.mk bytes registry (make_rworld os [nullptr]).

(** A diamond: two nodes' worth of references to one shared object. *)
Definition diamond : heap :=
  [ make_object "Node" [] [VRef 2%nat; VRef 2%nat];
    make_object "Shared" [VInt 7] [VInt (-3)] ].

(** A cycle: two nodes pointing at each other (and at themselves). *)
Definition cycle : heap :=
  [ make_object "Node" [] [VRef 2%nat; VRef 1%nat];
    make_object "Node" [] [VRef 1%nat; VRef 2%nat] ].

(** An object whose constructor arguments hold a pointer. *)
Definition holder : heap :=
  [ make_object "Holder" [VRef 2%nat] [];
    make_object "Shared" [VInt 1] [VInt 2] ].

(** An object of the class registered under the name of the sentinel,
    next to an ordinary one. *)
Definition sentinel_named : heap :=
  [ make_object "oID" [] [VInt 0; VInt 0];
    make_object "Shared" [VInt 1] [VInt 2] ].

(** The functor of an existing object on the writing side. *)
Definition obj_functor (o : object)
  : ChNameValue (ChArchiveOutBinary.ChFunctorArchiveOut heap) :=
  make_ChNameValue "o" (functor_out (write_value 1) o) 0.

Definition writer (h : heap) : wstate := ChArchiveOutBinary.mk [] [] h.

(** The same pointer functor, wrapped as a tracked and as an untracked
    named value, for a flag constant of 1. *)
Definition tracked_functor
  : ChNameValue (ChArchiveInBinary.ChFunctorArchiveIn rworld) :=
  make_ChNameValue "t" (functor_in fac (read_value fac 1)) 1.

Definition untracked_functor
  : ChNameValue (ChArchiveInBinary.ChFunctorArchiveIn rworld) :=
  make_ChNameValue "u" (functor_in fac (read_value fac 1)) 0.

(** A functor that constructs nothing: its constructor callback only
    notes, as the application memory, the class name it is given. *)
Definition name_recorder
  : ChNameValue (ChArchiveInBinary.ChFunctorArchiveIn string) :=
  make_ChNameValue "r"
    {| ChArchiveInBinary.CallArchiveIn := ret tt;
       ChArchiveInBinary.CallArchiveInConstructor := fun cls_name =>
         modify (fun a =>
           ChArchiveInBinary.mk (ChArchiveInBinary.istream a)
             (ChArchiveInBinary.objects_pointers a) cls_name);
       ChArchiveInBinary.CallGetRawPtr := fun _ => nullptr;
       ChArchiveInBinary.CallSetRawPtr := fun _ => ret tt |} 0.

(** A string with a NUL inside: [pre], NUL, [post]. *)
Definition with_NUL (pre post : string) : string :=
  String.append pre (String zero post).

End Samples.

(* ===================================================================== *)
(** ** ChCosimulation: exchanging a time and a vector over a socket *)
(* ===================================================================== *)

Module ChCosimulation.

(** How a call ends: it returns, it throws [std::runtime_error] with the
    given text, a [std::vector::resize] to a size no vector can have throws
    [std::length_error], or a subscript falls outside its vector. *)
Inductive outcome (A : Type) : Type :=
  | Returned (a : A)
  | runtime_error (what : string)
  | length_error
  | Undefined.

Arguments Returned {A} a.
Arguments runtime_error {A} what.
Arguments length_error {A}.
Arguments Undefined {A}.

Definition sizeof_double : nat := 8.

(** [reinterpret_cast<char*>(&d)[ds]] for a [double] given by its bit
    pattern; the source serialises "little endian". *)
Definition repr_byte (d : Z) (ds : nat) : byte :=
  ChStream.byte_of_Z (d / 256 ^ Z.of_nat ds).

(** Conversion of a [size_t] product to [int]. *)
Definition to_int (z : Z) : Z := (z + 2 ^ 31) mod 2 ^ 32 - 2 ^ 31.

(** [for (ds = 0; ds < sizeof(double); ++ds) buf[off + ds] = bytes of d]. *)
Definition poke_double (off : nat) (d : Z) (buf : list byte) : list byte :=
  fold_left (fun b ds => <[(off + ds)%nat := repr_byte d ds]> b)
    (seq 0 sizeof_double) buf.

Fixpoint all_some {A} (l : list (option A)) : option (list A) :=
  match l with
  | [] => Some []
  | Some x :: l' =>
      match all_some l' with Some xs => Some (x :: xs) | None => None end
  | None :: _ => None
  end.

(** [for (ds = 0; ds < sizeof(double); ++ds) bytes of d [ds] = buf[off + ds]]:
    the pattern read, or nothing when a subscript is out of range. *)
Definition peek_double (off : nat) (buf : list byte) : option Z :=
  match all_some (map (fun ds => buf !! (off + ds)%nat) (seq 0 sizeof_double)) with
  | Some bs => Some (ChStream.le_value bs)
  | None => None
  end.

Section WithSocket.

(** The socket classes are outside the repository: their operations are
    parameters. [acceptClient] yields the client socket or null;
    [ReceiveBuffer] yields the buffer as the call leaves it and the byte
    count it returns. *)
Variable socket : Type.
Variable ChSocketTCP : Z -> socket.
Variable bindSocket : socket -> socket.
Variable listenToClient : socket -> Z -> socket.
Variable acceptClient : socket -> socket * option socket.
Variable SendBuffer : socket -> list byte -> socket.
Variable ReceiveBuffer : socket -> list byte -> Z -> socket * list byte * Z.

Record t : Type := mk {
  myServer : option socket;
  myClient : option socket;
  in_n : Z;
  out_n : Z;
  nport : Z
}.

(** The constructor. *)
Definition make (n_in_values n_out_values : Z) : t :=
  mk None None n_in_values n_out_values 0.

Definition WaitConnection (self : t) (aport : Z) : outcome bool * t :=
  let srv := listenToClient (bindSocket (ChSocketTCP aport)) 1 in
  let (srv', client) := acceptClient srv in
  let self' := mk (Some srv') client (in_n self) (out_n self) aport in
  match client with
  | None =>
      (runtime_error "Server failed in getting the client socket", self')
  | Some _ => (Returned true, self')
  end.

(** The buffer [SendData] fills before it sends it. *)
Definition send_buffer (mtime : Z) (out_data : list Z) : list byte :=
  let mbuffer :=
    replicate ((length out_data + 1) * sizeof_double) "000"%byte in
  let mbuffer := poke_double 0 mtime mbuffer in
  fold_left
    (fun b i => poke_double ((i + 1) * sizeof_double) (nth i out_data 0) b)
    (seq 0 (length out_data)) mbuffer.

Definition SendData (self : t) (mtime : Z) (out_data : list Z)
  : outcome bool * t :=
  if negb (Z.of_nat (length out_data) =? out_n self) then
    (runtime_error "ERROR: Sent data must be a vector of size N.", self)
  else
    match myClient self with
    | None =>
        (runtime_error
           "ERROR: Attempted 'SendData' with no connected client.", self)
    | Some c =>
        (Returned true,
         mk (myServer self) (Some (SendBuffer c (send_buffer mtime out_data)))
           (in_n self) (out_n self) (nport self))
    end.

(** What [ReceiveData] makes of the received buffer: the time and the
    variables, or nothing when a subscript is out of range. *)
Definition receive_buffer (rbuffer : list byte) (n : nat)
  : option (Z * list Z) :=
  match peek_double 0 rbuffer with
  | Some mtime =>
      match all_some
              (map (fun i => peek_double ((i + 1) * sizeof_double) rbuffer)
                 (seq 0 n)) with
      | Some vs => Some (mtime, vs)
      | None => None
      end
  | None => None
  end.

(** The result carries the archive object and the contents of the two
    reference parameters [mtime] and [in_data] after the call. *)
Definition ReceiveData (self : t) (mtime : Z) (in_data : list Z)
  : outcome bool * t * Z * list Z :=
  if negb (Z.of_nat (length in_data) =? in_n self) then
    (runtime_error "ERROR: Received data must be a vector of size N.",
     self, mtime, in_data)
  else
    match myClient self with
    | None =>
        (runtime_error
           "ERROR: Attempted 'ReceiveData' with no connected client.",
         self, mtime, in_data)
    | Some c =>
        let nbytes := to_int (Z.of_nat sizeof_double * (in_n self + 1)) in
        if nbytes <? 0 then (length_error, self, mtime, in_data)
        else
          let rbuffer := replicate (Z.to_nat nbytes) "000"%byte in
          let '(c', rbuffer, _) := ReceiveBuffer c rbuffer nbytes in
          let self' :=
            mk (myServer self) (Some c') (in_n self) (out_n self)
              (nport self) in
          match receive_buffer rbuffer (length in_data) with
          | Some (mtime', in_data') => (Returned true, self', mtime', in_data')
          | None => (Undefined, self', mtime, in_data)
          end
    end.

End WithSocket.

Arguments mk {socket} _ _ _ _ _.
Arguments myServer {socket} _.
Arguments myClient {socket} _.
Arguments in_n {socket} _.
Arguments out_n {socket} _.
Arguments nport {socket} _.
Arguments make {socket} _ _.

(** A loop-back wire for trying the class out: a socket is the queue of
    the buffers in flight; sending enqueues, receiving copies the oldest
    buffer over the start of the caller's one. *)
Definition wire : Type := list (list byte).

Definition wire_send (s : wire) (buf : list byte) : wire := s ++ [buf].

Definition wire_receive (s : wire) (rbuffer : list byte) (nbytes : Z)
  : wire * list byte * Z :=
  match s with
  | [] => (s, rbuffer, 0)
  | b :: s' =>
      let got := take (Z.to_nat nbytes) b in
      (s', got ++ drop (length got) rbuffer, Z.of_nat (length got))
  end.

Definition wire_accept (s : wire) : wire * option wire := (s, Some []).

Definition wire_refuse (s : wire) : wire * option wire := (s, None).

End ChCosimulation.

(* ===================================================================== *)
(** ** The keyboard receiver of the hexacopter demo *)
(* ===================================================================== *)

Module HexaCopterDemo.

(** The Irrlicht enumerations, as far as the receiver tells their values
    apart. *)
Inductive EEVENT_TYPE : Type :=
  | EET_KEY_INPUT_EVENT
  | EET_OTHER_EVENT (code : nat).

Inductive EKEY_CODE : Type :=
  | KEY_KEY_W | KEY_KEY_S | KEY_KEY_A | KEY_KEY_D
  | KEY_NUMPAD4 | KEY_NUMPAD6 | KEY_NUMPAD8 | KEY_NUMPAD2
  | KEY_OTHER (code : nat).

Record SKeyInput : Type := { Key : EKEY_CODE; PressedDown : bool }.

Record SEvent : Type := { EventType : EEVENT_TYPE; KeyInput : SKeyInput }.

(** The calls the receiver makes on the copter; the argument is the
    [double] literal as the source spells it. *)
Inductive command : Type :=
  | Pitch_Down (x : string)
  | Pitch_Up (x : string)
  | Roll_Left (x : string)
  | Roll_Right (x : string)
  | Yaw_Left (x : string)
  | Yaw_Right (x : string)
  | Throttle (x : string).

(** The line feed that ends each text the receiver prints. *)
Definition LF : string := String (ascii_of_nat 10) EmptyString.

(** The copter as the calls it has received, and what went to [std::cout]. *)
Record world : Type := {
  copter : list command;
  cout : list string
}.

Definition act (c : command) (line : string) (w : world) : bool * world :=
  (true, {| copter := copter w ++ [c]; cout := cout w ++ [line] |}).

Definition OnEvent (event : SEvent) (w : world) : bool * world :=
  match EventType event with
  | EET_KEY_INPUT_EVENT =>
      if negb (PressedDown (KeyInput event)) then
        match Key (KeyInput event) with
        | KEY_KEY_W =>
            act (Pitch_Down "0.001") (String.append "Pressing W" LF) w
        | KEY_KEY_S =>
            act (Pitch_Up "0.001") (String.append "Pressing S" LF) w
        | KEY_KEY_A =>
            act (Roll_Left "0.001") (String.append "Pressing A" LF) w
        | KEY_KEY_D =>
            act (Roll_Right "0.001") (String.append "Pressing D" LF) w
        | KEY_NUMPAD4 =>
            act (Yaw_Left "0.01") (String.append "Pressing 4" LF) w
        | KEY_NUMPAD6 =>
            act (Yaw_Right "0.01") (String.append "Pressing 6" LF) w
        | KEY_NUMPAD8 =>
            act (Throttle "0.01") (String.append "Pressing 8" LF) w
        | KEY_NUMPAD2 =>
            act (Throttle "-0.01") (String.append "Pressing 2" LF) w
        | KEY_OTHER _ => (false, w)
        end
      else (false, w)
  | EET_OTHER_EVENT _ => (false, w)
  end.

Definition handled_key (k : EKEY_CODE) : bool :=
  match k with KEY_OTHER _ => false | _ => true end.

End HexaCopterDemo.

(* ===================================================================== *)
(** ** Callers of the binary archives used to state their properties *)
(* ===================================================================== *)

Module ArchiveUse.

Import ChArchiveOutBinary ChArchiveInBinary.

Section WithWorld.

Context {W : Type}.

(** The operation only appends to the pointer registry, however it ends. *)
Definition extends_registry {A} (c : M (ChArchiveInBinary.t W) A) : Prop :=
  forall a,
    match c a with
    | Ok _ a' | Throw _ a' =>
        ChArchiveInBinary.objects_pointers a
          `prefix_of` ChArchiveInBinary.objects_pointers a'
    | Stuck _ => True
    end.

(** The operation registers no null pointer, however it ends. *)
Definition registers_no_null {A} (c : M (ChArchiveInBinary.t W) A) : Prop :=
  forall a,
    nullptr ∉ ChArchiveInBinary.objects_pointers a ->
    match c a with
    | Ok _ a' | Throw _ a' =>
        nullptr ∉ ChArchiveInBinary.objects_pointers a'
    | Stuck _ => True
    end.

(** Modelled from the spec: the container writer and reader of the absent
    [ChArchive.h] at element type [int]. Sections 4.1, 4.2 and 6: the count
    first, then each element followed by the "between" hook, then the "end"
    hook; the reader takes the count from [in_array_pre] and requests that
    many elements. *)
Definition out_int_array (nm : string) (l : list Z)
  : M (ChArchiveOutBinary.t W) unit :=
  let msize := Z.of_nat (length l) in
  out_array_pre nm msize "int" ;;
  iterM (fun z => out_int (make_ChNameValue "" z 0) ;;
                  out_array_between msize "int") l ;;
  out_array_end msize "int".

Definition in_int_array (nm : string) : M (ChArchiveInBinary.t W) (list Z) :=
  msize <- in_array_pre nm ;;
  l <- mapM (fun _ : nat =>
               z <- in_int (make_ChNameValue "" 0 0) ;;
               in_array_between nm ;;
               ret z)
         (seq 0 (Z.to_nat msize)) ;;
  in_array_end nm ;;
  ret l.

End WithWorld.

(** A pointer variable as the whole application memory: construction makes
    it point to address 5, the field reader reads one [int]. *)
Definition leaf_in : ChNameValue (ChArchiveInBinary.ChFunctorArchiveIn ptr) :=
  make_ChNameValue "leaf"
    {| CallArchiveIn := z <- in_int (make_ChNameValue "" 0 0) ;; ret tt;
       CallArchiveInConstructor := fun _ =>
         modify (fun a =>
           ChArchiveInBinary.mk (istream a)
             (ChArchiveInBinary.objects_pointers a) 5%nat);
       CallGetRawPtr := ChArchiveInBinary.world;
       CallSetRawPtr := fun p =>
         modify (fun a =>
           ChArchiveInBinary.mk (istream a)
             (ChArchiveInBinary.objects_pointers a) p) |} 1.

(** An object whose constructor writes nothing and whose fields are one
    [int]. *)
Definition leaf_out (z : Z)
  : ChNameValue (ChArchiveOutBinary.ChFunctorArchiveOut unit) :=
  make_ChNameValue "leaf"
    {| CallArchiveOut := out_int (make_ChNameValue "" z 0);
       CallArchiveOutConstructor := ret tt |} 0.

End ArchiveUse.

(* ===================================================================== *)
(** * Properties *)
(* ===================================================================== *)

(** ** Running monadic code *)

Lemma bind_Ok {St A B} (c : M St A) (k : A -> M St B) s a s' :
  c s = Ok a s' -> (x <- c ;; k x) s = k a s'.
Proof. intros H. unfold bind. now rewrite H. Qed.

Lemma bind_run_eq {St A B} (c c' : M St A) (k : A -> M St B) s s' :
  c s = c' s' -> (x <- c ;; k x) s = (x <- c' ;; k x) s'.
Proof. intros H. unfold bind. now rewrite H. Qed.

Lemma bind_assoc {St A B C} (c : M St A) (k1 : A -> M St B)
    (k2 : B -> M St C) s :
  (y <- (x <- c ;; k1 x) ;; k2 y) s = (x <- c ;; y <- k1 x ;; k2 y) s.
Proof. unfold bind. now destruct (c s). Qed.

(** ** C strings *)

Module CStringFacts.

(** A string without NUL is its own C string. *)
Lemma c_str_NUL_free (s : string) :
  existsb (fun c => Ascii.eqb c zero) (list_ascii_of_string s) = false ->
  c_str s = s.
Proof.
  induction s as [| c s IH]; [reflexivity |].
  cbn [c_str list_ascii_of_string existsb].
  intros H. apply orb_false_iff in H as [Hc Hs].
  rewrite Hc. now rewrite IH.
Qed.

(** The C string of a string is what stands before its first NUL. *)
Lemma c_str_cut (cls_name nm : string) :
  existsb (fun c => Ascii.eqb c zero) (list_ascii_of_string nm) = false ->
  cls_name = nm \/
    (exists post, cls_name = String.append nm (String zero post)) ->
  c_str cls_name = nm.
Proof.
  intros Hnm [-> | [post ->]]; [now apply c_str_NUL_free |].
  induction nm as [| c nm IH]; [reflexivity |].
  change (String.append (String c nm) (String zero post))
    with (String c (String.append nm (String zero post))).
  cbn [c_str list_ascii_of_string existsb] in *.
  apply orb_false_iff in Hnm as [Hc Hnm].
  rewrite Hc. now rewrite IH.
Qed.

End CStringFacts.

(** ** The primitive stream: decoding undoes encoding *)

Module ChStreamFacts.

Import ChStream.

Lemma Z_of_byte_of_Z z : Z_of_byte (byte_of_Z z) = z mod 256.
Proof.
  unfold Z_of_byte, byte_of_Z.
  assert (Hr : 0 <= z mod 256 < 256) by (apply Z.mod_pos_bound; lia).
  destruct (Byte.of_N (Z.to_N (z mod 256))) as [b |] eqn:E; simpl.
  - apply Byte.to_of_N in E. rewrite E. lia.
  - apply Byte.of_N_None_iff in E. lia.
Qed.

Lemma length_le_bytes w z : length (le_bytes w z) = w.
Proof. revert z. induction w as [| w IH]; intros z; simpl; [| rewrite IH]; reflexivity. Qed.

Lemma le_value_le_bytes w z : le_value (le_bytes w z) = z mod 256 ^ Z.of_nat w.
Proof.
  revert z. induction w as [| w IH]; intros z.
  - simpl. now rewrite Z.mod_1_r.
  - cbn [le_bytes le_value]. rewrite Z_of_byte_of_Z, IH.
    rewrite Nat2Z.inj_succ, Z.pow_succ_r by lia.
    rewrite Z.rem_mul_r by (try apply Z.pow_pos_nonneg; lia).
    reflexivity.
Qed.

Lemma take_bytes_app bs rest :
  take_bytes (length bs) (bs ++ rest) = Some (bs, rest).
Proof.
  unfold take_bytes. rewrite decide_True by (rewrite length_app; lia).
  now rewrite take_app_length, drop_app_length.
Qed.

Lemma dec_unsigned_le_bytes w z rest :
  0 <= z < 256 ^ Z.of_nat w ->
  dec_unsigned w (le_bytes w z ++ rest) = Some (z, rest).
Proof.
  intros Hz. unfold dec_unsigned.
  rewrite <- (length_le_bytes w z) at 1. rewrite take_bytes_app.
  rewrite le_value_le_bytes, Z.mod_small by assumption. reflexivity.
Qed.

Lemma dec_size_t_enc z rest :
  0 <= z < 2 ^ 64 -> dec_size_t (enc_size_t z ++ rest) = Some (z, rest).
Proof. intros Hz. apply (dec_unsigned_le_bytes 8). exact Hz. Qed.

Lemma dec_bool_enc b rest : dec_bool (enc_bool b ++ rest) = Some (b, rest).
Proof.
  unfold dec_bool, enc_bool.
  rewrite dec_unsigned_le_bytes by (destruct b; simpl; lia).
  now destruct b.
Qed.

Lemma dec_char_enc c rest : dec_char (enc_char c ++ rest) = Some (c, rest).
Proof. simpl. now rewrite ascii_of_byte_of_ascii. Qed.

Lemma dec_int_enc z rest :
  - 2 ^ 31 <= z < 2 ^ 31 -> dec_int (enc_int z ++ rest) = Some (z, rest).
Proof.
  intros Hz. unfold dec_int, enc_int.
  rewrite dec_unsigned_le_bytes by (apply Z.mod_pos_bound; lia).
  destruct (Z.ltb_spec (z mod 2 ^ 32) (2 ^ 31)) as [Hlt | Hge].
  - f_equal. f_equal. destruct (Z.lt_ge_cases z 0) as [Hneg | Hpos].
    + rewrite <- (Z.mod_add z 1), Z.mod_small in Hlt by lia. lia.
    + rewrite Z.mod_small by lia. reflexivity.
  - f_equal. f_equal. destruct (Z.lt_ge_cases z 0) as [Hneg | Hpos].
    + rewrite <- (Z.mod_add z 1), Z.mod_small by lia. lia.
    + rewrite Z.mod_small in Hge by lia. lia.
Qed.

Lemma length_list_byte_of_string s :
  length (list_byte_of_string s) = String.length s.
Proof.
  unfold list_byte_of_string. rewrite length_map.
  induction s as [| c s IH]; simpl; [| rewrite IH]; reflexivity.
Qed.

Lemma dec_string_enc s rest :
  Z.of_nat (String.length s) < 2 ^ 64 ->
  dec_string (enc_string s ++ rest) = Some (s, rest).
Proof.
  intros Hlen. unfold dec_string, enc_string.
  rewrite <- app_assoc, dec_size_t_enc by lia.
  rewrite Nat2Z.id, <- length_list_byte_of_string, take_bytes_app.
  now rewrite string_of_list_byte_of_string.
Qed.

End ChStreamFacts.

(** ** Reading what was written: primitives and array framing *)

Section PrimitiveIO.

Context {W W' : Type}.
Import ChStream ChStreamFacts Primitives.

Lemma read_Some {A} (dec : list byte -> option (A * list byte))
    (b : ChArchiveInBinary.t W') v rest :
  dec (ChArchiveInBinary.istream b) = Some (v, rest) ->
  ChArchiveInBinary.read dec b = Ok v (ChArchiveInBinary.with_istream rest b).
Proof. intros H. unfold ChArchiveInBinary.read. now rewrite H. Qed.

Lemma read_string_enc (b : ChArchiveInBinary.t W') s rest :
  Z.of_nat (String.length s) < 2 ^ 64 ->
  ChArchiveInBinary.istream b = enc_string s ++ rest ->
  ChArchiveInBinary.read dec_string b
  = Ok s (ChArchiveInBinary.with_istream rest b).
Proof.
  intros Hlen Hb. apply read_Some. rewrite Hb. now apply dec_string_enc.
Qed.

Lemma read_size_t_enc (b : ChArchiveInBinary.t W') z rest :
  0 <= z < 2 ^ 64 ->
  ChArchiveInBinary.istream b = enc_size_t z ++ rest ->
  ChArchiveInBinary.read dec_size_t b
  = Ok z (ChArchiveInBinary.with_istream rest b).
Proof.
  intros Hz Hb. apply read_Some. rewrite Hb. now apply dec_size_t_enc.
Qed.

Lemma read_int_enc (b : ChArchiveInBinary.t W') z rest :
  - 2 ^ 31 <= z < 2 ^ 31 ->
  ChArchiveInBinary.istream b = enc_int z ++ rest ->
  ChArchiveInBinary.read dec_int b
  = Ok z (ChArchiveInBinary.with_istream rest b).
Proof.
  intros Hz Hb. apply read_Some. rewrite Hb. now apply dec_int_enc.
Qed.

(** C7. For every supported primitive kind and every value [v] of it,
    [ChArchiveOutBinary::out] leaves the output stream longer by the bytes
    of [v] and changes nothing else; [ChArchiveInBinary::in], started at
    the place of the stream where that write began (anything may follow
    the bytes written), returns exactly [v] (floating-point values as bit
    patterns), leaves the stream just after those bytes and changes nothing
    else: read (write v) = v. *)
Theorem primitive_round_trip (v : prim) (nm nm' : string)
    (a : ChArchiveOutBinary.t W) :
  prim_fits v = true ->
  let a' :=
    ChArchiveOutBinary.mk (ChArchiveOutBinary.ostream a ++ prim_bytes v)
      (ChArchiveOutBinary.objects_pointers a) (ChArchiveOutBinary.world a) in
  out_prim nm v a = Ok tt a' /\
  forall (b : ChArchiveInBinary.t W') rest,
    ChArchiveOutBinary.ostream a ++ ChArchiveInBinary.istream b
    = ChArchiveOutBinary.ostream a' ++ rest ->
    in_prim nm' (kind_of_prim v) b
    = Ok v (ChArchiveInBinary.mk rest (ChArchiveInBinary.objects_pointers b)
              (ChArchiveInBinary.world b)).
Proof.
  intros Hfit a'. split.
  - destruct v; reflexivity.
  - intros b rest Hb. unfold a' in Hb. cbn [ChArchiveOutBinary.ostream] in Hb.
    rewrite <- app_assoc in Hb. apply app_inv_head in Hb.
    destruct v as [x | z | z | z | c | z | s | z | z]; cbn [prim_fits] in Hfit;
      cbn [in_prim kind_of_prim prim_bytes] in *;
      unfold ChArchiveInBinary.in_bool, ChArchiveInBinary.in_int,
        ChArchiveInBinary.in_double, ChArchiveInBinary.in_float,
        ChArchiveInBinary.in_char, ChArchiveInBinary.in_unsigned_int,
        ChArchiveInBinary.in_string, ChArchiveInBinary.in_unsigned_long,
        ChArchiveInBinary.in_unsigned_long_long;
      match goal with
      | |- (x <- ChArchiveInBinary.read ?d ;; _) _ = Ok (_ ?w) _ =>
          rewrite (bind_Ok _ _ b w (ChArchiveInBinary.with_istream rest b));
            [reflexivity | apply read_Some; rewrite Hb]
      end.
    + apply dec_bool_enc.
    + apply dec_int_enc. lia.
    + apply (dec_unsigned_le_bytes 8). lia.
    + apply (dec_unsigned_le_bytes 4). lia.
    + apply dec_char_enc.
    + apply (dec_unsigned_le_bytes 4). lia.
    + apply dec_string_enc. lia.
    + apply (dec_unsigned_le_bytes 8). lia.
    + apply (dec_unsigned_le_bytes 8). lia.
Qed.

End PrimitiveIO.

Section ArrayFraming.

Context {W W' : Type}.
Import ChStream ChStreamFacts Primitives.

Lemma iterM_write_between (N : Z) (cn : string) (elems : list (list byte))
    (a : ChArchiveOutBinary.t W) :
  iterM (fun e => ChArchiveOutBinary.write e ;;
                  ChArchiveOutBinary.out_array_between N cn) elems a
  = Ok tt (ChArchiveOutBinary.append (concat elems) a).
Proof.
  revert a. induction elems as [| e elems IH]; intros a.
  - destruct a as [o r w]. cbn. unfold ChArchiveOutBinary.append. cbn.
    now rewrite app_nil_r.
  - cbn [iterM concat]. unfold bind at 1 2. cbn. rewrite IH.
    destruct a as [o r w]. unfold ChArchiveOutBinary.append. cbn.
    now rewrite <- app_assoc.
Qed.

(** C8. For a sequence of N elements (N = 0 included), [out_array_pre]
    leaves the output stream longer by the count N and changes nothing
    else, [out_array_between] and [out_array_end] leave the archive as it
    is, so that the stream after the whole sequence is the stream before
    it, the count, and the elements in order; [in_array_pre], started at
    the place of the stream where that write began, returns N and leaves
    the stream at the first element. *)
Theorem array_length_prefix (nm nm' cn : string) (elems : list (list byte))
    (a : ChArchiveOutBinary.t W) :
  Z.of_nat (length elems) < 2 ^ 64 ->
  let N := Z.of_nat (length elems) in
  let wrote bs :=
    ChArchiveOutBinary.mk (ChArchiveOutBinary.ostream a ++ bs)
      (ChArchiveOutBinary.objects_pointers a) (ChArchiveOutBinary.world a) in
  ChArchiveOutBinary.out_array_pre nm N cn a = Ok tt (wrote (enc_size_t N)) /\
  (forall a' : ChArchiveOutBinary.t W,
      ChArchiveOutBinary.out_array_between N cn a' = Ok tt a') /\
  (forall a' : ChArchiveOutBinary.t W,
      ChArchiveOutBinary.out_array_end N cn a' = Ok tt a') /\
  out_array nm cn elems a = Ok tt (wrote (enc_size_t N ++ concat elems)) /\
  forall (b : ChArchiveInBinary.t W') rest,
    ChArchiveOutBinary.ostream a ++ ChArchiveInBinary.istream b
    = ChArchiveOutBinary.ostream (wrote (enc_size_t N ++ concat elems))
      ++ rest ->
    ChArchiveInBinary.in_array_pre nm' b
    = Ok N (ChArchiveInBinary.mk (concat elems ++ rest)
              (ChArchiveInBinary.objects_pointers b)
              (ChArchiveInBinary.world b)).
Proof.
  intros Hlen N wrote. repeat split.
  - unfold out_array. fold N.
    rewrite (bind_Ok _ _ a tt (ChArchiveOutBinary.append (enc_size_t N) a))
      by reflexivity.
    rewrite (bind_Ok _ _ _ tt _ (iterM_write_between N cn elems _)).
    destruct a as [o r w]. unfold ChArchiveOutBinary.append, wrote. cbn.
    unfold ChArchiveOutBinary.out_array_end, ret. now rewrite <- app_assoc.
  - intros b rest Hb. unfold wrote in Hb.
    cbn [ChArchiveOutBinary.ostream] in Hb.
    rewrite <- !app_assoc in Hb. apply app_inv_head in Hb.
    unfold ChArchiveInBinary.in_array_pre.
    apply (read_size_t_enc b N (concat elems ++ rest)); [lia | exact Hb].
Qed.

End ArrayFraming.

(** ** The pointer registry *)

Module RegistryFacts.

Lemma PutPointer_found (p : ptr) (l : list ptr) i q :
  list_find (fun q => q = p) l = Some (i, q) ->
  ChArchive.PutPointer p l = (true, i, l) /\ l !! i = Some p.
Proof.
  intros H. unfold ChArchive.PutPointer. rewrite H. split; [reflexivity |].
  apply list_find_Some in H as (Hi & -> & _). exact Hi.
Qed.

Lemma PutPointer_fresh (p : ptr) (l : list ptr) :
  p ∉ l ->
  ChArchive.PutPointer p l = (false, length l, l ++ [p]).
Proof.
  intros H. unfold ChArchive.PutPointer.
  destruct (list_find (fun q => q = p) l) as [[i q] |] eqn:E; [| reflexivity].
  apply list_find_Some in E as (Hi & -> & _).
  exfalso. apply H. eapply list_elem_of_lookup_2. exact Hi.
Qed.

Lemma PutPointer_cases (p : ptr) (l : list ptr) :
  (exists i, l !! i = Some p /\ ChArchive.PutPointer p l = (true, i, l)) \/
  ((p ∉ l) /\ ChArchive.PutPointer p l = (false, length l, l ++ [p])).
Proof.
  destruct (list_find (fun q => q = p) l) as [[i q] |] eqn:E.
  - left. exists i. apply PutPointer_found in E as [E1 E2]. now split.
  - right. apply list_find_None in E.
    assert (Hn : p ∉ l).
    { intros Hin. rewrite Forall_forall in E. now apply (E p). }
    split; [exact Hn | now apply PutPointer_fresh].
Qed.

(** After [PutPointer] the pointer is registered at the returned position
    and every earlier registration is where it was. *)
Lemma PutPointer_registered (p : ptr) (l : list ptr) :
  snd (ChArchive.PutPointer p l) !! snd (fst (ChArchive.PutPointer p l))
  = Some p /\
  l `prefix_of` snd (ChArchive.PutPointer p l).
Proof.
  destruct (PutPointer_cases p l) as [(i & Hi & ->) | (Hn & ->)]; cbn.
  - split; [exact Hi | reflexivity].
  - split; [| now apply prefix_app_r].
    rewrite lookup_app_r by lia. now rewrite Nat.sub_diag.
Qed.

(** The registry after [PutPointer], written out: unchanged when the
    pointer is in it, longer by the pointer otherwise. *)
Lemma PutPointer_registry (p : ptr) (l : list ptr) :
  snd (ChArchive.PutPointer p l)
  = if existsb (Nat.eqb p) l then l else l ++ [p].
Proof.
  destruct (PutPointer_cases p l) as [(i & Hi & ->) | (Hn & ->)]; cbn.
  - assert (H : existsb (Nat.eqb p) l = true).
    { apply existsb_exists. exists p. split; [| apply Nat.eqb_refl].
      apply list_elem_of_In. eapply list_elem_of_lookup_2. exact Hi. }
    now rewrite H.
  - destruct (existsb (Nat.eqb p) l) eqn:E; [| reflexivity].
    apply existsb_exists in E as (x & Hx & Heq).
    apply Nat.eqb_eq in Heq. subst x.
    exfalso. apply Hn. now apply list_elem_of_In.
Qed.

End RegistryFacts.

(** ** The write methods for pointed objects *)

Section OutRef.

Context {W : Type}.
Import ChStream ChArchiveOutBinary.

(** The stream after a first-time write: the class name, then what the
    constructor-argument writer appended, then what the field writer
    appended. *)
Lemma out_ref_polimorphic_stream (bVal : ChNameValue (ChFunctorArchiveOut W))
    (obj_ID : Z) (classname : string) (a a1 a2 : t W) c f :
  let s0 :=
    mk (ostream a ++ enc_string (c_str classname)) (objects_pointers a)
      (world a) in
  CallArchiveOutConstructor (value bVal) s0 = Ok tt a1 ->
  ostream a1 = ostream s0 ++ c ->
  CallArchiveOut (value bVal) a1 = Ok tt a2 ->
  ostream a2 = ostream a1 ++ f ->
  out_ref_polimorphic bVal false obj_ID classname a = Ok tt a2 /\
  ostream a2 = ostream a ++ enc_string (c_str classname) ++ c ++ f.
Proof.
  intros s0 Hc Hs1 Hf Hs2. split.
  - unfold out_ref_polimorphic. cbn [negb].
    rewrite (bind_Ok _ _ a tt s0) by reflexivity.
    now rewrite (bind_Ok _ _ _ tt a1 Hc).
  - rewrite Hs2, Hs1. unfold s0. cbn [ostream]. now rewrite <- !app_assoc.
Qed.

Lemma out_ref_stream (bVal : ChNameValue (ChFunctorArchiveOut W))
    (obj_ID : Z) (classname : string) (a a1 a2 : t W) c f :
  let s0 := mk (ostream a ++ enc_string "") (objects_pointers a) (world a) in
  CallArchiveOutConstructor (value bVal) s0 = Ok tt a1 ->
  ostream a1 = ostream s0 ++ c ->
  CallArchiveOut (value bVal) a1 = Ok tt a2 ->
  ostream a2 = ostream a1 ++ f ->
  out_ref bVal false obj_ID classname a = Ok tt a2 /\
  ostream a2 = ostream a ++ enc_string "" ++ c ++ f.
Proof.
  intros s0 Hc Hs1 Hf Hs2. split.
  - unfold out_ref. cbn [negb].
    rewrite (bind_Ok _ _ a tt s0) by reflexivity.
    now rewrite (bind_Ok _ _ _ tt a1 Hc).
  - rewrite Hs2, Hs1. unfold s0. cbn [ostream]. now rewrite <- !app_assoc.
Qed.

Lemma out_ref_already_inserted (obj_ID : Z) (a : t W) :
  (write (enc_string "oID") ;; write (enc_size_t obj_ID)) a
  = Ok tt (mk (ostream a ++ enc_string "oID" ++ enc_size_t obj_ID)
             (objects_pointers a) (world a)).
Proof.
  destruct a as [o r w]. unfold bind, write, modify, append. cbn.
  now rewrite <- app_assoc.
Qed.

(** C2. [out_ref_polimorphic] with [already_inserted = false] puts the
    class name on the stream (the C string [classname]: what stands
    before its terminating NUL) and then runs the constructor-argument
    writer followed by the field writer, so that the stream ends up as:
    what it was, the class name, the constructor payload, the field
    payload. With [already_inserted = true] it puts the string "oID"
    followed by [obj_ID] on the stream and does nothing else (neither
    callback runs, registry and application memory are as before).
    [out_ref] does the same, with the empty string in place of the class
    name. *)
Theorem out_ref_envelope (bVal : ChNameValue (ChFunctorArchiveOut W))
    (obj_ID : Z) (classname : string) (a : t W) :
  let wrote bs := mk (ostream a ++ bs) (objects_pointers a) (world a) in
  (forall nm,
     existsb (fun c => Ascii.eqb c zero) (list_ascii_of_string nm) = false ->
     classname = nm \/
       (exists post, classname = String.append nm (String zero post)) ->
     out_ref_polimorphic bVal false obj_ID classname a
     = (CallArchiveOutConstructor (value bVal) ;; CallArchiveOut (value bVal))
         (wrote (enc_string nm)) /\
     forall a1 a2 c f,
       CallArchiveOutConstructor (value bVal) (wrote (enc_string nm))
       = Ok tt a1 ->
       ostream a1 = ostream (wrote (enc_string nm)) ++ c ->
       CallArchiveOut (value bVal) a1 = Ok tt a2 ->
       ostream a2 = ostream a1 ++ f ->
       out_ref_polimorphic bVal false obj_ID classname a = Ok tt a2 /\
       ostream a2 = ostream a ++ enc_string nm ++ c ++ f) /\
  out_ref_polimorphic bVal true obj_ID classname a
  = Ok tt (wrote (enc_string "oID" ++ enc_size_t obj_ID)) /\
  (out_ref bVal false obj_ID classname a
   = (CallArchiveOutConstructor (value bVal) ;; CallArchiveOut (value bVal))
       (wrote (enc_string "")) /\
   forall a1 a2 c f,
     CallArchiveOutConstructor (value bVal) (wrote (enc_string ""))
     = Ok tt a1 ->
     ostream a1 = ostream (wrote (enc_string "")) ++ c ->
     CallArchiveOut (value bVal) a1 = Ok tt a2 ->
     ostream a2 = ostream a1 ++ f ->
     out_ref bVal false obj_ID classname a = Ok tt a2 /\
     ostream a2 = ostream a ++ enc_string "" ++ c ++ f) /\
  out_ref bVal true obj_ID classname a
  = Ok tt (wrote (enc_string "oID" ++ enc_size_t obj_ID)).
Proof.
  intros wrote. split_and!.
  - intros nm Hnm Hcut.
    pose proof (CStringFacts.c_str_cut classname nm Hnm Hcut) as Hcs.
    split.
    + unfold out_ref_polimorphic. cbn [negb]. now rewrite Hcs.
    + intros a1 a2 c f. rewrite <- Hcs. apply out_ref_polimorphic_stream.
  - apply out_ref_already_inserted.
  - reflexivity.
  - intros a1 a2 c f. apply out_ref_stream.
  - apply out_ref_already_inserted.
Qed.

End OutRef.

(** ** The read methods for pointed objects *)

Section InRef.

Context {W : Type}.
Import ChStream ChArchiveInBinary.


Lemma in_ref_polimorphic_new (bVal : ChNameValue (ChFunctorArchiveIn W)) (a : t W) cls_name rest :
  Z.of_nat (String.length cls_name) < 2 ^ 64 ->
  cls_name <> "oID" ->
  istream a = enc_string cls_name ++ rest ->
  in_ref_polimorphic bVal a
  = (CallArchiveInConstructor (value bVal) (c_str cls_name) ;;
     p <- gets (CallGetRawPtr (value bVal)) ;;
     if negb (Nat.eqb p nullptr) then
       p' <- gets (CallGetRawPtr (value bVal)) ;;
       PutPointer p' ;;
       CallArchiveIn (value bVal)
     else throw (ChExceptionArchive (cannot_create_polimorphic cls_name)))
      (with_istream rest a).
Proof.
  intros Hlen Hne Hs. unfold in_ref_polimorphic.
  rewrite (bind_Ok _ _ a _ _ (read_string_enc a cls_name rest Hlen Hs)).
  apply String.eqb_neq in Hne. rewrite Hne. reflexivity.
Qed.

Lemma in_ref_new (bVal : ChNameValue (ChFunctorArchiveIn W)) (a : t W) cls_name rest :
  Z.of_nat (String.length cls_name) < 2 ^ 64 ->
  cls_name <> "oID" ->
  istream a = enc_string cls_name ++ rest ->
  in_ref bVal a
  = (CallArchiveInConstructor (value bVal) (c_str cls_name) ;;
     p <- gets (CallGetRawPtr (value bVal)) ;;
     if negb (Nat.eqb p nullptr) then
       p' <- gets (CallGetRawPtr (value bVal)) ;;
       PutPointer p' ;;
       CallArchiveIn (value bVal)
     else throw (ChExceptionArchive "Archive cannot create object"))
      (with_istream rest a).
Proof.
  intros Hlen Hne Hs. unfold in_ref.
  rewrite (bind_Ok _ _ a _ _ (read_string_enc a cls_name rest Hlen Hs)).
  apply String.eqb_neq in Hne. rewrite Hne. reflexivity.
Qed.

(** What both methods do once the constructor callback has been given the
    class name: by the outcome of the callback, throw from the archive it
    left when the raw pointer is null, and otherwise run the field reader
    on that archive with the pointer registered. *)
Lemma new_object_run (bVal : ChNameValue (ChFunctorArchiveIn W))
    (what nm : string) (a0 : t W) :
  (CallArchiveInConstructor (value bVal) nm ;;
   p <- gets (CallGetRawPtr (value bVal)) ;;
   if negb (Nat.eqb p nullptr) then
     p' <- gets (CallGetRawPtr (value bVal)) ;;
     PutPointer p' ;;
     CallArchiveIn (value bVal)
   else throw (ChExceptionArchive what)) a0
  = match CallArchiveInConstructor (value bVal) nm a0 with
    | Ok _ a1 =>
        let p := CallGetRawPtr (value bVal) a1 in
        let R := objects_pointers a1 in
        if Nat.eqb p nullptr then Throw (ChExceptionArchive what) a1
        else CallArchiveIn (value bVal)
               (mk (istream a1)
                  (if existsb (Nat.eqb p) R then R else R ++ [p])
                  (world a1))
    | Throw e a1 => Throw e a1
    | Stuck w => Stuck w
    end.
Proof.
  unfold bind at 1.
  destruct (CallArchiveInConstructor (value bVal) nm a0)
    as [[] a1 | e a1 | w]; try reflexivity.
  unfold bind at 1, gets at 1. cbv zeta.
  destruct (Nat.eqb (CallGetRawPtr (value bVal) a1) nullptr);
    cbn [negb]; [reflexivity |].
  unfold bind, gets, PutPointer, with_objects_pointers.
  now rewrite RegistryFacts.PutPointer_registry.
Qed.

Lemma in_ref_polimorphic_oID (bVal : ChNameValue (ChFunctorArchiveIn W)) (a : t W) rest :
  istream a = enc_string "oID" ++ rest ->
  in_ref_polimorphic bVal a
  = (obj_ID <- read dec_size_t ;;
     p <- subscript obj_ID ;;
     CallSetRawPtr (value bVal) p) (with_istream rest a).
Proof.
  intros Hs. unfold in_ref_polimorphic.
  rewrite (bind_Ok _ _ a _ _ (read_string_enc a "oID" rest eq_refl Hs)).
  reflexivity.
Qed.

Lemma in_ref_oID (bVal : ChNameValue (ChFunctorArchiveIn W)) (a : t W) rest :
  istream a = enc_string "oID" ++ rest ->
  in_ref bVal a
  = (obj_ID <- read dec_size_t ;;
     p <- subscript obj_ID ;;
     CallSetRawPtr (value bVal) p) (with_istream rest a).
Proof.
  intros Hs. unfold in_ref.
  rewrite (bind_Ok _ _ a _ _ (read_string_enc a "oID" rest eq_refl Hs)).
  reflexivity.
Qed.

(** C3. When the leading string read from the stream is "oID",
    [in_ref_polimorphic] and [in_ref] read one integer ID after it and hand
    the pointer registered at that ID to the field's setter; what they do
    is the setter's call on the archive positioned after the ID, so that
    neither the constructor callback nor the field reader runs. *)
Theorem in_ref_back_reference (bVal : ChNameValue (ChFunctorArchiveIn W)) (a : t W)
    (obj_ID : Z) (p : ptr) (rest : list byte) :
  istream a = enc_string "oID" ++ enc_size_t obj_ID ++ rest ->
  0 <= obj_ID < 2 ^ 64 ->
  objects_pointers a !! Z.to_nat obj_ID = Some p ->
  in_ref_polimorphic bVal a
  = CallSetRawPtr (value bVal) p (with_istream rest a) /\
  in_ref bVal a = CallSetRawPtr (value bVal) p (with_istream rest a).
Proof.
  intros Hs Hid Hp.
  assert (Hrest : istream (with_istream (enc_size_t obj_ID ++ rest) a)
                  = enc_size_t obj_ID ++ rest) by reflexivity.
  assert (Hrun : (obj_ID <- read dec_size_t ;;
                  p <- subscript obj_ID ;;
                  CallSetRawPtr (value bVal) p)
                   (with_istream (enc_size_t obj_ID ++ rest) a)
                 = CallSetRawPtr (value bVal) p (with_istream rest a)).
  { rewrite (bind_Ok _ _ _ _ _ (read_size_t_enc _ obj_ID rest Hid Hrest)).
    unfold bind, subscript. cbn. now rewrite Hp. }
  split.
  - now rewrite (in_ref_polimorphic_oID bVal a _ Hs).
  - now rewrite (in_ref_oID bVal a _ Hs).
Qed.

(** C4. When [in_ref_polimorphic] reads a class name other than "oID" and
    the constructor callback, called with that name as a C string (what
    stands before its first NUL, the whole name when it has none) on the
    archive positioned after it, returns leaving the raw pointer null, the
    read throws the archive exception whose text names the class; the
    archive it leaves is the one the constructor callback returned, so the
    operation itself has registered nothing, and the registry is the
    initial one whenever the callback, like a factory that finds no class,
    has not touched it. *)
Theorem in_ref_polimorphic_unknown_class (bVal : ChNameValue (ChFunctorArchiveIn W)) (a a1 : t W)
    (cls_name nm : string) (rest : list byte) :
  istream a = enc_string cls_name ++ rest ->
  Z.of_nat (String.length cls_name) < 2 ^ 64 ->
  cls_name <> "oID" ->
  existsb (fun c => Ascii.eqb c zero) (list_ascii_of_string nm) = false ->
  cls_name = nm \/
    (exists post, cls_name = String.append nm (String zero post)) ->
  CallArchiveInConstructor (value bVal) nm
    (mk rest (objects_pointers a) (world a))
  = Ok tt a1 ->
  CallGetRawPtr (value bVal) a1 = nullptr ->
  in_ref_polimorphic bVal a
  = Throw (ChExceptionArchive
             (String.append "Archive cannot create polimorphic object '"
                (String.append cls_name "' "))) a1 /\
  (objects_pointers a1 = objects_pointers a ->
   forall e a', in_ref_polimorphic bVal a = Throw e a' ->
                objects_pointers a' = objects_pointers a).
Proof.
  intros Hs Hlen Hne Hnm Hcut Hctor Hnull.
  assert (Hrun : in_ref_polimorphic bVal a
                 = Throw (ChExceptionArchive
                            (cannot_create_polimorphic cls_name)) a1).
  { rewrite (in_ref_polimorphic_new bVal a cls_name rest Hlen Hne Hs).
    rewrite new_object_run.
    rewrite (CStringFacts.c_str_cut cls_name nm Hnm Hcut).
    change (with_istream rest a)
      with (mk rest (objects_pointers a) (world a)).
    rewrite Hctor. cbv zeta. rewrite Hnull. reflexivity. }
  split; [exact Hrun |].
  intros Hreg e a' H. rewrite Hrun in H. now inversion H; subst.
Qed.

(** C5 (as the code has it). When [in_ref_polimorphic] or [in_ref] reads
    "oID" followed by an ID at which nothing is registered, no exception is
    raised: the registry is subscripted without any check, which leaves the
    behaviour the code defines. *)
Theorem in_ref_unregistered_id (bVal : ChNameValue (ChFunctorArchiveIn W)) (a : t W)
    (obj_ID : Z) (rest : list byte) :
  istream a = enc_string "oID" ++ enc_size_t obj_ID ++ rest ->
  0 <= obj_ID < 2 ^ 64 ->
  objects_pointers a !! Z.to_nat obj_ID = None ->
  (in_ref_polimorphic bVal a = Stuck OutOfRange /\
   in_ref bVal a = Stuck OutOfRange) /\
  is_throw (in_ref_polimorphic bVal a) = false /\
  is_throw (in_ref bVal a) = false.
Proof.
  intros Hs Hid Hp.
  assert (Hrest : istream (with_istream (enc_size_t obj_ID ++ rest) a)
                  = enc_size_t obj_ID ++ rest) by reflexivity.
  assert (Hrun : (obj_ID <- read dec_size_t ;;
                  p <- subscript obj_ID ;;
                  CallSetRawPtr (value bVal) p)
                   (with_istream (enc_size_t obj_ID ++ rest) a)
                 = Stuck OutOfRange).
  { rewrite (bind_Ok _ _ _ _ _ (read_size_t_enc _ obj_ID rest Hid Hrest)).
    unfold bind, subscript. cbn. now rewrite Hp. }
  rewrite (in_ref_polimorphic_oID bVal a _ Hs), (in_ref_oID bVal a _ Hs).
  rewrite Hrun. repeat split.
Qed.

(** C10. On every archive state [in_ref] and [in_ref_polimorphic] end in
    the same outcome and the same archive (stream position, registry,
    application memory), except when the constructor callback leaves a
    null pointer: then both throw from the same archive, with their two
    different texts. On a stream that starts with a class name other than
    "oID", both pass that name as a C string (what stands before its
    first NUL, the whole name when it has none; the empty string for a
    stream of [out_ref]) to the constructor callback on the archive
    positioned after the name; when the callback leaves a non-null raw
    pointer, the field reader runs on the archive the callback left with
    that pointer in the registry: appended when it was not registered,
    the registry unchanged when it was. *)
Theorem in_ref_same_as_in_ref_polimorphic (bVal : ChNameValue (ChFunctorArchiveIn W)) (a : t W) :
  (in_ref bVal a = in_ref_polimorphic bVal a \/
   exists cls_name a',
     in_ref bVal a
     = Throw (ChExceptionArchive "Archive cannot create object") a' /\
     in_ref_polimorphic bVal a
     = Throw (ChExceptionArchive
                (String.append "Archive cannot create polimorphic object '"
                   (String.append cls_name "' "))) a') /\
  forall cls_name nm rest,
    Z.of_nat (String.length cls_name) < 2 ^ 64 ->
    cls_name <> "oID" ->
    existsb (fun c => Ascii.eqb c zero) (list_ascii_of_string nm) = false ->
    cls_name = nm \/
      (exists post, cls_name = String.append nm (String zero post)) ->
    istream a = enc_string cls_name ++ rest ->
    let construct_register_read (what : string) :=
      match CallArchiveInConstructor (value bVal) nm
              (mk rest (objects_pointers a) (world a)) with
      | Ok _ a1 =>
          let p := CallGetRawPtr (value bVal) a1 in
          let R := objects_pointers a1 in
          if Nat.eqb p nullptr then Throw (ChExceptionArchive what) a1
          else CallArchiveIn (value bVal)
                 (mk (istream a1)
                    (if existsb (Nat.eqb p) R then R else R ++ [p])
                    (world a1))
      | Throw e a1 => Throw e a1
      | Stuck w => Stuck w
      end in
    in_ref bVal a = construct_register_read "Archive cannot create object" /\
    in_ref_polimorphic bVal a
    = construct_register_read
        (String.append "Archive cannot create polimorphic object '"
           (String.append cls_name "' ")).
Proof.
  split.
  - unfold in_ref, in_ref_polimorphic, bind.
    destruct (read dec_string a) as [cls_name a0 | e a0 | w];
      [| now left | now left].
    destruct (negb (String.eqb cls_name "oID")); [| now left].
    destruct (CallArchiveInConstructor (value bVal) (c_str cls_name) a0)
      as [[] a1 | e a1 | w]; [| now left | now left].
    cbn [gets].
    destruct (negb (Nat.eqb (CallGetRawPtr (value bVal) a1) nullptr));
      [now left |].
    right. exists cls_name, a1. split; reflexivity.
  - intros cls_name nm rest Hlen Hne Hnm Hcut Hs construct_register_read.
    pose proof (CStringFacts.c_str_cut cls_name nm Hnm Hcut) as Hcs.
    split.
    + rewrite (in_ref_new bVal a cls_name rest Hlen Hne Hs).
      rewrite new_object_run. now rewrite Hcs.
    + rewrite (in_ref_polimorphic_new bVal a cls_name rest Hlen Hne Hs).
      rewrite new_object_run. now rewrite Hcs.
Qed.

End InRef.

(** ** Embedded objects that are tracked *)

Section InObject.

Context {W : Type}.
Variable NVP_TRACK_OBJECT : Z.
Import ChArchiveInBinary.

(** C9. [in] for a custom object: when the flags of the named value
    include NVP_TRACK_OBJECT, the field reader runs on an archive in which
    the object's raw pointer is already registered (earlier registrations,
    stream and application memory being as before); when the flag is
    absent, the field reader runs on the archive as it was, the registry
    untouched. *)
Theorem in_tracked_object_registers_first
    (bVal : ChNameValue (ChFunctorArchiveIn W)) (a : t W) :
  let p := CallGetRawPtr (value bVal) a in
  let a1 :=
    with_objects_pointers
      (snd (ChArchive.PutPointer p (objects_pointers a))) a in
  (Z.land (flags bVal) NVP_TRACK_OBJECT <> 0 ->
   in_ChFunctorArchiveIn NVP_TRACK_OBJECT bVal a
   = CallArchiveIn (value bVal) a1 /\
   p ∈ objects_pointers a1 /\
   objects_pointers a `prefix_of` objects_pointers a1 /\
   istream a1 = istream a /\ world a1 = world a) /\
  (Z.land (flags bVal) NVP_TRACK_OBJECT = 0 ->
   in_ChFunctorArchiveIn NVP_TRACK_OBJECT bVal a
   = CallArchiveIn (value bVal) a).
Proof.
  intros p a1. split.
  - intros Hflag. apply Z.eqb_neq in Hflag.
    unfold in_ChFunctorArchiveIn. rewrite Hflag. cbn [negb].
    destruct (RegistryFacts.PutPointer_registered p (objects_pointers a))
      as [Hreg Hpre].
    repeat split; try assumption.
    eapply list_elem_of_lookup_2. exact Hreg.
  - intros Hflag. apply Z.eqb_eq in Hflag.
    unfold in_ChFunctorArchiveIn. rewrite Hflag. reflexivity.
Qed.

End InObject.

(** ** Round trip of object graphs *)

Module GraphFacts.

Import ChStream ChStreamFacts ChArchiveInBinary ObjectGraph.

Local Arguments enc_string : simpl never.
Local Arguments enc_size_t : simpl never.
Local Arguments enc_int : simpl never.

Lemma length_reg_of k : length (reg_of k) = k.
Proof. unfold reg_of. now rewrite length_map, length_seq. Qed.

Lemma reg_of_lookup k i : (i < k)%nat -> reg_of k !! i = Some (S i).
Proof.
  intros Hi. unfold reg_of. rewrite list_lookup_fmap.
  rewrite lookup_seq_lt by exact Hi. reflexivity.
Qed.

Lemma reg_of_lookup_Some k i p :
  reg_of k !! i = Some p -> p = S i /\ (i < k)%nat.
Proof.
  intros H. assert (Hi : (i < k)%nat).
  { apply lookup_lt_Some in H. now rewrite length_reg_of in H. }
  rewrite reg_of_lookup in H by exact Hi. split; congruence.
Qed.

Lemma reg_of_S k : reg_of (S k) = reg_of k ++ [S k].
Proof. unfold reg_of. rewrite seq_S, map_app. reflexivity. Qed.

Lemma reg_of_fresh k : S k ∉ reg_of k.
Proof.
  intros Hin. apply list_elem_of_lookup_1 in Hin as [i Hi].
  apply reg_of_lookup_Some in Hi as [Heq Hlt]. lia.
Qed.

Lemma NoDup_reg_of k : NoDup (reg_of k).
Proof.
  unfold reg_of. apply NoDup_fmap_2; [intros x y; lia | apply NoDup_seq].
Qed.

Lemma deref_Some_reg_of (h : heap) p o :
  deref h p = Some o -> p ∈ reg_of (length h).
Proof.
  destruct p as [| i]; [discriminate |]. cbn. intros H.
  apply lookup_lt_Some in H. eapply list_elem_of_lookup_2.
  now apply reg_of_lookup.
Qed.

Lemma kinds_eqb_eq ks1 ks2 : kinds_eqb ks1 ks2 = true -> ks1 = ks2.
Proof.
  revert ks2. induction ks1 as [| k1 ks1 IH]; intros [| k2 ks2] H;
    try discriminate; [reflexivity |].
  cbn in H. apply andb_true_iff in H as [Hk Hks].
  f_equal; [| now apply IH]. destruct k1, k2; try discriminate; reflexivity.
Qed.

Lemma object_ok_inv fac h o :
  object_ok fac h o = true ->
  c_str (cls o) = cls o /\
  cls o <> "oID" /\
  Z.of_nat (String.length (cls o)) < 2 ^ 64 /\
  forallb is_int (cargs o) = true /\
  forallb (value_ok h) (cargs o) = true /\
  forallb (value_ok h) (flds o) = true /\
  fac (cls o) = Some (make_layout (map kind_of (cargs o))
                                  (map kind_of (flds o))).
Proof.
  unfold object_ok. intros H.
  repeat (apply andb_true_iff in H as [H ?]).
  destruct (fac (cls o)) as [[lc lf] |]; [| discriminate].
  match goal with
  | Hk : _ && _ = true |- _ => apply andb_true_iff in Hk as [Hc Hf]
  end.
  apply kinds_eqb_eq in Hc, Hf. cbn in Hc, Hf. subst lc lf.
  repeat split; try assumption.
  - apply CStringFacts.c_str_NUL_free. now apply negb_true_iff.
  - apply String.eqb_neq. now apply negb_true_iff.
  - lia.
Qed.

Lemma related_mono Wr Wr' v v' :
  Wr `prefix_of` Wr' -> rel Wr v v' -> rel Wr' v v'.
Proof.
  intros Hpre. unfold rel, related.
  destruct v as [z | p], v' as [z' | p']; try tauto.
  intros (i & Hw & Hr). exists i.
  apply reg_of_lookup_Some in Hr as [-> Hi].
  split; [eapply prefix_lookup_Some; eassumption |].
  apply reg_of_lookup. apply prefix_length in Hpre. lia.
Qed.

Lemma Forall2_related_mono Wr Wr' vs vs' :
  Wr `prefix_of` Wr' -> Forall2 (rel Wr) vs vs' -> Forall2 (rel Wr') vs vs'.
Proof.
  intros Hpre H. eapply Forall2_impl; [exact H |].
  intros v v'. now apply related_mono.
Qed.

Section WithGraph.

Variable fac : factory.
Variable h : heap.

Lemma Winv_length a : Winv h a ->
  (length (ChArchiveOutBinary.objects_pointers a) <= length h)%nat.
Proof.
  intros (_ & Hnd & Hval).
  rewrite <- (length_reg_of (length h)).
  apply submseteq_length, NoDup_submseteq; [exact Hnd |].
  intros p Hp. rewrite Forall_forall in Hval.
  destruct (Hval p Hp) as [o Ho]. eapply deref_Some_reg_of; eassumption.
Qed.

Lemma Winv_register a p o :
  Winv h a -> deref h p = Some o ->
  p ∉ ChArchiveOutBinary.objects_pointers a ->
  Winv h (ChArchiveOutBinary.with_objects_pointers
            (ChArchiveOutBinary.objects_pointers a ++ [p]) a).
Proof.
  intros (Hw & Hnd & Hval) Ho Hp. repeat split; cbn.
  - exact Hw.
  - apply NoDup_app. repeat split; [exact Hnd | | apply NoDup_singleton].
    intros x Hx Hx'. apply list_elem_of_singleton in Hx'. now subst.
  - apply Forall_app. split; [exact Hval |].
    apply Forall_singleton. now exists o.
Qed.

Lemma append_nil (a : wstate) : ChArchiveOutBinary.append [] a = a.
Proof.
  destruct a as [o r w]. unfold ChArchiveOutBinary.append. cbn.
  now rewrite app_nil_r.
Qed.

Lemma append_append (a : wstate) bs1 bs2 :
  ChArchiveOutBinary.append bs2 (ChArchiveOutBinary.append bs1 a)
  = ChArchiveOutBinary.append (bs1 ++ bs2) a.
Proof.
  destruct a as [o r w]. unfold ChArchiveOutBinary.append. cbn.
  now rewrite app_assoc.
Qed.

Lemma write_value_int n z (a : wstate) :
  write_value n (VInt z) a = Ok tt (ChArchiveOutBinary.append (enc_int z) a).
Proof. destruct n; reflexivity. Qed.

Lemma read_value_int n z (b : rstate) rest :
  int_fits z = true ->
  istream b = enc_int z ++ rest ->
  read_value fac n KInt b = Ok (VInt z) (with_istream rest b).
Proof.
  intros Hz Hs. unfold int_fits in Hz.
  assert (Hr : ChArchiveInBinary.read dec_int b
               = Ok z (with_istream rest b)).
  { apply read_int_enc; [lia | exact Hs]. }
  destruct n; cbn [read_value]; unfold ChArchiveInBinary.in_int;
    now rewrite (bind_Ok _ _ b z _ Hr).
Qed.

(** Constructor arguments: integers only, so neither registry moves. *)
Lemma ints_round_trip n vals (a : wstate) :
  forallb is_int vals = true ->
  forallb (value_ok h) vals = true ->
  exists bs,
    iterM (write_value n) vals a = Ok tt (ChArchiveOutBinary.append bs a) /\
    forall (b : rstate) rest,
      istream b = bs ++ rest ->
      mapM (read_value fac n) (map kind_of vals) b
      = Ok vals (with_istream rest b).
Proof.
  revert a. induction vals as [| v vals IH]; intros a Hint Hok.
  - exists []. split; [cbn; now rewrite append_nil |].
    intros [ins R w] rest Hs. cbn in *. now subst.
  - cbn in Hint, Hok.
    apply andb_true_iff in Hint as [Hv Hint].
    apply andb_true_iff in Hok as [Hvok Hok].
    destruct v as [z | p]; [| discriminate]. cbn in Hvok.
    destruct (IH (ChArchiveOutBinary.append (enc_int z) a) Hint Hok)
      as (bs & Hw & Hr).
    exists (enc_int z ++ bs). split.
    + cbn [iterM]. rewrite (bind_Ok _ _ a tt _ (write_value_int n z a)).
      rewrite Hw. now rewrite append_append.
    + intros b rest Hs. rewrite <- app_assoc in Hs.
      cbn [map mapM kind_of].
      rewrite (bind_Ok _ _ b _ _ (read_value_int n z b _ Hvok Hs)).
      rewrite (bind_Ok _ _ _ _ _
                 (Hr (with_istream (bs ++ rest) b) rest eq_refl)).
      reflexivity.
Qed.

Lemma Rpost_refl Wa b rest :
  Rinv h Wa b -> istream b = rest -> Rpost h Wa Wa b b rest [] [].
Proof.
  intros HR Hs. unfold Rpost. split_and!; try done.
  intros i p o Hi Hp _. apply lookup_lt_Some in Hp. lia.
Qed.

Lemma Rpost_cons Wa Wa1 Wa2 b b1 b2 rest1 rest2 v v' vals vals' :
  Wa `prefix_of` Wa1 -> Wa1 `prefix_of` Wa2 ->
  Rpost h Wa Wa1 b b1 rest1 [v] [v'] ->
  Rpost h Wa1 Wa2 b1 b2 rest2 vals vals' ->
  Rpost h Wa Wa2 b b2 rest2 (v :: vals) (v' :: vals').
Proof.
  intros Hp1 Hp2 (Hs1 & Hl1 & HR1 & Hf1 & Hn1 & Hv1)
    (Hs2 & Hl2 & HR2 & Hf2 & Hn2 & Hv2).
  pose proof (prefix_length _ _ Hp1) as Hlen1.
  unfold Rpost. split_and!.
  - exact Hs2.
  - congruence.
  - exact HR2.
  - intros i Hi. rewrite Hf2 by lia. now apply Hf1.
  - intros i p o Hi Hp Ho.
    destruct (Nat.lt_ge_cases i (length Wa1)) as [Hlt | Hge].
    + assert (Hp' : Wa1 !! i = Some p).
      { rewrite (prefix_lookup_lt Wa1 Wa2 i Hlt Hp2). exact Hp. }
      destruct (Hn1 i p o Hi Hp' Ho) as (o' & Ho' & Hrel).
      exists o'. split; [rewrite Hf2 by exact Hlt; exact Ho' |].
      eapply Forall2_related_mono; eassumption.
    + exact (Hn2 i p o Hge Hp Ho).
  - constructor; [| exact Hv2].
    apply Forall2_cons_1 in Hv1 as [Hv1 _].
    eapply related_mono; eassumption.
Qed.

Lemma sim_list_of_value n : sim_value fac h n -> sim_list fac h n.
Proof.
  intros Hv vals. induction vals as [| v vals IH]; intros a HW Hok Hfuel.
  - exists a, []. split_and!; try done.
    + now rewrite app_nil_r.
    + intros b rest HR Hs. exists b, []. split; [reflexivity |].
      now apply Rpost_refl.
  - cbn in Hok. apply andb_true_iff in Hok as [Hvok Hok].
    destruct (Hv v a HW) as (a1 & bs1 & Hw1 & Ho1 & HW1 & Hp1 & Hr1);
      [cbn; now rewrite Hvok | exact Hfuel |].
    pose proof (prefix_length _ _ Hp1) as Hlen1.
    destruct (IH a1 HW1 Hok) as (a2 & bs2 & Hw2 & Ho2 & HW2 & Hp2 & Hr2);
      [lia |].
    exists a2, (bs1 ++ bs2). split_and!; try done.
    + cbn [iterM]. now rewrite (bind_Ok _ _ a tt a1 Hw1).
    + rewrite Ho2, Ho1. now rewrite app_assoc.
    + etransitivity; eassumption.
    + intros b rest HR Hs. rewrite <- app_assoc in Hs.
      destruct (Hr1 b _ HR Hs) as (b1 & v' & Hrd1 & Hpost1).
      destruct (Hr2 b1 rest) as (b2 & vals' & Hrd2 & Hpost2).
      { apply Hpost1. }
      { apply Hpost1. }
      exists b2, (v' :: vals'). split.
      * cbn [map mapM]. rewrite (bind_Ok _ _ b v' b1 Hrd1).
        now rewrite (bind_Ok _ _ b1 vals' b2 Hrd2).
      * eapply Rpost_cons; eassumption.
Qed.

Hypothesis Hsize : Z.of_nat (length h) < 2 ^ 64.
Hypothesis Hobjs : forallb (object_ok fac h) h = true.

Lemma deref_object_ok p o : deref h p = Some o -> object_ok fac h o = true.
Proof.
  destruct p as [| i]; [discriminate |]. cbn. intros Hi.
  rewrite forallb_forall in Hobjs. apply Hobjs.
  apply list_elem_of_In. eapply list_elem_of_lookup_2. exact Hi.
Qed.

Lemma Rpost_same Wa (b b' : rstate) rest vals vals' :
  Rinv h Wa b ->
  objects_pointers b' = objects_pointers b ->
  world b' = world b ->
  istream b' = rest ->
  Forall2 (rel Wa) vals vals' ->
  Rpost h Wa Wa b b' rest vals vals'.
Proof.
  intros (HR1 & HR2 & HR3) Hreg Hw Hs Hrel. unfold Rpost, Rinv.
  rewrite Hreg, Hw. split_and!; try done.
  intros i p o Hi Hp _. apply lookup_lt_Some in Hp. lia.
Qed.

Lemma write_ref_old n p o i (a : wstate) :
  ChArchiveOutBinary.world a = h ->
  deref h p = Some o ->
  ChArchive.PutPointer p (ChArchiveOutBinary.objects_pointers a)
  = (true, i, ChArchiveOutBinary.objects_pointers a) ->
  write_value (S n) (VRef p) a
  = Ok tt (ChArchiveOutBinary.append
             (enc_string "oID" ++ enc_size_t (Z.of_nat i)) a).
Proof.
  intros Hw Ho HP. cbn [write_value].
  assert (Hget : get_object p a = Ok o a).
  { unfold get_object. now rewrite Hw, Ho. }
  rewrite (bind_Ok _ _ a o a Hget).
  assert (Hput : ChArchiveOutBinary.PutPointer p a = Ok (true, i) a).
  { unfold ChArchiveOutBinary.PutPointer. rewrite HP. cbn.
    now destruct a. }
  rewrite (bind_Ok _ _ a _ a Hput). cbn [fst snd].
  unfold ChArchiveOutBinary.out_ref_polimorphic. cbn [negb].
  destruct a as [o0 r w]. unfold bind, ChArchiveOutBinary.write, modify,
    ChArchiveOutBinary.append. cbn. now rewrite <- app_assoc.
Qed.

Lemma read_ref_old n i (b : rstate) rest :
  (i < length (objects_pointers b))%nat ->
  objects_pointers b = reg_of (length (objects_pointers b)) ->
  Z.of_nat i < 2 ^ 64 ->
  istream b = (enc_string "oID" ++ enc_size_t (Z.of_nat i)) ++ rest ->
  read_value fac (S n) KRef b = Ok (VRef (S i)) (with_istream rest b).
Proof.
  intros Hi HR Hi64 Hs. destruct b as [ib R [os L]].
  cbn [istream objects_pointers world] in *. cbn [read_value].
  rewrite (bind_Ok _ _ _ tt
             (ChArchiveInBinary.mk ib R (make_rworld os (nullptr :: L))))
    by reflexivity.
  rewrite <- app_assoc in Hs.
  rewrite (bind_Ok _ _ _ tt
             (ChArchiveInBinary.mk rest R (make_rworld os (S i :: L)))).
  - reflexivity.
  - rewrite (in_ref_polimorphic_oID _ _ (enc_size_t (Z.of_nat i) ++ rest))
      by exact Hs.
    rewrite (bind_Ok _ _ _ _ _
               (read_size_t_enc
                  (with_istream (enc_size_t (Z.of_nat i) ++ rest) _)
                  (Z.of_nat i) rest ltac:(lia) eq_refl)).
    assert (Hl : R !! i = Some (S i)).
    { rewrite HR. apply reg_of_lookup. exact Hi. }
    unfold bind, subscript. cbn. rewrite Nat2Z.id, Hl.
    reflexivity.
Qed.

Lemma write_ref_new n p o (a : wstate) :
  ChArchiveOutBinary.world a = h ->
  deref h p = Some o ->
  p ∉ ChArchiveOutBinary.objects_pointers a ->
  write_value (S n) (VRef p) a
  = (iterM (write_value n) (cargs o) ;; iterM (write_value n) (flds o))
      (ChArchiveOutBinary.append (enc_string (cls o))
         (ChArchiveOutBinary.with_objects_pointers
            (ChArchiveOutBinary.objects_pointers a ++ [p]) a)).
Proof.
  intros Hw Ho Hp. cbn [write_value].
  assert (Hget : get_object p a = Ok o a).
  { unfold get_object. now rewrite Hw, Ho. }
  rewrite (bind_Ok _ _ a o a Hget).
  assert (Hput : ChArchiveOutBinary.PutPointer p a
                 = Ok (false, length (ChArchiveOutBinary.objects_pointers a))
                     (ChArchiveOutBinary.with_objects_pointers
                        (ChArchiveOutBinary.objects_pointers a ++ [p]) a)).
  { unfold ChArchiveOutBinary.PutPointer.
    now rewrite (RegistryFacts.PutPointer_fresh p _ Hp). }
  rewrite (bind_Ok _ _ a _ _ Hput). cbn [fst snd].
  unfold ChArchiveOutBinary.out_ref_polimorphic. cbn [negb].
  destruct (object_ok_inv fac h o (deref_object_ok p o Ho)) as [-> _].
  reflexivity.
Qed.

Lemma read_ref_new n ib R os L c l cvals rest1 rest2 :
  c_str c = c ->
  c <> "oID" ->
  Z.of_nat (String.length c) < 2 ^ 64 ->
  fac c = Some l ->
  ib = enc_string c ++ rest1 ->
  mapM (read_value fac n) (l_cargs l)
    (ChArchiveInBinary.mk rest1 R (make_rworld os (nullptr :: L)))
  = Ok cvals (ChArchiveInBinary.mk rest2 R (make_rworld os (nullptr :: L))) ->
  S (length os) ∉ R ->
  read_value fac (S n) KRef (ChArchiveInBinary.mk ib R (make_rworld os L))
  = (vs <- mapM (read_value fac n) (l_flds l) ;;
     set_flds (S (length os)) vs ;;
     p <- pop_local ;;
     ret (VRef p))
      (ChArchiveInBinary.mk rest2 (R ++ [S (length os)])
         (make_rworld (os ++ [make_object c cvals []])
            (S (length os) :: L))).
Proof.
  intros Hcs Hne Hlen Hfac Hs Hc Hfresh. cbn [read_value].
  set (p' := S (length os)).
  set (o' := make_object c cvals []).
  rewrite (bind_Ok _ _ _ tt
             (ChArchiveInBinary.mk ib R (make_rworld os (nullptr :: L))))
    by reflexivity.
  rewrite (bind_run_eq _ _ _ _ _
             (in_ref_polimorphic_new _
                (ChArchiveInBinary.mk ib R (make_rworld os (nullptr :: L)))
                c rest1 Hlen Hne Hs)).
  cbn [value CallArchiveInConstructor functor_in].
  rewrite Hcs, Hfac.
  change (with_istream rest1 _)
    with (ChArchiveInBinary.mk rest1 R (make_rworld os (nullptr :: L))).
  rewrite ?bind_assoc. rewrite (bind_Ok _ _ _ _ _ Hc).
  rewrite ?bind_assoc.
  rewrite (bind_Ok _ _ _ p'
             (ChArchiveInBinary.mk rest2 R
                (make_rworld (os ++ [o']) (nullptr :: L))))
    by reflexivity.
  rewrite ?bind_assoc.
  rewrite (bind_Ok _ _ _ tt
             (ChArchiveInBinary.mk rest2 R
                (make_rworld (os ++ [o']) (p' :: L))))
    by reflexivity.
  rewrite ?bind_assoc.
  rewrite (bind_Ok _ _ _ p'
             (ChArchiveInBinary.mk rest2 R
                (make_rworld (os ++ [o']) (p' :: L))))
    by reflexivity.
  cbn [Nat.eqb negb nullptr p'].
  rewrite ?bind_assoc.
  rewrite (bind_Ok _ _ _ p'
             (ChArchiveInBinary.mk rest2 R
                (make_rworld (os ++ [o']) (p' :: L))))
    by reflexivity.
  rewrite ?bind_assoc.
  rewrite (bind_Ok _ _ _ (false, length R)
             (ChArchiveInBinary.mk rest2 (R ++ [p'])
                (make_rworld (os ++ [o']) (p' :: L)))).
  2:{ unfold PutPointer. cbn [objects_pointers].
      now rewrite (RegistryFacts.PutPointer_fresh p' R Hfresh). }
  cbn [CallArchiveIn functor_in].
  rewrite ?bind_assoc.
  rewrite (bind_Ok _ _ _ p'
             (ChArchiveInBinary.mk rest2 (R ++ [p'])
                (make_rworld (os ++ [o']) (p' :: L))))
    by reflexivity.
  rewrite ?bind_assoc.
  rewrite (bind_Ok _ _ _ o'
             (ChArchiveInBinary.mk rest2 (R ++ [p'])
                (make_rworld (os ++ [o']) (p' :: L)))).
  2:{ unfold get_robject, p'. cbn [world objs deref].
      rewrite lookup_app_r by lia. now rewrite Nat.sub_diag. }
  cbn [cls o']. rewrite Hfac. rewrite ?bind_assoc. reflexivity.
Qed.

Lemma Winv_append a bs : Winv h a -> Winv h (ChArchiveOutBinary.append bs a).
Proof. intros (H1 & H2 & H3). now split_and!. Qed.

Lemma sim_value_int n z : sim_core h n (write_value n (VInt z))
    (read_value fac n KInt) [VInt z] (fun v' => [v']).
Proof.
  intros a HW Hok Hfuel. cbn in Hok. rewrite andb_true_r in Hok.
  exists (ChArchiveOutBinary.append (enc_int z) a), (enc_int z).
  split_and!.
  - apply write_value_int.
  - reflexivity.
  - now apply Winv_append.
  - reflexivity.
  - intros b rest HR Hs. exists (with_istream rest b), (VInt z). split.
    + now apply read_value_int.
    + apply Rpost_same; try done. now repeat constructor.
Qed.

Lemma sim_value_old n p o i (a : wstate) :
  Winv h a -> deref h p = Some o ->
  ChArchiveOutBinary.objects_pointers a !! i = Some p ->
  ChArchive.PutPointer p (ChArchiveOutBinary.objects_pointers a)
  = (true, i, ChArchiveOutBinary.objects_pointers a) ->
  exists a' bs,
    write_value (S n) (VRef p) a = Ok tt a' /\
    ChArchiveOutBinary.ostream a' = ChArchiveOutBinary.ostream a ++ bs /\
    Winv h a' /\
    ChArchiveOutBinary.objects_pointers a
      `prefix_of` ChArchiveOutBinary.objects_pointers a' /\
    forall b rest,
      Rinv h (ChArchiveOutBinary.objects_pointers a) b ->
      istream b = bs ++ rest ->
      exists b' c,
        read_value fac (S n) KRef b = Ok c b' /\
        Rpost h (ChArchiveOutBinary.objects_pointers a)
          (ChArchiveOutBinary.objects_pointers a') b b' rest [VRef p] [c].
Proof.
  intros HW Ho Hi HP.
  pose proof (Winv_length a HW) as HWlen.
  pose proof (lookup_lt_Some _ _ _ Hi) as Hilt.
  exists (ChArchiveOutBinary.append
            (enc_string "oID" ++ enc_size_t (Z.of_nat i)) a),
    (enc_string "oID" ++ enc_size_t (Z.of_nat i)).
  split_and!.
  - eapply write_ref_old; try eassumption. apply HW.
  - reflexivity.
  - now apply Winv_append.
  - reflexivity.
  - intros b rest HR Hs. exists (with_istream rest b), (VRef (S i)).
    pose proof HR as (HR1 & HR2 & HR3). split.
    + apply read_ref_old; try assumption.
      * rewrite HR1, length_reg_of. exact Hilt.
      * rewrite HR1 at 1. now rewrite HR1, length_reg_of.
      * lia.
    + apply Rpost_same; try done.
      constructor; [| constructor]. exists i. split; [exact Hi |].
      now apply reg_of_lookup.
Qed.

Lemma sim_value_new n p o (a : wstate) :
  sim_list fac h n ->
  Winv h a -> deref h p = Some o ->
  p ∉ ChArchiveOutBinary.objects_pointers a ->
  (length h - length (ChArchiveOutBinary.objects_pointers a) < S n)%nat ->
  exists a' bs,
    write_value (S n) (VRef p) a = Ok tt a' /\
    ChArchiveOutBinary.ostream a' = ChArchiveOutBinary.ostream a ++ bs /\
    Winv h a' /\
    ChArchiveOutBinary.objects_pointers a
      `prefix_of` ChArchiveOutBinary.objects_pointers a' /\
    forall b rest,
      Rinv h (ChArchiveOutBinary.objects_pointers a) b ->
      istream b = bs ++ rest ->
      exists b' c,
        read_value fac (S n) KRef b = Ok c b' /\
        Rpost h (ChArchiveOutBinary.objects_pointers a)
          (ChArchiveOutBinary.objects_pointers a') b b' rest [VRef p] [c].
Proof.
  intros IH HW Ho Hfresh Hfuel.
  pose proof (deref_object_ok p o Ho) as Hobj.
  apply object_ok_inv in Hobj as (Hcs & Hne & Hlen & Hci & Hcok & Hfok & Hfac).
  set (Wa := ChArchiveOutBinary.objects_pointers a) in *.
  set (a1 := ChArchiveOutBinary.append (enc_string (cls o))
               (ChArchiveOutBinary.with_objects_pointers (Wa ++ [p]) a)).
  destruct (ints_round_trip n (cargs o) a1 Hci Hcok) as (cbs & Hcw & Hcr).
  set (a2 := ChArchiveOutBinary.append cbs a1) in *.
  assert (HW2 : Winv h a2).
  { do 2 apply Winv_append. now apply (Winv_register a p o). }
  assert (HWa2 : ChArchiveOutBinary.objects_pointers a2 = Wa ++ [p])
    by reflexivity.
  pose proof (Winv_length a2 HW2) as Hlen2.
  rewrite HWa2, length_app in Hlen2. cbn [length] in Hlen2.
  destruct (IH (flds o) a2 HW2 Hfok)
    as (a3 & fbs & Hfw & Hfo & HW3 & Hp3 & Hfr).
  { rewrite HWa2, length_app. cbn [length]. lia. }
  set (Wa3 := ChArchiveOutBinary.objects_pointers a3) in *.
  rewrite HWa2 in Hp3, Hfr.
  assert (HpreW : Wa `prefix_of` Wa3).
  { etransitivity; [| exact Hp3]. now apply prefix_app_r. }
  assert (Hp_at : Wa3 !! length Wa = Some p).
  { eapply prefix_lookup_Some; [| exact Hp3].
    rewrite lookup_app_r by lia. now rewrite Nat.sub_diag. }
  exists a3, (enc_string (cls o) ++ cbs ++ fbs). split_and!.
  - rewrite (write_ref_new n p o a (proj1 HW) Ho Hfresh). fold Wa a1.
    now rewrite (bind_Ok _ _ _ _ _ Hcw).
  - rewrite Hfo. destruct a as [os0 r0 w0]. cbn. now rewrite <- !app_assoc.
  - exact HW3.
  - exact HpreW.
  - fold Wa Wa3. intros b rest HR Hs. destruct b as [ib R [os L]].
    destruct HR as (HR1 & HR2 & HR3).
    cbn [istream objects_pointers world objs] in HR1, HR2, HR3, Hs.
    set (p' := S (length os)).
    set (o' := make_object (cls o) (cargs o) []).
    set (b3 := ChArchiveInBinary.mk (fbs ++ rest) (R ++ [p'])
                 (make_rworld (os ++ [o']) (p' :: L))).
    assert (HR3' : Rinv h (Wa ++ [p]) b3).
    { unfold Rinv. cbn [objects_pointers world objs b3].
      rewrite !length_app. cbn [length]. split_and!.
      - rewrite Nat.add_1_r, reg_of_S. unfold p'. now rewrite HR1, HR2.
      - lia.
      - intros i q oq Hq Hoq.
        destruct (Nat.lt_ge_cases i (length Wa)) as [Hlt | Hge].
        + rewrite lookup_app_l in Hq by exact Hlt.
          rewrite lookup_app_l by lia. now apply (HR3 i q oq).
        + assert (i = length Wa) as ->.
          { apply lookup_lt_Some in Hq. rewrite length_app in Hq.
            cbn [length] in Hq. lia. }
          rewrite lookup_app_r in Hq by lia.
          rewrite Nat.sub_diag in Hq. cbn in Hq.
          assert (q = p) as -> by congruence.
          assert (oq = o) as -> by congruence.
          exists o'. rewrite lookup_app_r by lia.
          rewrite <- HR2, Nat.sub_diag. now split_and!. }
    destruct (Hfr b3 rest HR3' eq_refl) as (b4 & vals' & Hrd & Hpost).
    destruct b4 as [ib4 R4 [os4 L4]].
    destruct Hpost as (Hs4 & Hl4 & HR4 & Hf4 & Hn4 & Hv4).
    cbn [istream objects_pointers world objs locals b3] in Hs4, Hl4, Hf4, Hn4.
    subst ib4 L4.
    set (os5 := alter (fun x => make_object (cls x) (cargs x) vals')
                  (length os) os4).
    exists (ChArchiveInBinary.mk rest R4 (make_rworld os5 L)), (VRef p').
    assert (Hnew4 : os4 !! length os = Some o').
    { rewrite Hf4 by (rewrite length_app; cbn [length]; lia).
      rewrite lookup_app_r by lia. now rewrite Nat.sub_diag. }
    split.
    + rewrite (read_ref_new n ib R os L (cls o) _ (cargs o)
                 (cbs ++ fbs ++ rest) (fbs ++ rest) Hcs Hne Hlen Hfac).
      * cbn [l_flds]. fold p' o' b3.
        rewrite (bind_Ok _ _ _ _ _ Hrd). reflexivity.
      * rewrite Hs. now rewrite <- !app_assoc.
      * exact (Hcr (ChArchiveInBinary.mk (cbs ++ fbs ++ rest) R
                      (make_rworld os (nullptr :: L))) (fbs ++ rest) eq_refl).
      * rewrite HR1, HR2. apply reg_of_fresh.
    + destruct HR4 as (HR41 & HR42 & HR43).
      cbn [istream objects_pointers world objs] in HR41, HR42, HR43.
      unfold Rpost, Rinv.
      cbn [istream objects_pointers world objs locals].
      split_and!.
      * reflexivity.
      * reflexivity.
      * exact HR41.
      * unfold os5. now rewrite length_alter.
      * intros i q oq Hq Hoq.
        destruct (HR43 i q oq Hq Hoq) as (x & Hx & Hxc & Hxa).
        unfold os5. destruct (decide (i = length os)) as [-> | Hneq].
        -- rewrite list_lookup_alter_eq, Hx. cbn.
           eexists. split; [reflexivity |]. now split.
        -- rewrite list_lookup_alter_ne by congruence. now exists x.
      * intros i Hi. unfold os5.
        rewrite list_lookup_alter_ne by lia.
        rewrite Hf4 by (rewrite length_app; cbn [length]; lia).
        apply lookup_app_l. lia.
      * intros i q oq Hi Hq Hoq. unfold os5.
        destruct (decide (i = length os)) as [-> | Hneq].
        -- rewrite <- HR2 in Hp_at.
           assert (q = p) as -> by congruence.
           assert (oq = o) as -> by congruence.
           rewrite list_lookup_alter_eq, Hnew4. cbn.
           eexists. split; [reflexivity |]. exact Hv4.
        -- rewrite list_lookup_alter_ne by congruence.
           apply (Hn4 i q oq); try assumption.
           rewrite length_app. cbn [length]. lia.
      * constructor; [| constructor]. exists (length Wa). split.
        -- exact Hp_at.
        -- unfold p'. rewrite HR2. apply reg_of_lookup.
           eapply lookup_lt_Some. exact Hp_at.
Qed.

Lemma sim_value_S n : sim_list fac h n -> sim_value fac h (S n).
Proof.
  intros IH [z | p].
  - apply sim_value_int.
  - intros a HW Hok Hfuel. cbn in Hok.
    destruct (deref h p) as [o |] eqn:Ho; [| discriminate].
    destruct (RegistryFacts.PutPointer_cases p
                (ChArchiveOutBinary.objects_pointers a))
      as [(i & Hi & HP) | (Hfresh & HP)].
    + now apply (sim_value_old n p o i a).
    + now apply (sim_value_new n p o a).
Qed.

Lemma sim_value_O : sim_value fac h 0.
Proof. intros v a _ _ Hfuel. lia. Qed.

Lemma sim_list_all n : sim_list fac h n.
Proof.
  induction n as [| n IH].
  - apply sim_list_of_value, sim_value_O.
  - apply sim_list_of_value, sim_value_S, IH.
Qed.

End WithGraph.

Lemma related_ints Wr Rd vs :
  forallb is_int vs = true -> Forall2 (related Wr Rd) vs vs.
Proof.
  induction vs as [| v vs IH]; intros H; [constructor |].
  cbn in H. apply andb_true_iff in H as [Hv Hvs].
  constructor; [| now apply IH]. destruct v; [reflexivity | discriminate].
Qed.

(** One written object has one reconstruction, and one reconstruction
    stands for one written object. *)
Lemma related_functional Wr Rd x p1 p2 :
  NoDup Wr ->
  related Wr Rd (VRef x) (VRef p1) -> related Wr Rd (VRef x) (VRef p2) ->
  p1 = p2.
Proof.
  intros Hnd (n1 & Hw1 & Hr1) (n2 & Hw2 & Hr2).
  assert (n1 = n2) as -> by (eapply NoDup_lookup; eassumption).
  congruence.
Qed.

Lemma related_injective Wr Rd x1 x2 p :
  NoDup Rd ->
  related Wr Rd (VRef x1) (VRef p) -> related Wr Rd (VRef x2) (VRef p) ->
  x1 = x2.
Proof.
  intros Hnd (n1 & Hw1 & Hr1) (n2 & Hw2 & Hr2).
  assert (n1 = n2) as -> by (eapply NoDup_lookup; eassumption).
  congruence.
Qed.

(** C1 (as the code has it). Take an object graph of integer fields and
    polymorphic pointer fields in which every pointer field and every
    root field points to an object of the graph (none is null or
    dangling), every class is registered in the factory with the layout
    of its objects under a name other than "oID" (a C string, so without
    NUL), and no constructor-argument payload holds a pointer. Writing the
    fields [roots] and reading the bytes back succeeds and consumes the
    whole stream; the reader constructs exactly one instance per object
    the writer registered; for every n the object registered at ID n
    while reading is the reconstruction of the object given ID n while
    writing; every pointer field reads back as the pointer to the
    reconstruction of its target, so that two fields that held the same
    object hold the same instance again, and fields that held different
    objects hold different instances. *)
Theorem graph_round_trip (fac : factory) (h : heap) (roots : list val) :
  graph_ok fac h roots = true ->
  exists bs Wr roots' Rd h',
    serialize (S (length h)) h roots
    = Ok tt (ChArchiveOutBinary.mk bs Wr h) /\
    deserialize fac (S (length h)) (map kind_of roots) bs
    = Ok roots' (ChArchiveInBinary.mk [] Rd (make_rworld h' [])) /\
    NoDup Wr /\ NoDup Rd /\
    length Rd = length Wr /\ length h' = length Wr /\
    Forall2 (related Wr Rd) roots roots' /\
    (forall n p,
       Wr !! n = Some p ->
       exists p' o o',
         Rd !! n = Some p' /\ deref h p = Some o /\ deref h' p' = Some o' /\
         reconstructs Wr Rd o o') /\
    (forall x p1 p2,
       related Wr Rd (VRef x) (VRef p1) ->
       related Wr Rd (VRef x) (VRef p2) -> p1 = p2) /\
    (forall x1 x2 p,
       related Wr Rd (VRef x1) (VRef p) ->
       related Wr Rd (VRef x2) (VRef p) -> x1 = x2).
Proof.
  intros Hok. unfold graph_ok in Hok.
  apply andb_true_iff in Hok as [Hok Hroots].
  apply andb_true_iff in Hok as [Hsize Hobjs].
  apply Z.ltb_lt in Hsize.
  set (a0 := ChArchiveOutBinary.mk [] [] h).
  assert (HW0 : Winv h a0).
  { unfold Winv. cbn. split_and!; [reflexivity | constructor | constructor]. }
  destruct (sim_list_all fac h Hsize Hobjs (S (length h)) roots a0 HW0 Hroots)
    as (a' & bs & Hw & Hos & HW' & _ & Hrd).
  { cbn. lia. }
  destruct a' as [os' Wr h0]. cbn in Hos. subst os'.
  pose proof HW' as (Hh0 & HndW & HvalW). cbn in Hh0, HndW, HvalW. subst h0.
  set (b0 := ChArchiveInBinary.mk bs [] (make_rworld [] [])).
  destruct (Hrd b0 []) as (b' & roots' & Hr & Hpost).
  { unfold Rinv. cbn. split_and!; [reflexivity | reflexivity |].
    intros i p o Hi. discriminate. }
  { cbn. now rewrite app_nil_r. }
  destruct b' as [ib' Rd [h' L']].
  destruct Hpost as (Hs' & Hl' & (HR1 & HR2 & HR3) & _ & Hnew & Hrel).
  cbn in Hs', Hl', HR1, HR2, HR3, Hnew, Hrel. subst ib' L' Rd.
  exists bs, Wr, roots', (reg_of (length Wr)), h'.
  split_and!; try assumption.
  - apply NoDup_reg_of.
  - apply length_reg_of.
  - intros n p Hp.
    rewrite Forall_forall in HvalW.
    destruct (HvalW p) as [o Ho]; [eapply list_elem_of_lookup_2; exact Hp |].
    destruct (HR3 n p o Hp Ho) as (o' & Ho' & Hcls & Hca).
    destruct (Hnew n p o (Nat.le_0_l n) Hp Ho) as (o'' & Ho'' & Hfl).
    assert (o'' = o') as -> by congruence.
    exists (S n), o, o'. split_and!; try assumption.
    + apply reg_of_lookup. eapply lookup_lt_Some. exact Hp.
    + unfold reconstructs. split_and!; [exact Hcls | | exact Hfl].
      rewrite Hca. apply related_ints.
      pose proof (deref_object_ok fac h Hobjs p o Ho) as Hobj.
      now apply object_ok_inv in Hobj as (_ & _ & _ & Hci & _).
  - intros x p1 p2. now apply related_functional.
  - intros x1 x2 p. apply related_injective, NoDup_reg_of.
Qed.

End GraphFacts.

(** ** The sentinel as a class name *)

Section Sentinel.

Context {W W' : Type}.
Import ChStream.

Lemma read_size_t_short (b : ChArchiveInBinary.t W') :
  (length (ChArchiveInBinary.istream b) < 8)%nat ->
  ChArchiveInBinary.read dec_size_t b = Throw StreamError b.
Proof.
  intros Hlen. unfold ChArchiveInBinary.read, dec_size_t, dec_unsigned,
    take_bytes.
  now rewrite decide_False by lia.
Qed.

(** C6 (as the code has it). A first-time object whose class is
    registered under the name "oID" is written by [out_ref_polimorphic] as
    the string "oID" followed by its constructor-argument and field
    payloads. [in_ref_polimorphic], started at the place of the stream
    where that write began, takes the back-reference branch: it reads the
    next eight bytes of the payload as an ID and hands the pointer
    registered there to the field's setter (an ID with nothing registered
    is subscripted all the same, a payload shorter than eight bytes is a
    stream error); in no case does the constructor callback or the field
    reader run. Every string other than "oID" is taken for a class name,
    never for a back-reference: it goes to the constructor callback as a
    C string (what stands before its first NUL, the whole string when it
    has none). *)
Theorem sentinel_named_class_read_as_back_reference
    (bVal : ChNameValue (ChArchiveOutBinary.ChFunctorArchiveOut W))
    (g : ChNameValue (ChArchiveInBinary.ChFunctorArchiveIn W'))
    (obj_ID : Z) (a a1 a2 : ChArchiveOutBinary.t W) (c f : list byte) :
  let s0 :=
    ChArchiveOutBinary.mk (ChArchiveOutBinary.ostream a ++ enc_string "oID")
      (ChArchiveOutBinary.objects_pointers a) (ChArchiveOutBinary.world a) in
  ChArchiveOutBinary.CallArchiveOutConstructor (value bVal) s0 = Ok tt a1 ->
  ChArchiveOutBinary.ostream a1 = ChArchiveOutBinary.ostream s0 ++ c ->
  ChArchiveOutBinary.CallArchiveOut (value bVal) a1 = Ok tt a2 ->
  ChArchiveOutBinary.ostream a2 = ChArchiveOutBinary.ostream a1 ++ f ->
  ChArchiveOutBinary.out_ref_polimorphic bVal false obj_ID "oID" a
  = Ok tt a2 /\
  ChArchiveOutBinary.ostream a2
  = ChArchiveOutBinary.ostream a ++ enc_string "oID" ++ c ++ f /\
  (forall (b : ChArchiveInBinary.t W') rest,
     ChArchiveOutBinary.ostream a ++ ChArchiveInBinary.istream b
     = ChArchiveOutBinary.ostream a2 ++ rest ->
     (forall id rest',
        c ++ f ++ rest = enc_size_t id ++ rest' ->
        0 <= id < 2 ^ 64 ->
        ChArchiveInBinary.in_ref_polimorphic g b
        = match ChArchiveInBinary.objects_pointers b !! Z.to_nat id with
          | Some p =>
              ChArchiveInBinary.CallSetRawPtr (value g) p
                (ChArchiveInBinary.mk rest'
                   (ChArchiveInBinary.objects_pointers b)
                   (ChArchiveInBinary.world b))
          | None => Stuck OutOfRange
          end) /\
     ((length (c ++ f ++ rest) < 8)%nat ->
      ChArchiveInBinary.in_ref_polimorphic g b
      = Throw StreamError
          (ChArchiveInBinary.mk (c ++ f ++ rest)
             (ChArchiveInBinary.objects_pointers b)
             (ChArchiveInBinary.world b)))) /\
  (forall cls_name nm (b : ChArchiveInBinary.t W') rest,
     cls_name <> "oID" ->
     Z.of_nat (String.length cls_name) < 2 ^ 64 ->
     existsb (fun c => Ascii.eqb c zero) (list_ascii_of_string nm) = false ->
     cls_name = nm \/
       (exists post, cls_name = String.append nm (String zero post)) ->
     ChArchiveInBinary.istream b = enc_string cls_name ++ rest ->
     ChArchiveInBinary.in_ref_polimorphic g b
     = match ChArchiveInBinary.CallArchiveInConstructor (value g) nm
               (ChArchiveInBinary.mk rest
                  (ChArchiveInBinary.objects_pointers b)
                  (ChArchiveInBinary.world b)) with
       | Ok _ b1 =>
           let p := ChArchiveInBinary.CallGetRawPtr (value g) b1 in
           let R := ChArchiveInBinary.objects_pointers b1 in
           if Nat.eqb p nullptr then
             Throw (ChExceptionArchive
                      (String.append
                         "Archive cannot create polimorphic object '"
                         (String.append cls_name "' "))) b1
           else ChArchiveInBinary.CallArchiveIn (value g)
                  (ChArchiveInBinary.mk (ChArchiveInBinary.istream b1)
                     (if existsb (Nat.eqb p) R then R else R ++ [p])
                     (ChArchiveInBinary.world b1))
       | Throw e b1 => Throw e b1
       | Stuck w => Stuck w
       end).
Proof.
  intros s0 Hc Hs1 Hf Hs2.
  destruct (out_ref_polimorphic_stream bVal obj_ID "oID" a a1 a2 c f
              Hc Hs1 Hf Hs2) as [Hw Hs].
  change (c_str "oID") with "oID" in Hs.
  split_and!; try assumption.
  - intros b rest Hb. rewrite Hs in Hb. rewrite <- !app_assoc in Hb.
    apply app_inv_head in Hb.
    pose proof (in_ref_polimorphic_oID g b _ Hb) as Hrun.
    split.
    + intros id rest' Hpay Hid. rewrite Hrun.
      assert (Hrest : ChArchiveInBinary.istream
                        (ChArchiveInBinary.with_istream (c ++ f ++ rest) b)
                      = enc_size_t id ++ rest') by exact Hpay.
      rewrite (bind_Ok _ _ _ _ _ (read_size_t_enc _ id rest' Hid Hrest)).
      unfold bind, ChArchiveInBinary.subscript. cbn.
      now destruct (_ !! _).
    + intros Hshort. rewrite Hrun. unfold bind at 1.
      now rewrite read_size_t_short by exact Hshort.
  - intros cls_name nm b rest Hne Hlen Hnm Hcut Hb.
    rewrite (in_ref_polimorphic_new g b cls_name rest Hlen Hne Hb).
    rewrite new_object_run.
    now rewrite (CStringFacts.c_str_cut cls_name nm Hnm Hcut).
Qed.

End Sentinel.

(** ** Concrete runs *)

Module Runs.

Import ChStream ObjectGraph Samples.

(** C1, as stated, fails. The object at address 1 holds a pointer among
    its constructor arguments and is the target of two fields. Writing
    gives it ID 0 and its argument ID 1; reading registers the argument
    first, so ID 0 is the argument, and the second field, written as a
    back-reference to ID 0, reads back as a pointer to the argument: the
    two fields no longer hold the same instance. *)
Lemma pointer_in_constructor_arguments_breaks_identity :
  exists bs,
    serialize 3 holder [VRef 1%nat; VRef 1%nat]
    = Ok tt (ChArchiveOutBinary.mk bs [1%nat; 2%nat] holder) /\
    deserialize fac 3 [KRef; KRef] bs
    = Ok [VRef 2%nat; VRef 1%nat]
        (ChArchiveInBinary.mk [] [1%nat; 2%nat]
           (make_rworld
              [ make_object "Shared" [VInt 1] [VInt 2];
                make_object "Holder" [VRef 1%nat] [] ] [])) /\
    ~ (exists p b',
         deserialize fac 3 [KRef; KRef] bs = Ok [VRef p; VRef p] b').
Proof.
  eexists. split_and!; [vm_compute; reflexivity | vm_compute; reflexivity |].
  intros (p & b' & H). vm_compute in H. congruence.
Qed.

(** C5, as stated, fails: "oID" followed by the ID 7 with nothing
    registered raises no exception, in either method. *)
Lemma dangling_id_raises_no_error :
  let b := reader (enc_string "oID" ++ enc_size_t 7) [] [] in
  ~ (exists e b', ChArchiveInBinary.in_ref_polimorphic ptr_functor b
                  = Throw e b') /\
  ~ (exists e b', ChArchiveInBinary.in_ref ptr_functor b = Throw e b') /\
  ChArchiveInBinary.in_ref_polimorphic ptr_functor b = Stuck OutOfRange /\
  ChArchiveInBinary.in_ref ptr_functor b = Stuck OutOfRange.
Proof.
  assert (H1 : ChArchiveInBinary.in_ref_polimorphic ptr_functor
                 (reader (enc_string "oID" ++ enc_size_t 7) [] [])
               = Stuck OutOfRange) by (vm_compute; reflexivity).
  assert (H2 : ChArchiveInBinary.in_ref ptr_functor
                 (reader (enc_string "oID" ++ enc_size_t 7) [] [])
               = Stuck OutOfRange) by (vm_compute; reflexivity).
  cbv zeta. split_and!; try assumption.
  - intros (e & b' & H). rewrite H1 in H. discriminate.
  - intros (e & b' & H). rewrite H2 in H. discriminate.
Qed.

(** C6, as stated, fails. An object of the class registered as "oID" is
    written first-time by [out_ref_polimorphic]; [in_ref_polimorphic] reads
    the bytes back in an archive that has one object registered. It takes
    the envelope for a back-reference: the read succeeds, the pointer
    variable ends up at the object registered before, and no instance of the
    class "oID" exists afterwards. *)
Lemma sentinel_named_class_is_not_reconstructed :
  exists bs b',
    ChArchiveOutBinary.out_ref_polimorphic
      (obj_functor (make_object "oID" [] [VInt 0; VInt 0])) false 0 "oID"
      (writer sentinel_named)
    = Ok tt (ChArchiveOutBinary.mk bs [] sentinel_named) /\
    ChArchiveInBinary.in_ref_polimorphic ptr_functor
      (reader bs [1%nat] [make_object "Shared" [VInt 1] [VInt 2]])
    = Ok tt b' /\
    top_local b' = 1%nat /\
    objs (ChArchiveInBinary.world b')
    = [make_object "Shared" [VInt 1] [VInt 2]] /\
    ~ (exists o, o ∈ objs (ChArchiveInBinary.world b') /\ cls o = "oID").
Proof.
  eexists. eexists.
  split_and!; [vm_compute; reflexivity | vm_compute; reflexivity
              | reflexivity | reflexivity |].
  intros (o & Hin & Hcls). cbn in Hin.
  apply list_elem_of_singleton in Hin. subst o. discriminate.
Qed.

(** A class name with an embedded NUL reaches the constructor callback
    cut at the NUL: the factory is asked for "Shared" and the object is
    constructed, registered and read. *)
Lemma class_name_is_cut_at_the_first_NUL :
  let cls_name := with_NUL "Shared" "junk" in
  ChArchiveInBinary.in_ref_polimorphic ptr_functor
    (reader (enc_string cls_name ++ enc_int 1 ++ enc_int 2) [] [])
  = Ok tt (ChArchiveInBinary.mk [] [1%nat]
             (make_rworld [make_object "Shared" [VInt 1] [VInt 2]]
                [1%nat])) /\
  fac cls_name = None.
Proof. split; vm_compute; reflexivity. Qed.

End Runs.

(** ** The statements at concrete inputs *)

Module Witnesses.

Import ChStream ObjectGraph Samples Primitives.

Lemma graph_round_trip_diamond_and_cycle :
  (graph_ok fac diamond [VRef 1%nat; VRef 2%nat] = true /\
   exists bs Wr roots' Rd h',
     serialize 3 diamond [VRef 1%nat; VRef 2%nat]
     = Ok tt (ChArchiveOutBinary.mk bs Wr diamond) /\
     deserialize fac 3 [KRef; KRef] bs
     = Ok roots' (ChArchiveInBinary.mk [] Rd (make_rworld h' [])) /\
     Forall2 (related Wr Rd) [VRef 1%nat; VRef 2%nat] roots') /\
  (graph_ok fac cycle [VRef 2%nat] = true /\
   exists bs Wr roots' Rd h',
     serialize 3 cycle [VRef 2%nat]
     = Ok tt (ChArchiveOutBinary.mk bs Wr cycle) /\
     deserialize fac 3 [KRef] bs
     = Ok roots' (ChArchiveInBinary.mk [] Rd (make_rworld h' [])) /\
     length h' = length Wr).
Proof.
  split; (split; [reflexivity |]).
  - destruct (GraphFacts.graph_round_trip fac diamond
                [VRef 1%nat; VRef 2%nat] eq_refl)
      as (bs & Wr & roots' & Rd & h' & Hw & Hr & _ & _ & _ & _ & Hrel & _).
    exists bs, Wr, roots', Rd, h'. split_and!; assumption.
  - destruct (GraphFacts.graph_round_trip fac cycle [VRef 2%nat] eq_refl)
      as (bs & Wr & roots' & Rd & h' & Hw & Hr & _ & _ & _ & Hlen & _).
    exists bs, Wr, roots', Rd, h'. split_and!; assumption.
Defined.

Lemma primitive_round_trip_int_and_string :
  (prim_fits (PInt (-5)) = true /\
   out_prim "i" (PInt (-5)) (ChArchiveOutBinary.mk [] [] tt)
   = Ok tt (ChArchiveOutBinary.mk (enc_int (-5)) [] tt) /\
   in_prim "i" TInt (ChArchiveInBinary.mk (enc_int (-5)) [] tt)
   = Ok (PInt (-5)) (ChArchiveInBinary.mk [] [] tt)) /\
  (prim_fits (PString "chrono") = true /\
   out_prim "s" (PString "chrono") (ChArchiveOutBinary.mk (enc_int 1) [] tt)
   = Ok tt (ChArchiveOutBinary.mk (enc_int 1 ++ enc_string "chrono") [] tt) /\
   in_prim "s" TString
     (ChArchiveInBinary.mk (enc_string "chrono" ++ enc_int 2) [7%nat] tt)
   = Ok (PString "chrono") (ChArchiveInBinary.mk (enc_int 2) [7%nat] tt)).
Proof.
  split; (split; [reflexivity |]).
  - destruct (primitive_round_trip (W := unit) (W' := unit) (PInt (-5))
                "i" "i" (ChArchiveOutBinary.mk [] [] tt) eq_refl)
      as [Hout Hin].
    split; [exact Hout |].
    apply (Hin (ChArchiveInBinary.mk (enc_int (-5)) [] tt) []).
    vm_compute. reflexivity.
  - destruct (primitive_round_trip (W := unit) (W' := unit)
                (PString "chrono") "s" "s"
                (ChArchiveOutBinary.mk (enc_int 1) [] tt) eq_refl)
      as [Hout Hin].
    split; [exact Hout |].
    apply (Hin (ChArchiveInBinary.mk (enc_string "chrono" ++ enc_int 2)
                  [7%nat] tt) (enc_int 2)).
    vm_compute. reflexivity.
Defined.

Lemma array_length_prefix_empty_and_pair :
  (out_array "v" "int" [] (ChArchiveOutBinary.mk [] [] tt)
   = Ok tt (ChArchiveOutBinary.mk (enc_size_t 0) [] tt) /\
   ChArchiveInBinary.in_array_pre "v"
     (ChArchiveInBinary.mk (enc_size_t 0) [] tt)
   = Ok 0 (ChArchiveInBinary.mk [] [] tt)) /\
  (ChArchiveOutBinary.out_array_pre "v" 2 "int"
     (ChArchiveOutBinary.mk [] [] tt)
   = Ok tt (ChArchiveOutBinary.mk (enc_size_t 2) [] tt) /\
   out_array "v" "int" [enc_int 10; enc_int 20]
     (ChArchiveOutBinary.mk [] [] tt)
   = Ok tt (ChArchiveOutBinary.mk
              (enc_size_t 2 ++ enc_int 10 ++ enc_int 20) [] tt) /\
   ChArchiveInBinary.in_array_pre "v"
     (ChArchiveInBinary.mk
        (enc_size_t 2 ++ enc_int 10 ++ enc_int 20) [] tt)
   = Ok 2 (ChArchiveInBinary.mk (enc_int 10 ++ enc_int 20) [] tt)).
Proof.
  split.
  - assert (H : Z.of_nat (length (@nil (list byte))) < 2 ^ 64)
      by (vm_compute; reflexivity).
    destruct (array_length_prefix (W := unit) (W' := unit) "v" "v" "int" []
                (ChArchiveOutBinary.mk [] [] tt) H)
      as (_ & _ & _ & Hout & Hin).
    split; [exact Hout |].
    apply (Hin (ChArchiveInBinary.mk (enc_size_t 0) [] tt) []).
    vm_compute. reflexivity.
  - assert (H : Z.of_nat (length [enc_int 10; enc_int 20]) < 2 ^ 64)
      by (vm_compute; reflexivity).
    destruct (array_length_prefix (W := unit) (W' := unit) "v" "v" "int"
                [enc_int 10; enc_int 20]
                (ChArchiveOutBinary.mk [] [] tt) H)
      as (Hpre & _ & _ & Hout & Hin).
    split; [exact Hpre |]. split.
    + rewrite Hout. vm_compute. reflexivity.
    + rewrite (Hin (ChArchiveInBinary.mk
                      (enc_size_t 2 ++ enc_int 10 ++ enc_int 20) [] tt) [])
        by (vm_compute; reflexivity).
      vm_compute. reflexivity.
Defined.

Lemma out_ref_envelope_of_shared_object :
  let o := make_object "Shared" [VInt 1] [VInt 2] in
  ChArchiveOutBinary.out_ref_polimorphic (obj_functor o) false 0 "Shared"
    (writer [o])
  = Ok tt (ChArchiveOutBinary.mk
             (enc_string "Shared" ++ enc_int 1 ++ enc_int 2) [] [o]) /\
  ChArchiveOutBinary.out_ref_polimorphic (obj_functor o) true 0 "Shared"
    (writer [o])
  = Ok tt (ChArchiveOutBinary.mk (enc_string "oID" ++ enc_size_t 0) [] [o]) /\
  ChArchiveOutBinary.out_ref (obj_functor o) false 0 "Shared" (writer [o])
  = Ok tt (ChArchiveOutBinary.mk
             (enc_string "" ++ enc_int 1 ++ enc_int 2) [] [o]) /\
  ChArchiveOutBinary.out_ref (obj_functor o) true 0 "Shared" (writer [o])
  = Ok tt (ChArchiveOutBinary.mk (enc_string "oID" ++ enc_size_t 0) [] [o]) /\
  ChArchiveOutBinary.out_ref_polimorphic (obj_functor o) false 0
    (with_NUL "Shared" "junk") (writer [o])
  = Ok tt (ChArchiveOutBinary.mk
             (enc_string "Shared" ++ enc_int 1 ++ enc_int 2) [] [o]).
Proof.
  cbv zeta.
  destruct (out_ref_envelope
              (obj_functor (make_object "Shared" [VInt 1] [VInt 2])) 0
              "Shared" (writer [make_object "Shared" [VInt 1] [VInt 2]]))
    as (Hnew & Hold & (_ & Hnew') & Hold').
  destruct (out_ref_envelope
              (obj_functor (make_object "Shared" [VInt 1] [VInt 2])) 0
              (with_NUL "Shared" "junk")
              (writer [make_object "Shared" [VInt 1] [VInt 2]]))
    as (Hcut & _).
  split_and!.
  - apply (proj2 (Hnew "Shared" eq_refl (or_introl eq_refl))
             (ChArchiveOutBinary.mk (enc_string "Shared" ++ enc_int 1) []
                [make_object "Shared" [VInt 1] [VInt 2]])
             (ChArchiveOutBinary.mk
                (enc_string "Shared" ++ enc_int 1 ++ enc_int 2) []
                [make_object "Shared" [VInt 1] [VInt 2]])
             (enc_int 1) (enc_int 2)); vm_compute; reflexivity.
  - exact Hold.
  - apply (Hnew'
             (ChArchiveOutBinary.mk (enc_string "" ++ enc_int 1) []
                [make_object "Shared" [VInt 1] [VInt 2]])
             (ChArchiveOutBinary.mk
                (enc_string "" ++ enc_int 1 ++ enc_int 2) []
                [make_object "Shared" [VInt 1] [VInt 2]])
             (enc_int 1) (enc_int 2)); vm_compute; reflexivity.
  - exact Hold'.
  - apply (proj2 (Hcut "Shared" eq_refl
                    (or_intror (ex_intro _ "junk" eq_refl)))
             (ChArchiveOutBinary.mk (enc_string "Shared" ++ enc_int 1) []
                [make_object "Shared" [VInt 1] [VInt 2]])
             (ChArchiveOutBinary.mk
                (enc_string "Shared" ++ enc_int 1 ++ enc_int 2) []
                [make_object "Shared" [VInt 1] [VInt 2]])
             (enc_int 1) (enc_int 2)); vm_compute; reflexivity.
Defined.

Lemma in_ref_back_reference_registered :
  let b := reader (enc_string "oID" ++ enc_size_t 0 ++ [])
             [1%nat] [make_object "Shared" [VInt 1] [VInt 2]] in
  ChArchiveInBinary.in_ref_polimorphic ptr_functor b
  = ChArchiveInBinary.CallSetRawPtr (value ptr_functor) 1%nat
      (ChArchiveInBinary.with_istream [] b) /\
  ChArchiveInBinary.in_ref ptr_functor b
  = ChArchiveInBinary.CallSetRawPtr (value ptr_functor) 1%nat
      (ChArchiveInBinary.with_istream [] b).
Proof.
  cbv zeta. apply (in_ref_back_reference ptr_functor _ 0 1%nat []);
    [reflexivity | vm_compute; split; [discriminate | reflexivity]
    | reflexivity].
Defined.

Lemma in_ref_polimorphic_unknown_class_unregistered :
  let b := reader (enc_string "Unknown") [1%nat] [] in
  let r :=
    ChArchiveInBinary.mk (enc_string (with_NUL "Ghost" "x")) [7%nat] "" in
  (ChArchiveInBinary.in_ref_polimorphic ptr_functor b
   = Throw (ChExceptionArchive
              "Archive cannot create polimorphic object 'Unknown' ")
       (reader [] [1%nat] []) /\
   forall e b', ChArchiveInBinary.in_ref_polimorphic ptr_functor b
                = Throw e b' ->
                ChArchiveInBinary.objects_pointers b' = [1%nat]) /\
  ChArchiveInBinary.in_ref_polimorphic name_recorder r
  = Throw (ChExceptionArchive
             (String.append "Archive cannot create polimorphic object '"
                (String.append (with_NUL "Ghost" "x") "' ")))
      (ChArchiveInBinary.mk [] [7%nat] "Ghost").
Proof.
  cbv zeta. split.
  - destruct (in_ref_polimorphic_unknown_class ptr_functor
                (reader (enc_string "Unknown") [1%nat] [])
                (reader [] [1%nat] []) "Unknown" "Unknown" []
                ltac:(vm_compute; reflexivity) ltac:(vm_compute; reflexivity)
                ltac:(discriminate) eq_refl (or_introl eq_refl)
                ltac:(vm_compute; reflexivity) ltac:(reflexivity))
      as [Hthrow Hreg].
    split; [exact Hthrow |]. exact (Hreg eq_refl).
  - exact (proj1 (in_ref_polimorphic_unknown_class name_recorder
                    (ChArchiveInBinary.mk (enc_string (with_NUL "Ghost" "x"))
                       [7%nat] "")
                    (ChArchiveInBinary.mk [] [7%nat] "Ghost")
                    (with_NUL "Ghost" "x") "Ghost" []
                    ltac:(vm_compute; reflexivity)
                    ltac:(vm_compute; reflexivity)
                    ltac:(discriminate) eq_refl
                    (or_intror (ex_intro _ "x" eq_refl))
                    ltac:(vm_compute; reflexivity) ltac:(reflexivity))).
Defined.

Lemma in_ref_unregistered_id_seven :
  let b := reader (enc_string "oID" ++ enc_size_t 7 ++ []) [1%nat]
             [make_object "Shared" [VInt 1] [VInt 2]] in
  (ChArchiveInBinary.in_ref_polimorphic ptr_functor b = Stuck OutOfRange /\
   ChArchiveInBinary.in_ref ptr_functor b = Stuck OutOfRange) /\
  is_throw (ChArchiveInBinary.in_ref_polimorphic ptr_functor b) = false /\
  is_throw (ChArchiveInBinary.in_ref ptr_functor b) = false.
Proof.
  cbv zeta. apply (in_ref_unregistered_id ptr_functor _ 7 []);
    [reflexivity | vm_compute; split; [discriminate | reflexivity]
    | reflexivity].
Defined.

Lemma in_tracked_object_flag_set_and_clear :
  let b :=
    ChArchiveInBinary.mk (enc_int 9) []
      (make_rworld [make_object "Shared" [VInt 1] [VInt 2]] [1%nat]) in
  ChArchiveInBinary.in_ChFunctorArchiveIn 1 tracked_functor b
  = Ok tt (ChArchiveInBinary.mk [] [1%nat]
             (make_rworld [make_object "Shared" [VInt 1] [VInt 9]]
                [1%nat])) /\
  ChArchiveInBinary.in_ChFunctorArchiveIn 1 untracked_functor b
  = Ok tt (ChArchiveInBinary.mk [] []
             (make_rworld [make_object "Shared" [VInt 1] [VInt 9]]
                [1%nat])).
Proof.
  cbv zeta. split.
  - rewrite (proj1 (proj1 (in_tracked_object_registers_first 1
                             tracked_functor _)
                      ltac:(vm_compute; discriminate))).
    vm_compute. reflexivity.
  - rewrite (proj2 (in_tracked_object_registers_first 1
                      untracked_functor _) eq_refl).
    vm_compute. reflexivity.
Defined.

Lemma in_ref_constructs_registers_and_reads :
  let b := reader (enc_string "Shared" ++ enc_int 1 ++ enc_int 2) [] [] in
  let b' :=
    ChArchiveInBinary.mk [] [1%nat]
      (make_rworld [make_object "Shared" [VInt 1] [VInt 2]] [1%nat]) in
  ChArchiveInBinary.in_ref ptr_functor b = Ok tt b' /\
  ChArchiveInBinary.in_ref_polimorphic ptr_functor b = Ok tt b' /\
  ChArchiveInBinary.in_ref ptr_functor (reader (enc_string "") [] [])
  = Throw (ChExceptionArchive "Archive cannot create object")
      (reader [] [] []) /\
  ChArchiveInBinary.in_ref ptr_functor
    (reader (enc_string (with_NUL "Shared" "junk") ++ enc_int 1 ++ enc_int 2)
       [] [])
  = Ok tt b'.
Proof.
  cbv zeta.
  destruct (proj2 (in_ref_same_as_in_ref_polimorphic ptr_functor
                     (reader (enc_string (with_NUL "Shared" "junk")
                              ++ enc_int 1 ++ enc_int 2) [] []))
              (with_NUL "Shared" "junk") "Shared" (enc_int 1 ++ enc_int 2)
              ltac:(vm_compute; reflexivity) ltac:(discriminate) eq_refl
              (or_intror (ex_intro _ "junk" eq_refl)) eq_refl)
    as [Hcut _].
  destruct (proj2 (in_ref_same_as_in_ref_polimorphic ptr_functor
                     (reader (enc_string "Shared" ++ enc_int 1 ++ enc_int 2)
                        [] []))
              "Shared" "Shared" (enc_int 1 ++ enc_int 2)
              ltac:(vm_compute; reflexivity) ltac:(discriminate) eq_refl
              (or_introl eq_refl) eq_refl)
    as [Hin Hpol].
  destruct (proj2 (in_ref_same_as_in_ref_polimorphic ptr_functor
                     (reader (enc_string "") [] []))
              "" "" [] ltac:(vm_compute; reflexivity) ltac:(discriminate)
              eq_refl (or_introl eq_refl) ltac:(vm_compute; reflexivity))
    as [Hempty _].
  split_and!.
  - rewrite Hin. vm_compute. reflexivity.
  - rewrite Hpol. vm_compute. reflexivity.
  - rewrite Hempty. vm_compute. reflexivity.
  - rewrite Hcut. vm_compute. reflexivity.
Defined.

Lemma sentinel_named_class_written_then_read :
  let o := make_object "oID" [] [VInt 0; VInt 0] in
  let a := writer sentinel_named in
  ChArchiveOutBinary.out_ref_polimorphic (obj_functor o) false 0 "oID" a
  = Ok tt (ChArchiveOutBinary.mk
             (enc_string "oID" ++ enc_int 0 ++ enc_int 0) []
             sentinel_named) /\
  ChArchiveInBinary.in_ref_polimorphic ptr_functor
    (reader (enc_string "oID" ++ enc_int 0 ++ enc_int 0)
       [1%nat] [make_object "Shared" [VInt 1] [VInt 2]])
  = Ok tt (ChArchiveInBinary.mk [] [1%nat]
             (make_rworld [make_object "Shared" [VInt 1] [VInt 2]]
                [1%nat])) /\
  ChArchiveInBinary.in_ref_polimorphic ptr_functor
    (reader (enc_string (with_NUL "oID" "") ++ enc_int 0 ++ enc_int 0)
       [1%nat] [make_object "Shared" [VInt 1] [VInt 2]])
  = Ok tt (ChArchiveInBinary.mk [] [1%nat; 2%nat]
             (make_rworld
                [ make_object "Shared" [VInt 1] [VInt 2];
                  make_object "oID" [] [VInt 0; VInt 0] ]
                [2%nat])).
Proof.
  cbv zeta.
  destruct (sentinel_named_class_read_as_back_reference
              (obj_functor (make_object "oID" [] [VInt 0; VInt 0]))
              ptr_functor 0 (writer sentinel_named)
              (ChArchiveOutBinary.mk (enc_string "oID") [] sentinel_named)
              (ChArchiveOutBinary.mk
                 (enc_string "oID" ++ enc_int 0 ++ enc_int 0) []
                 sentinel_named)
              [] (enc_int 0 ++ enc_int 0)
              ltac:(vm_compute; reflexivity) ltac:(vm_compute; reflexivity)
              ltac:(vm_compute; reflexivity) ltac:(vm_compute; reflexivity))
    as (Hw & _ & Hr & Hname).
  split; [exact Hw |].
  destruct (Hr (reader (enc_string "oID" ++ enc_int 0 ++ enc_int 0)
                  [1%nat] [make_object "Shared" [VInt 1] [VInt 2]])
              [] ltac:(vm_compute; reflexivity)) as [Hid _].
  split.
  - rewrite (Hid 0 [] ltac:(vm_compute; reflexivity) ltac:(lia)).
    vm_compute. reflexivity.
  - rewrite (Hname (with_NUL "oID" "") "oID"
               (reader (enc_string (with_NUL "oID" "")
                        ++ enc_int 0 ++ enc_int 0)
                  [1%nat] [make_object "Shared" [VInt 1] [VInt 2]])
               (enc_int 0 ++ enc_int 0)
               ltac:(discriminate) ltac:(vm_compute; reflexivity) eq_refl
               (or_intror (ex_intro _ "" eq_refl)) eq_refl).
    vm_compute. reflexivity.
Defined.

End Witnesses.


(** ** ChCosimulation: the buffer sent and the buffer received *)

Module CosimulationFacts.

Import ChStream ChStreamFacts ChCosimulation.

Lemma le_bytes_lookup w z j :
  (j < w)%nat -> le_bytes w z !! j = Some (byte_of_Z (z / 256 ^ Z.of_nat j)).
Proof.
  revert z j. induction w as [| w IH]; intros z j Hj; [lia |].
  destruct j as [| j]; cbn [le_bytes].
  - cbn. now rewrite Z.div_1_r.
  - cbn [lookup list_lookup]. change (le_bytes w (z / 256) !! j
      = Some (byte_of_Z (z / 256 ^ Z.of_nat (S j)))).
    rewrite IH by lia. rewrite Nat2Z.inj_succ, Z.pow_succ_r by lia.
    rewrite Z.div_div by (try apply Z.pow_pos_nonneg; lia). reflexivity.
Qed.

Lemma fold_poke_length n off d (buf : list byte) :
  length (fold_left (fun b ds => <[(off + ds)%nat := repr_byte d ds]> b)
            (seq 0 n) buf) = length buf.
Proof.
  induction n as [| n IH]; [reflexivity |].
  rewrite seq_S, fold_left_app. cbn. now rewrite length_insert.
Qed.

Lemma fold_poke_lookup n off d (buf : list byte) k :
  (off + n <= length buf)%nat ->
  fold_left (fun b ds => <[(off + ds)%nat := repr_byte d ds]> b)
    (seq 0 n) buf !! k
  = if decide (off <= k < off + n)%nat then Some (repr_byte d (k - off))
    else buf !! k.
Proof.
  induction n as [| n IH]; intros Hlen.
  - cbn. destruct (decide (off <= k < off + 0)%nat); [lia | reflexivity].
  - rewrite seq_S, fold_left_app. cbn [fold_left Nat.add].
    destruct (decide (k = off + n)%nat) as [-> | Hne].
    + rewrite list_lookup_insert_eq by (rewrite fold_poke_length; lia).
      rewrite decide_True by lia. do 2 f_equal. lia.
    + rewrite list_lookup_insert_ne by lia. rewrite IH by lia.
      destruct (decide (off <= k < off + n)%nat);
        destruct (decide (off <= k < off + S n)%nat); try lia; reflexivity.
Qed.

Lemma poke_double_spec off d (buf : list byte) :
  (off + 8 <= length buf)%nat ->
  poke_double off d buf = take off buf ++ le_bytes 8 d ++ drop (off + 8) buf.
Proof.
  intros Hlen. apply list_eq. intros k. unfold poke_double, sizeof_double.
  rewrite fold_poke_lookup by exact Hlen.
  destruct (decide (off <= k < off + 8)%nat) as [Hin | Hout].
  - rewrite lookup_app_r by (rewrite length_take; lia).
    rewrite length_take, Nat.min_l by lia.
    rewrite lookup_app_l by (rewrite length_le_bytes; lia).
    now rewrite le_bytes_lookup by lia.
  - destruct (Nat.lt_ge_cases k off) as [Hlt | Hge].
    + rewrite lookup_app_l by (rewrite length_take; lia).
      now rewrite lookup_take_lt by lia.
    + rewrite lookup_app_r by (rewrite length_take; lia).
      rewrite length_take, Nat.min_l by lia.
      rewrite lookup_app_r by (rewrite length_le_bytes; lia).
      rewrite length_le_bytes, lookup_drop. f_equal. lia.
Qed.

(** The wire format of one exchange: the time, then the variables. *)
Lemma send_buffer_spec mtime (out_data : list Z) :
  send_buffer mtime out_data
  = le_bytes 8 mtime ++ concat (map (le_bytes 8) out_data).
Proof.
  unfold send_buffer, sizeof_double.
  remember (length out_data) as N eqn:HN.
  assert (Hstep : forall m, (m <= N)%nat ->
    fold_left (fun b i => poke_double ((i + 1) * 8) (nth i out_data 0) b)
      (seq 0 m) (poke_double 0 mtime (replicate ((N + 1) * 8) "000"%byte))
    = le_bytes 8 mtime ++ concat (map (le_bytes 8) (take m out_data))
      ++ replicate ((N - m) * 8) "000"%byte).
  { induction m as [| m IH]; intros Hm.
    - cbn [seq fold_left].
      rewrite poke_double_spec by (rewrite length_replicate; lia).
      rewrite drop_replicate, !take_0. cbn [map concat app Nat.add].
      do 2 f_equal. lia.
    - rewrite seq_S, fold_left_app. cbn [fold_left Nat.add].
      rewrite IH by lia.
      destruct (lookup_lt_is_Some_2 out_data m ltac:(lia)) as [d Hd].
      rewrite (nth_lookup_Some _ _ _ _ Hd).
      rewrite (take_S_r _ _ _ Hd), map_app, concat_app. cbn [map concat].
      rewrite app_nil_r.
      assert (Hlen : length (le_bytes 8 mtime
                             ++ concat (map (le_bytes 8) (take m out_data)))
                     = ((m + 1) * 8)%nat).
      { rewrite length_app, length_le_bytes.
        assert (Hc : forall l : list Z,
                   length (concat (map (le_bytes 8) l)) = (length l * 8)%nat).
        { induction l as [| x l IHl]; [reflexivity |].
          cbn [map concat]. rewrite length_app, length_le_bytes, IHl.
          cbn [length]. lia. }
        rewrite Hc, length_take. lia. }
      rewrite app_assoc.
      rewrite poke_double_spec
        by (rewrite length_app, Hlen, length_replicate; lia).
      rewrite <- Hlen at 1. rewrite take_app_length.
      rewrite drop_app_ge by lia. rewrite Hlen, drop_replicate.
      rewrite <- !app_assoc. do 3 f_equal. f_equal. lia. }
  rewrite (Hstep N (le_n N)). subst N. rewrite firstn_all, Nat.sub_diag.
  cbn [Nat.mul replicate]. now rewrite app_nil_r.
Qed.

Lemma Z_of_byte_range b : 0 <= Z_of_byte b < 256.
Proof. unfold Z_of_byte. pose proof (Byte.to_N_bounded b). lia. Qed.

Lemma le_value_range bs : 0 <= le_value bs < 256 ^ Z.of_nat (length bs).
Proof.
  induction bs as [| b bs IH]; [cbn; lia |].
  cbn [le_value length]. rewrite Nat2Z.inj_succ, Z.pow_succ_r by lia.
  pose proof (Z_of_byte_range b). nia.
Qed.

Lemma all_some_map_Some {A} (l : list A) : all_some (map Some l) = Some l.
Proof. induction l as [| x l IH]; [reflexivity |]. cbn. now rewrite IH. Qed.

Lemma all_some_None {A} (l : list (option A)) :
  In None l -> all_some l = None.
Proof.
  induction l as [| x l IH]; intros Hin; [destruct Hin |].
  destruct Hin as [-> | Hin]; [reflexivity |].
  cbn. destruct x; [| reflexivity]. now rewrite IH.
Qed.

Lemma lookups_in_range (buf : list byte) off n :
  (off + n <= length buf)%nat ->
  map (fun ds => buf !! (off + ds)%nat) (seq 0 n)
  = map Some (take n (drop off buf)).
Proof.
  induction n as [| n IH]; intros Hlen; [now rewrite take_0 |].
  destruct (lookup_lt_is_Some_2 (drop off buf) n) as [x Hx].
  { rewrite length_drop. lia. }
  rewrite seq_S, map_app, IH by lia. cbn [map Nat.add].
  rewrite (take_S_r _ _ _ Hx), map_app. cbn [map].
  rewrite lookup_drop in Hx. now rewrite Hx.
Qed.

Lemma peek_double_in_range off (buf : list byte) :
  (off + 8 <= length buf)%nat ->
  peek_double off buf = Some (le_value (take 8 (drop off buf))).
Proof.
  intros Hlen. unfold peek_double, sizeof_double.
  now rewrite lookups_in_range, all_some_map_Some.
Qed.

Lemma peek_double_out_of_range off (buf : list byte) :
  (length buf < off + 8)%nat -> peek_double off buf = None.
Proof.
  intros Hlen. unfold peek_double, sizeof_double.
  rewrite all_some_None; [reflexivity |].
  apply in_map_iff. exists 7%nat. split.
  - apply lookup_ge_None_2. lia.
  - apply in_seq. lia.
Qed.

Lemma peek_double_value off (buf : list byte) d :
  peek_double off buf = Some d -> 0 <= d < 2 ^ 64.
Proof.
  destruct (Nat.le_gt_cases (off + 8) (length buf)) as [Hin | Hout].
  - rewrite peek_double_in_range by exact Hin. intros [= <-].
    pose proof (le_value_range (take 8 (drop off buf))) as H.
    rewrite length_take, length_drop, Nat.min_l in H by lia. exact H.
  - now rewrite peek_double_out_of_range by exact Hout.
Qed.

Lemma receive_buffer_in_range (rbuffer : list byte) n :
  ((n + 1) * 8 <= length rbuffer)%nat ->
  receive_buffer rbuffer n
  = Some (le_value (take 8 rbuffer),
          map (fun i => le_value (take 8 (drop ((i + 1) * 8) rbuffer)))
            (seq 0 n)).
Proof.
  intros Hlen. unfold receive_buffer, sizeof_double.
  rewrite peek_double_in_range by lia. rewrite drop_0.
  assert (Hmap :
    map (fun i => peek_double ((i + 1) * 8) rbuffer) (seq 0 n)
    = map Some
        (map (fun i => le_value (take 8 (drop ((i + 1) * 8) rbuffer)))
           (seq 0 n))).
  { rewrite map_map. apply map_ext_in. intros i Hi. apply in_seq in Hi.
    apply peek_double_in_range. nia. }
  now rewrite Hmap, all_some_map_Some.
Qed.


Lemma length_blocks (l : list Z) :
  length (concat (map (le_bytes 8) l)) = (length l * 8)%nat.
Proof.
  induction l as [| x l IH]; [reflexivity |].
  cbn [map concat]. rewrite length_app, length_le_bytes, IH. cbn [length]. lia.
Qed.

Lemma block_at (l : list Z) i d :
  l !! i = Some d ->
  take 8 (drop (i * 8) (concat (map (le_bytes 8) l))) = le_bytes 8 d.
Proof.
  revert i. induction l as [| x l IH]; intros i Hi; [discriminate |].
  cbn [map concat]. destruct i as [| i].
  - injection Hi as ->. rewrite drop_0.
    rewrite <- (length_le_bytes 8 d) at 1. now rewrite take_app_length.
  - cbn in Hi. rewrite drop_app_ge by (rewrite length_le_bytes; lia).
    rewrite length_le_bytes.
    replace (S i * 8 - 8)%nat with (i * 8)%nat by lia. now apply IH.
Qed.

(** Decoding the buffer of [SendData] gives the time and the values back. *)
Lemma receive_send_buffer mtime (data : list Z) :
  0 <= mtime < 2 ^ 64 ->
  Forall (fun d => 0 <= d < 2 ^ 64) data ->
  receive_buffer (send_buffer mtime data) (length data) = Some (mtime, data).
Proof.
  intros Ht Hd. rewrite send_buffer_spec.
  rewrite receive_buffer_in_range
    by (rewrite length_app, length_le_bytes, length_blocks; lia).
  f_equal. f_equal.
  - rewrite <- (length_le_bytes 8 mtime) at 1. rewrite take_app_length.
    rewrite le_value_le_bytes. apply Z.mod_small. exact Ht.
  - apply list_eq. intros i. rewrite list_lookup_fmap.
    destruct (data !! i) as [d |] eqn:Hi.
    + rewrite lookup_seq_lt by (eapply lookup_lt_Some; exact Hi).
      cbn [fmap option_fmap option_map Nat.add].
      rewrite drop_app_ge by (rewrite length_le_bytes; lia).
      rewrite length_le_bytes.
      replace ((i + 1) * 8 - 8)%nat with (i * 8)%nat by lia.
      rewrite (block_at data i d Hi), le_value_le_bytes.
      rewrite Z.mod_small; [reflexivity |].
      rewrite Forall_forall in Hd. apply Hd.
      eapply list_elem_of_lookup_2. exact Hi.
    + rewrite lookup_seq_ge; [reflexivity |].
      now apply lookup_ge_None_1.
Qed.

Section WithSocket.

Variable socket : Type.
Variable ChSocketTCP : Z -> socket.
Variable bindSocket : socket -> socket.
Variable listenToClient : socket -> Z -> socket.
Variable acceptClient : socket -> socket * option socket.
Variable SendBuffer : socket -> list byte -> socket.
Variable ReceiveBuffer : socket -> list byte -> Z -> socket * list byte * Z.

(** X1. With a connected client and a vector of [out_n] values, [SendData]
    returns true after exactly one [SendBuffer] call, whose buffer is the 8
    bytes of the time followed by the 8 bytes of each value in order,
    8 * (out_n + 1) bytes in all; everything else in the object is as
    before. *)
Theorem SendData_sends_time_then_values (self : t socket) (c : socket)
    (mtime : Z) (out_data : list Z) :
  Z.of_nat (length out_data) = out_n self ->
  myClient self = Some c ->
  let buffer := le_bytes 8 mtime ++ concat (map (le_bytes 8) out_data) in
  SendData socket SendBuffer self mtime out_data
  = (Returned true,
     mk (myServer self) (Some (SendBuffer c buffer))
       (in_n self) (out_n self) (nport self)) /\
  Z.of_nat (length buffer) = 8 * (out_n self + 1).
Proof.
  intros Hn Hc buffer. split.
  - unfold SendData. rewrite (proj2 (Z.eqb_eq _ _) Hn), Hc. cbn [negb].
    now rewrite send_buffer_spec.
  - unfold buffer. rewrite length_app, length_le_bytes, length_blocks. lia.
Qed.

(** X2. [SendData] with a vector whose size is not [out_n] throws the size
    error whether or not a client is connected; with the right size and no
    client it throws the no-client error. In both cases the object is
    unchanged, so nothing has been sent. *)
Theorem SendData_rejects (self : t socket) (mtime : Z) (out_data : list Z) :
  (Z.of_nat (length out_data) <> out_n self ->
   SendData socket SendBuffer self mtime out_data
   = (runtime_error "ERROR: Sent data must be a vector of size N.", self)) /\
  (Z.of_nat (length out_data) = out_n self -> myClient self = None ->
   SendData socket SendBuffer self mtime out_data
   = (runtime_error
        "ERROR: Attempted 'SendData' with no connected client.", self)).
Proof.
  split.
  - intros Hn. unfold SendData.
    now rewrite (proj2 (Z.eqb_neq _ _) Hn).
  - intros Hn Hc. unfold SendData.
    now rewrite (proj2 (Z.eqb_eq _ _) Hn), Hc.
Qed.

(** X3. [ReceiveData] with a vector whose size is not [in_n] throws the
    size error whether or not a client is connected; with the right size
    and no client it throws the no-client error. In both cases the object,
    [mtime] and [in_data] are left as they were and nothing is received. *)
Theorem ReceiveData_rejects (self : t socket) (mtime : Z) (in_data : list Z) :
  (Z.of_nat (length in_data) <> in_n self ->
   ReceiveData socket ReceiveBuffer self mtime in_data
   = (runtime_error "ERROR: Received data must be a vector of size N.",
      self, mtime, in_data)) /\
  (Z.of_nat (length in_data) = in_n self -> myClient self = None ->
   ReceiveData socket ReceiveBuffer self mtime in_data
   = (runtime_error
        "ERROR: Attempted 'ReceiveData' with no connected client.",
      self, mtime, in_data)).
Proof.
  split.
  - intros Hn. unfold ReceiveData.
    now rewrite (proj2 (Z.eqb_neq _ _) Hn).
  - intros Hn Hc. unfold ReceiveData.
    now rewrite (proj2 (Z.eqb_eq _ _) Hn), Hc.
Qed.

Lemma nbytes_no_wrap n :
  0 <= n -> n + 1 < 2 ^ 28 ->
  to_int (Z.of_nat sizeof_double * (n + 1)) = 8 * (n + 1).
Proof.
  intros H0 Hn. unfold to_int, sizeof_double.
  change (Z.of_nat 8) with 8. rewrite Z.mod_small by lia. lia.
Qed.

(** X4. When the socket fills the receive buffer with the bytes that
    [SendData] sends for a time and [in_n] values, [ReceiveData] returns
    true with exactly that time and those values, bit for bit. *)
Theorem ReceiveData_of_SendData (self : t socket) (c c' : socket)
    (mtime0 : Z) (in_data : list Z) (mtime : Z) (data : list Z) (count : Z) :
  Z.of_nat (length in_data) = in_n self ->
  in_n self + 1 < 2 ^ 28 ->
  myClient self = Some c ->
  length data = length in_data ->
  0 <= mtime < 2 ^ 64 ->
  Forall (fun d => 0 <= d < 2 ^ 64) data ->
  ReceiveBuffer c
    (replicate (Z.to_nat (8 * (in_n self + 1))) "000"%byte)
    (8 * (in_n self + 1))
  = (c', send_buffer mtime data, count) ->
  ReceiveData socket ReceiveBuffer self mtime0 in_data
  = (Returned true,
     mk (myServer self) (Some c') (in_n self) (out_n self) (nport self),
     mtime, data).
Proof.
  intros Hn Hsmall Hc Hlen Ht Hd Hrecv. unfold ReceiveData.
  rewrite (proj2 (Z.eqb_eq _ _) Hn), Hc. cbn [negb].
  rewrite nbytes_no_wrap by lia.
  destruct (Z.ltb_spec (8 * (in_n self + 1)) 0) as [Hneg | _]; [lia |].
  rewrite Hrecv, <- Hlen. now rewrite receive_send_buffer.
Qed.


(** X6. A freshly constructed object has no client: whatever the data,
    [SendData] and [ReceiveData] throw (the size error or the no-client
    error), leave the object as constructed and touch neither the socket
    nor the caller's variables. *)
Theorem no_exchange_before_connection (n_in n_out : Z)
    (mtime : Z) (data : list Z) :
  let self := make n_in n_out : t socket in
  (exists what, SendData socket SendBuffer self mtime data
                = (runtime_error what, self)) /\
  (exists what, ReceiveData socket ReceiveBuffer self mtime data
                = (runtime_error what, self, mtime, data)).
Proof.
  intros self. split.
  - unfold SendData. destruct (negb _); eexists; reflexivity.
  - unfold ReceiveData. destruct (negb _); eexists; reflexivity.
Qed.

(** X7. [WaitConnection] records the port and the server in the object and
    returns true exactly when [acceptClient] yields a client, which then
    is the connected client; when it yields none, the call throws "Server
    failed in getting the client socket" and the object has no client, so
    that a later [SendData] of the right size still throws the no-client
    error. In both cases [in_n] and [out_n] are kept. *)
Theorem WaitConnection_outcome (self : t socket) (aport : Z)
    (srv : socket) (client : option socket) :
  acceptClient (listenToClient (bindSocket (ChSocketTCP aport)) 1)
  = (srv, client) ->
  let self' := mk (Some srv) client (in_n self) (out_n self) aport in
  match client with
  | Some c =>
      WaitConnection socket ChSocketTCP bindSocket listenToClient
        acceptClient self aport = (Returned true, self')
  | None =>
      WaitConnection socket ChSocketTCP bindSocket listenToClient
        acceptClient self aport
      = (runtime_error "Server failed in getting the client socket", self') /\
      forall mtime out_data,
        Z.of_nat (length out_data) = out_n self ->
        SendData socket SendBuffer self' mtime out_data
        = (runtime_error
             "ERROR: Attempted 'SendData' with no connected client.", self')
  end.
Proof.
  intros Hacc self'. unfold WaitConnection. rewrite Hacc.
  destruct client as [c |]; [reflexivity |]. split; [reflexivity |].
  intros mtime out_data Hn. unfold SendData. cbn [out_n myClient self'].
  now rewrite (proj2 (Z.eqb_eq _ _) Hn).
Qed.

End WithSocket.

End CosimulationFacts.

(** ** More on the binary archives *)

Module ArchiveMore.

Import ChStream ChStreamFacts ArchiveUse.

Local Arguments enc_string : simpl never.
Local Arguments enc_size_t : simpl never.
Local Arguments enc_int : simpl never.

Section Envelopes.

Context {W W' : Type}.

(** X8. An enum is exchanged as a plain [int]: [out] for an enum mapper
    leaves the output stream longer by the bytes of the [int] value and
    changes nothing else, as [out] for an [int] does; started at the place
    of the stream where that write began, [in] for an enum mapper and [in]
    for an [int] alike return the value written, for every value in the
    [int] range, and leave the stream just after its bytes. *)
Theorem enum_exchanged_as_int (v x : Z) (nm nm' : string)
    (a : ChArchiveOutBinary.t W) :
  - 2 ^ 31 <= v < 2 ^ 31 ->
  let a' :=
    ChArchiveOutBinary.mk (ChArchiveOutBinary.ostream a ++ enc_int v)
      (ChArchiveOutBinary.objects_pointers a) (ChArchiveOutBinary.world a) in
  ChArchiveOutBinary.out_ChEnumMapperBase (make_ChNameValue nm v 0) a
  = Ok tt a' /\
  ChArchiveOutBinary.out_int (make_ChNameValue nm v 0) a = Ok tt a' /\
  length (enc_int v) = 4%nat /\
  forall (b : ChArchiveInBinary.t W') rest,
    ChArchiveOutBinary.ostream a ++ ChArchiveInBinary.istream b
    = ChArchiveOutBinary.ostream a' ++ rest ->
    let b' :=
      ChArchiveInBinary.mk rest (ChArchiveInBinary.objects_pointers b)
        (ChArchiveInBinary.world b) in
    ChArchiveInBinary.in_ChEnumMapperBase (make_ChNameValue nm' x 0) b
    = Ok v b' /\
    ChArchiveInBinary.in_int (make_ChNameValue nm' x 0) b = Ok v b'.
Proof.
  intros Hv a'. split_and!; try reflexivity.
  intros b rest Hb b'. unfold a' in Hb.
  cbn [ChArchiveOutBinary.ostream] in Hb.
  rewrite <- app_assoc in Hb. apply app_inv_head in Hb.
  split; apply (read_int_enc b v rest Hv Hb).
Qed.

(** X9. The back-reference envelope is common to both writers and both
    readers: [out_ref] and [out_ref_polimorphic] with
    [already_inserted = true] leave the output stream longer by the string
    "oID" and [obj_ID] and change nothing else; started at the place of the
    stream where that write began, [in_ref] and [in_ref_polimorphic] both
    hand the pointer registered at [obj_ID] to the field's setter, on the
    archive positioned just after the envelope. *)
Theorem back_reference_envelope_round_trip
    (bVal : ChNameValue (ChArchiveOutBinary.ChFunctorArchiveOut W))
    (g : ChNameValue (ChArchiveInBinary.ChFunctorArchiveIn W'))
    (obj_ID : Z) (classname : string) (a : ChArchiveOutBinary.t W) :
  0 <= obj_ID < 2 ^ 64 ->
  let a' :=
    ChArchiveOutBinary.mk
      (ChArchiveOutBinary.ostream a ++ enc_string "oID" ++ enc_size_t obj_ID)
      (ChArchiveOutBinary.objects_pointers a) (ChArchiveOutBinary.world a) in
  ChArchiveOutBinary.out_ref bVal true obj_ID classname a = Ok tt a' /\
  ChArchiveOutBinary.out_ref_polimorphic bVal true obj_ID classname a
  = Ok tt a' /\
  forall (b : ChArchiveInBinary.t W') rest p,
    ChArchiveOutBinary.ostream a ++ ChArchiveInBinary.istream b
    = ChArchiveOutBinary.ostream a' ++ rest ->
    ChArchiveInBinary.objects_pointers b !! Z.to_nat obj_ID = Some p ->
    let b' :=
      ChArchiveInBinary.mk rest (ChArchiveInBinary.objects_pointers b)
        (ChArchiveInBinary.world b) in
    ChArchiveInBinary.in_ref g b
    = ChArchiveInBinary.CallSetRawPtr (value g) p b' /\
    ChArchiveInBinary.in_ref_polimorphic g b
    = ChArchiveInBinary.CallSetRawPtr (value g) p b'.
Proof.
  intros Hid a'.
  split_and!; try apply out_ref_already_inserted.
  intros b rest p Hb Hp b'. unfold a' in Hb.
  cbn [ChArchiveOutBinary.ostream] in Hb.
  rewrite <- !app_assoc in Hb. apply app_inv_head in Hb.
  assert (Hrun : (id <- ChArchiveInBinary.read dec_size_t ;;
                  q <- ChArchiveInBinary.subscript id ;;
                  ChArchiveInBinary.CallSetRawPtr (value g) q)
                   (ChArchiveInBinary.with_istream
                      (enc_size_t obj_ID ++ rest) b)
                 = ChArchiveInBinary.CallSetRawPtr (value g) p b').
  { rewrite (bind_Ok _ _ _ _ _
               (read_size_t_enc
                  (ChArchiveInBinary.with_istream (enc_size_t obj_ID ++ rest) b)
                  obj_ID rest Hid eq_refl)).
    unfold bind, ChArchiveInBinary.subscript. cbn. now rewrite Hp. }
  split.
  - now rewrite (in_ref_oID g b _ Hb).
  - now rewrite (in_ref_polimorphic_oID g b _ Hb).
Qed.

(** X10. A first-time envelope of [out_ref] is the empty string, the
    constructor payload and the field payload, so neither reader can take
    it for a back-reference. Started at the place of the stream where that
    write began, [in_ref] and [in_ref_polimorphic] both call the
    constructor callback with the empty class name on the archive
    positioned at the constructor payload; when the callback leaves a
    non-null raw pointer, the field reader runs on the archive the
    callback left with that pointer in the registry (appended when it was
    not registered); when it leaves a null pointer, each throws its own
    exception from that archive. *)
Theorem out_ref_envelope_read_as_new_object
    (bVal : ChNameValue (ChArchiveOutBinary.ChFunctorArchiveOut W))
    (g : ChNameValue (ChArchiveInBinary.ChFunctorArchiveIn W'))
    (obj_ID : Z) (classname : string)
    (a a1 a2 : ChArchiveOutBinary.t W) (c f : list byte) :
  let s0 :=
    ChArchiveOutBinary.mk (ChArchiveOutBinary.ostream a ++ enc_string "")
      (ChArchiveOutBinary.objects_pointers a) (ChArchiveOutBinary.world a) in
  ChArchiveOutBinary.CallArchiveOutConstructor (value bVal) s0 = Ok tt a1 ->
  ChArchiveOutBinary.ostream a1 = ChArchiveOutBinary.ostream s0 ++ c ->
  ChArchiveOutBinary.CallArchiveOut (value bVal) a1 = Ok tt a2 ->
  ChArchiveOutBinary.ostream a2 = ChArchiveOutBinary.ostream a1 ++ f ->
  ChArchiveOutBinary.out_ref bVal false obj_ID classname a = Ok tt a2 /\
  ChArchiveOutBinary.ostream a2
  = ChArchiveOutBinary.ostream a ++ enc_string "" ++ c ++ f /\
  forall (b : ChArchiveInBinary.t W') rest,
    ChArchiveOutBinary.ostream a ++ ChArchiveInBinary.istream b
    = ChArchiveOutBinary.ostream a2 ++ rest ->
    let construct_register_read (what : string) :=
      match ChArchiveInBinary.CallArchiveInConstructor (value g) ""
              (ChArchiveInBinary.mk (c ++ f ++ rest)
                 (ChArchiveInBinary.objects_pointers b)
                 (ChArchiveInBinary.world b)) with
      | Ok _ b1 =>
          let p := ChArchiveInBinary.CallGetRawPtr (value g) b1 in
          let R := ChArchiveInBinary.objects_pointers b1 in
          if Nat.eqb p nullptr then Throw (ChExceptionArchive what) b1
          else ChArchiveInBinary.CallArchiveIn (value g)
                 (ChArchiveInBinary.mk (ChArchiveInBinary.istream b1)
                    (if existsb (Nat.eqb p) R then R else R ++ [p])
                    (ChArchiveInBinary.world b1))
      | Throw e b1 => Throw e b1
      | Stuck w => Stuck w
      end in
    ChArchiveInBinary.in_ref g b
    = construct_register_read "Archive cannot create object" /\
    ChArchiveInBinary.in_ref_polimorphic g b
    = construct_register_read "Archive cannot create polimorphic object '' ".
Proof.
  intros s0 Hc Hs1 Hf Hs2.
  destruct (out_ref_stream bVal obj_ID classname a a1 a2 c f Hc Hs1 Hf Hs2)
    as [Hw Hs].
  split_and!; try assumption.
  intros b rest Hb construct_register_read.
  rewrite Hs in Hb. rewrite <- !app_assoc in Hb. apply app_inv_head in Hb.
  assert (Hlen : Z.of_nat (String.length "") < 2 ^ 64) by reflexivity.
  assert (Hne : "" <> "oID") by discriminate.
  split.
  - rewrite (in_ref_new g b "" _ Hlen Hne Hb). now rewrite new_object_run.
  - rewrite (in_ref_polimorphic_new g b "" _ Hlen Hne Hb).
    now rewrite new_object_run.
Qed.

End Envelopes.

Section Registry.

Context {W : Type}.

Lemma extends_ret {A} (x : A) : extends_registry (W := W) (ret x).
Proof. intros a. cbn. reflexivity. Qed.

Lemma extends_bind {A B} (c : M (ChArchiveInBinary.t W) A)
    (k : A -> M (ChArchiveInBinary.t W) B) :
  extends_registry c -> (forall x, extends_registry (k x)) ->
  extends_registry (x <- c ;; k x).
Proof.
  intros Hc Hk a. unfold bind. specialize (Hc a).
  destruct (c a) as [x a1 | e a1 | w]; [| exact Hc | exact I].
  specialize (Hk x a1).
  destruct (k x a1) as [y a2 | e a2 | w]; try exact I;
    (etransitivity; [exact Hc | exact Hk]).
Qed.

Lemma extends_read {A} (dec : list byte -> option (A * list byte)) :
  extends_registry (W := W) (ChArchiveInBinary.read dec).
Proof.
  intros a. unfold ChArchiveInBinary.read.
  destruct (dec (ChArchiveInBinary.istream a)) as [[v rest] |];
    cbn; reflexivity.
Qed.

Lemma extends_PutPointer p :
  extends_registry (W := W) (ChArchiveInBinary.PutPointer p).
Proof.
  intros a. unfold ChArchiveInBinary.PutPointer. cbn.
  apply RegistryFacts.PutPointer_registered.
Qed.

Lemma extends_subscript i :
  extends_registry (W := W) (ChArchiveInBinary.subscript i).
Proof.
  intros a. unfold ChArchiveInBinary.subscript.
  destruct (_ !! _); [cbn; reflexivity | exact I].
Qed.

Lemma no_null_ret {A} (x : A) : registers_no_null (W := W) (ret x).
Proof. intros a Ha. exact Ha. Qed.

Lemma no_null_bind {A B} (c : M (ChArchiveInBinary.t W) A)
    (k : A -> M (ChArchiveInBinary.t W) B) :
  registers_no_null c -> (forall x, registers_no_null (k x)) ->
  registers_no_null (x <- c ;; k x).
Proof.
  intros Hc Hk a Ha. unfold bind. specialize (Hc a Ha).
  destruct (c a) as [x a1 | e a1 | w]; [| exact Hc | exact I].
  exact (Hk x a1 Hc).
Qed.

Lemma no_null_read {A} (dec : list byte -> option (A * list byte)) :
  registers_no_null (W := W) (ChArchiveInBinary.read dec).
Proof.
  intros a Ha. unfold ChArchiveInBinary.read.
  destruct (dec (ChArchiveInBinary.istream a)) as [[v rest] |]; exact Ha.
Qed.

Lemma no_null_subscript i :
  registers_no_null (W := W) (ChArchiveInBinary.subscript i).
Proof.
  intros a Ha. unfold ChArchiveInBinary.subscript.
  destruct (_ !! _); [exact Ha | exact I].
Qed.

Lemma no_null_PutPointer p :
  p <> nullptr -> registers_no_null (W := W) (ChArchiveInBinary.PutPointer p).
Proof.
  intros Hp a Ha. unfold ChArchiveInBinary.PutPointer. cbn.
  destruct (RegistryFacts.PutPointer_cases p
              (ChArchiveInBinary.objects_pointers a))
    as [(i & _ & ->) | (_ & ->)]; cbn; [exact Ha |].
  intros Hin. apply elem_of_app in Hin as [Hin | Hin]; [now apply Ha |].
  apply list_elem_of_singleton in Hin. congruence.
Qed.

(** X11. The read methods keep the pointer registry append-only: when the
    callbacks of the functor only ever append to the registry, so do
    [in_ref_polimorphic], [in_ref] and [in] for a custom object, whether
    they return or throw; no registered ID is ever removed or moved. *)
Theorem read_methods_extend_registry (NVP_TRACK_OBJECT : Z)
    (bVal : ChNameValue (ChArchiveInBinary.ChFunctorArchiveIn W)) :
  extends_registry (ChArchiveInBinary.CallArchiveIn (value bVal)) ->
  (forall cls_name,
     extends_registry
       (ChArchiveInBinary.CallArchiveInConstructor (value bVal) cls_name)) ->
  (forall p,
     extends_registry (ChArchiveInBinary.CallSetRawPtr (value bVal) p)) ->
  extends_registry (ChArchiveInBinary.in_ref_polimorphic bVal) /\
  extends_registry (ChArchiveInBinary.in_ref bVal) /\
  extends_registry
    (ChArchiveInBinary.in_ChFunctorArchiveIn NVP_TRACK_OBJECT bVal).
Proof.
  intros Hin Hctor Hset.
  assert (Hnew : forall msg cls_name,
    extends_registry
      (ChArchiveInBinary.CallArchiveInConstructor (value bVal) cls_name ;;
       p <- gets (ChArchiveInBinary.CallGetRawPtr (value bVal)) ;;
       if negb (Nat.eqb p nullptr) then
         p' <- gets (ChArchiveInBinary.CallGetRawPtr (value bVal)) ;;
         ChArchiveInBinary.PutPointer p' ;;
         ChArchiveInBinary.CallArchiveIn (value bVal)
       else throw (ChExceptionArchive msg))).
  { intros msg cls_name. apply extends_bind; [apply Hctor | intros _].
    apply extends_bind; [intros a; cbn; reflexivity | intros p].
    destruct (negb (Nat.eqb p nullptr)); [| intros a; cbn; reflexivity].
    apply extends_bind; [intros a; cbn; reflexivity | intros p'].
    apply extends_bind; [apply extends_PutPointer | intros _; exact Hin]. }
  assert (Hold :
    extends_registry
      (obj_ID <- ChArchiveInBinary.read dec_size_t ;;
       p <- ChArchiveInBinary.subscript obj_ID ;;
       ChArchiveInBinary.CallSetRawPtr (value bVal) p)).
  { apply extends_bind; [apply extends_read | intros i].
    apply extends_bind; [apply extends_subscript | intros p; apply Hset]. }
  split_and!.
  - unfold ChArchiveInBinary.in_ref_polimorphic.
    apply extends_bind; [apply extends_read | intros cls_name].
    destruct (negb (String.eqb cls_name "oID")); [apply Hnew | exact Hold].
  - unfold ChArchiveInBinary.in_ref.
    apply extends_bind; [apply extends_read | intros cls_name].
    destruct (negb (String.eqb cls_name "oID")); [apply Hnew | exact Hold].
  - unfold ChArchiveInBinary.in_ChFunctorArchiveIn.
    apply extends_bind; [| intros _; exact Hin].
    destruct (negb _); [| apply extends_ret].
    apply extends_bind; [intros a; cbn; reflexivity | intros p].
    apply extends_bind; [apply extends_PutPointer | intros _; apply extends_ret].
Qed.

(** X12. [in_ref_polimorphic] and [in_ref] never register a null pointer:
    when the callbacks of the functor register none, a registry without
    the null pointer is still without it after the call, whether the call
    returns or throws. *)
Theorem in_ref_registers_no_null
    (bVal : ChNameValue (ChArchiveInBinary.ChFunctorArchiveIn W)) :
  registers_no_null (ChArchiveInBinary.CallArchiveIn (value bVal)) ->
  (forall cls_name,
     registers_no_null
       (ChArchiveInBinary.CallArchiveInConstructor (value bVal) cls_name)) ->
  (forall p,
     registers_no_null (ChArchiveInBinary.CallSetRawPtr (value bVal) p)) ->
  registers_no_null (ChArchiveInBinary.in_ref_polimorphic bVal) /\
  registers_no_null (ChArchiveInBinary.in_ref bVal).
Proof.
  intros Hin Hctor Hset.
  assert (Hnew : forall msg cls_name,
    registers_no_null
      (ChArchiveInBinary.CallArchiveInConstructor (value bVal) cls_name ;;
       p <- gets (ChArchiveInBinary.CallGetRawPtr (value bVal)) ;;
       if negb (Nat.eqb p nullptr) then
         p' <- gets (ChArchiveInBinary.CallGetRawPtr (value bVal)) ;;
         ChArchiveInBinary.PutPointer p' ;;
         ChArchiveInBinary.CallArchiveIn (value bVal)
       else throw (ChExceptionArchive msg))).
  { intros msg cls_name. apply no_null_bind; [apply Hctor | intros _].
    intros a Ha. unfold bind at 1, gets at 1.
    destruct (Nat.eqb_spec (ChArchiveInBinary.CallGetRawPtr (value bVal) a)
                nullptr) as [Hnull | Hnn]; cbn [negb]; [exact Ha |].
    unfold bind at 1, gets at 1.
    apply (no_null_bind _ _ (no_null_PutPointer _ Hnn) (fun _ => Hin) a Ha). }
  assert (Hold :
    registers_no_null
      (obj_ID <- ChArchiveInBinary.read dec_size_t ;;
       p <- ChArchiveInBinary.subscript obj_ID ;;
       ChArchiveInBinary.CallSetRawPtr (value bVal) p)).
  { apply no_null_bind; [apply no_null_read | intros i].
    apply no_null_bind; [apply no_null_subscript | intros p; apply Hset]. }
  split.
  - unfold ChArchiveInBinary.in_ref_polimorphic.
    apply no_null_bind; [apply no_null_read | intros cls_name].
    destruct (negb (String.eqb cls_name "oID")); [apply Hnew | exact Hold].
  - unfold ChArchiveInBinary.in_ref.
    apply no_null_bind; [apply no_null_read | intros cls_name].
    destruct (negb (String.eqb cls_name "oID")); [apply Hnew | exact Hold].
Qed.

End Registry.

Section IntArrays.

Context {W W' : Type}.

Lemma write_int_elements (N : Z) (l : list Z) (a : ChArchiveOutBinary.t W) :
  iterM (fun z => ChArchiveOutBinary.out_int (make_ChNameValue "" z 0) ;;
                  ChArchiveOutBinary.out_array_between N "int") l a
  = Ok tt (ChArchiveOutBinary.append (concat (map enc_int l)) a).
Proof.
  revert a. induction l as [| z l IH]; intros a.
  - destruct a as [o r w]. cbn. unfold ChArchiveOutBinary.append. cbn.
    now rewrite app_nil_r.
  - cbn [iterM map concat].
    rewrite (bind_Ok _ _ a tt (ChArchiveOutBinary.append (enc_int z) a))
      by reflexivity.
    rewrite IH. destruct a as [o r w]. unfold ChArchiveOutBinary.append. cbn.
    now rewrite <- app_assoc.
Qed.

Lemma read_int_elements (nm : string) (l : list Z) (ks : list nat)
    (b : ChArchiveInBinary.t W') rest :
  Forall (fun z => - 2 ^ 31 <= z < 2 ^ 31) l ->
  length ks = length l ->
  ChArchiveInBinary.istream b = concat (map enc_int l) ++ rest ->
  mapM (fun _ : nat =>
          z <- ChArchiveInBinary.in_int (make_ChNameValue "" 0 0) ;;
          ChArchiveInBinary.in_array_between nm ;;
          ret z) ks b
  = Ok l (ChArchiveInBinary.with_istream rest b).
Proof.
  revert ks b. induction l as [| z l IH]; intros ks b Hfit Hlen Hb.
  - destruct ks; [| discriminate]. destruct b as [ib r w].
    cbn in Hb. subst ib. reflexivity.
  - destruct ks as [| k ks]; [discriminate |].
    apply Forall_cons_1 in Hfit as [Hz Hfit].
    cbn [map concat] in Hb. rewrite <- app_assoc in Hb.
    cbn [mapM].
    assert (Hrd : (x <- ChArchiveInBinary.in_int (make_ChNameValue "" 0 0) ;;
                   ChArchiveInBinary.in_array_between nm ;;
                   ret x) b
                  = Ok z (ChArchiveInBinary.with_istream
                            (concat (map enc_int l) ++ rest) b)).
    { unfold ChArchiveInBinary.in_int.
      now rewrite (bind_Ok _ _ b z _ (read_int_enc b z _ Hz Hb)). }
    rewrite (bind_Ok _ _ b z _ Hrd).
    rewrite (bind_Ok _ _ _ l _
               (IH ks (ChArchiveInBinary.with_istream
                         (concat (map enc_int l) ++ rest) b)
                  Hfit ltac:(cbn in Hlen; lia) eq_refl)).
    reflexivity.
Qed.

(** X13. A sequence of [int]s written with the array hooks (count, then
    each element followed by the "between" hook, then the "end" hook)
    leaves the output stream longer by the count and the elements, with
    nothing in between, and changes nothing else; started at the place of
    the stream where that write began, reading with [in_array_pre], that
    many [in] calls and the reading hooks gives the same sequence back and
    leaves the stream just after those bytes. *)
Theorem int_array_round_trip (nm nm' : string) (l : list Z)
    (a : ChArchiveOutBinary.t W) :
  Z.of_nat (length l) < 2 ^ 64 ->
  Forall (fun z => - 2 ^ 31 <= z < 2 ^ 31) l ->
  let a' :=
    ChArchiveOutBinary.mk
      (ChArchiveOutBinary.ostream a
       ++ enc_size_t (Z.of_nat (length l)) ++ concat (map enc_int l))
      (ChArchiveOutBinary.objects_pointers a) (ChArchiveOutBinary.world a) in
  out_int_array nm l a = Ok tt a' /\
  forall (b : ChArchiveInBinary.t W') rest,
    ChArchiveOutBinary.ostream a ++ ChArchiveInBinary.istream b
    = ChArchiveOutBinary.ostream a' ++ rest ->
    in_int_array nm' b
    = Ok l (ChArchiveInBinary.mk rest (ChArchiveInBinary.objects_pointers b)
              (ChArchiveInBinary.world b)).
Proof.
  intros Hlen Hfit a'. split.
  - unfold out_int_array.
    rewrite (bind_Ok _ _ a tt
               (ChArchiveOutBinary.append
                  (enc_size_t (Z.of_nat (length l))) a)) by reflexivity.
    rewrite (bind_Ok _ _ _ tt _ (write_int_elements _ l _)).
    destruct a as [o r w]. unfold ChArchiveOutBinary.append, a'. cbn.
    unfold ChArchiveOutBinary.out_array_end, ret.
    now rewrite <- app_assoc.
  - intros b rest Hb. unfold a' in Hb.
    cbn [ChArchiveOutBinary.ostream] in Hb.
    rewrite <- !app_assoc in Hb. apply app_inv_head in Hb.
    unfold in_int_array, ChArchiveInBinary.in_array_pre.
    rewrite (bind_Ok _ _ b _ _
               (read_size_t_enc b (Z.of_nat (length l)) _ ltac:(lia) Hb)).
    rewrite Nat2Z.id.
    rewrite (bind_Ok _ _ _ l _
               (read_int_elements nm' l (seq 0 (length l))
                  (ChArchiveInBinary.with_istream
                     (concat (map enc_int l) ++ rest) b) rest Hfit
                  (length_seq _ _) eq_refl)).
    reflexivity.
Qed.

End IntArrays.

End ArchiveMore.

(** ** The keyboard receiver *)

Module HexaCopterFacts.

Import HexaCopterDemo.

(** X14. [OnEvent] returns true exactly for the release of one of the
    eight keys W, S, A, D and numeric pad 4, 6, 8, 2; the copter then
    receives exactly one command and one text goes to the output:
    "Pressing ", one character and a line feed. For any other event (not a
    key event, a key going down, another key) it returns false and nothing
    changes. *)
Theorem OnEvent_acts_on_key_release_only (event : SEvent) (w : world) :
  (fst (OnEvent event w) = true <->
   EventType event = EET_KEY_INPUT_EVENT /\
   PressedDown (KeyInput event) = false /\
   handled_key (Key (KeyInput event)) = true) /\
  (fst (OnEvent event w) = true ->
   exists c k,
     snd (OnEvent event w)
     = {| copter := copter w ++ [c];
          cout := cout w ++
                  [String.append "Pressing "
                     (String k (String (ascii_of_nat 10) EmptyString))] |}) /\
  (fst (OnEvent event w) = false -> snd (OnEvent event w) = w).
Proof.
  destruct event as [[| code] [key down]]; unfold OnEvent; cbn.
  - destruct down; cbn.
    + split_and!; [split; [discriminate | intros (_ & H & _); discriminate]
                  | discriminate | reflexivity].
    + destruct key; cbn; (split_and!;
        [split; [intros _; repeat split | intros _; reflexivity]
        | intros _; eexists; eexists; unfold act; f_equal; f_equal;
          f_equal; f_equal; vm_compute; reflexivity
        | discriminate])
        || (split_and!;
            [split; [discriminate | intros (_ & _ & H); discriminate]
            | discriminate | reflexivity]).
  - split_and!; [split; [discriminate | intros (H & _); discriminate]
                | discriminate | reflexivity].
Qed.

End HexaCopterFacts.

(** ** Instances *)

Module Instances.

Import ChStream ChCosimulation HexaCopterDemo ArchiveUse.

Lemma SendData_over_wire :
  let self := mk None (Some ([] : wire)) 0 2 50009 in
  (Z.of_nat (length [4611686018427387904; 4613937818241073152]) = out_n self /\
   myClient self = Some []) /\
  SendData wire wire_send self 4607182418800017408
    [4611686018427387904; 4613937818241073152]
  = (Returned true,
     mk None
       (Some [le_bytes 8 4607182418800017408 ++
              concat (map (le_bytes 8)
                        [4611686018427387904; 4613937818241073152])])
       0 2 50009).
Proof.
  cbv zeta. split; [split; reflexivity |].
  exact (proj1 (CosimulationFacts.SendData_sends_time_then_values
                  wire wire_send (mk None (Some ([] : wire)) 0 2 50009) []
                  4607182418800017408
                  [4611686018427387904; 4613937818241073152]
                  eq_refl eq_refl)).
Defined.

Lemma SendData_rejects_over_wire :
  SendData wire wire_send (mk None (Some ([] : wire)) 0 2 50009) 0 [1]
  = (runtime_error "ERROR: Sent data must be a vector of size N.",
     mk None (Some ([] : wire)) 0 2 50009) /\
  SendData wire wire_send (mk None None 0 1 50009) 0 [1]
  = (runtime_error "ERROR: Attempted 'SendData' with no connected client.",
     mk None None 0 1 50009).
Proof.
  split.
  - apply (proj1 (CosimulationFacts.SendData_rejects wire wire_send
                    (mk None (Some ([] : wire)) 0 2 50009) 0 [1])).
    vm_compute. discriminate.
  - apply (proj2 (CosimulationFacts.SendData_rejects wire wire_send
                    (mk None None 0 1 50009) 0 [1])); reflexivity.
Defined.

Lemma ReceiveData_rejects_over_wire :
  ReceiveData wire wire_receive (mk None (Some ([] : wire)) 2 0 50009) 0 [1]
  = (runtime_error "ERROR: Received data must be a vector of size N.",
     mk None (Some ([] : wire)) 2 0 50009, 0, [1]) /\
  ReceiveData wire wire_receive (mk None None 1 0 50009) 0 [1]
  = (runtime_error "ERROR: Attempted 'ReceiveData' with no connected client.",
     mk None None 1 0 50009, 0, [1]).
Proof.
  split.
  - apply (proj1 (CosimulationFacts.ReceiveData_rejects wire wire_receive
                    (mk None (Some ([] : wire)) 2 0 50009) 0 [1])).
    vm_compute. discriminate.
  - apply (proj2 (CosimulationFacts.ReceiveData_rejects wire wire_receive
                    (mk None None 1 0 50009) 0 [1])); reflexivity.
Defined.

Lemma ReceiveData_of_SendData_over_wire :
  let sent :=
    send_buffer 4607182418800017408
      [4611686018427387904; 4613937818241073152] in
  ReceiveData wire wire_receive (mk None (Some [sent]) 2 0 50009) 0 [0; 0]
  = (Returned true, mk None (Some []) 2 0 50009,
     4607182418800017408, [4611686018427387904; 4613937818241073152]).
Proof.
  cbv zeta.
  apply (CosimulationFacts.ReceiveData_of_SendData wire wire_receive
           (mk None
              (Some [send_buffer 4607182418800017408
                       [4611686018427387904; 4613937818241073152]])
              2 0 50009)
           [send_buffer 4607182418800017408
              [4611686018427387904; 4613937818241073152]]
           [] 0 [0; 0] 4607182418800017408
           [4611686018427387904; 4613937818241073152] 24);
    [reflexivity | vm_compute; reflexivity | reflexivity | reflexivity
    | lia | repeat constructor; lia | vm_compute; reflexivity].
Defined.


Lemma WaitConnection_accepted_and_refused :
  WaitConnection wire (fun _ => []) (fun s => s) (fun s _ => s) wire_accept
    (make 2 3) 50009
  = (Returned true, mk (Some []) (Some []) 2 3 50009) /\
  WaitConnection wire (fun _ => []) (fun s => s) (fun s _ => s) wire_refuse
    (make 2 3) 50009
  = (runtime_error "Server failed in getting the client socket",
     mk (Some []) None 2 3 50009).
Proof.
  split.
  - exact (CosimulationFacts.WaitConnection_outcome wire (fun _ => [])
             (fun s => s) (fun s _ => s) wire_accept wire_send
             (make 2 3) 50009 [] (Some []) eq_refl).
  - exact (proj1 (CosimulationFacts.WaitConnection_outcome wire (fun _ => [])
                    (fun s => s) (fun s _ => s) wire_refuse wire_send
                    (make 2 3) 50009 [] None eq_refl)).
Defined.

Lemma enum_three_exchanged_as_int :
  - 2 ^ 31 <= 3 < 2 ^ 31 /\
  ChArchiveOutBinary.out_ChEnumMapperBase (make_ChNameValue "e" 3 0)
    (ChArchiveOutBinary.mk [] [] tt)
  = Ok tt (ChArchiveOutBinary.mk (enc_int 3) [] tt) /\
  ChArchiveInBinary.in_ChEnumMapperBase (make_ChNameValue "e" 0 0)
    (ChArchiveInBinary.mk (enc_int 3 ++ enc_int 8) [] tt)
  = Ok 3 (ChArchiveInBinary.mk (enc_int 8) [] tt).
Proof.
  split; [lia |].
  destruct (ArchiveMore.enum_exchanged_as_int (W := unit) (W' := unit)
              3 0 "e" "e" (ChArchiveOutBinary.mk [] [] tt) ltac:(lia))
    as (Hout & _ & _ & Hin).
  split; [exact Hout |].
  exact (proj1 (Hin (ChArchiveInBinary.mk (enc_int 3 ++ enc_int 8) [] tt)
                  (enc_int 8) ltac:(vm_compute; reflexivity))).
Defined.

Lemma back_reference_to_first_object :
  0 <= 0 < 2 ^ 64 /\
  ChArchiveOutBinary.out_ref (leaf_out 4) true 0 "leaf"
    (ChArchiveOutBinary.mk [] [] tt)
  = Ok tt (ChArchiveOutBinary.mk (enc_string "oID" ++ enc_size_t 0) [] tt) /\
  ChArchiveInBinary.in_ref leaf_in
    (ChArchiveInBinary.mk (enc_string "oID" ++ enc_size_t 0) [7%nat] 0%nat)
  = Ok tt (ChArchiveInBinary.mk [] [7%nat] 7%nat).
Proof.
  split; [lia |].
  destruct (ArchiveMore.back_reference_envelope_round_trip
              (leaf_out 4) leaf_in 0 "leaf"
              (ChArchiveOutBinary.mk [] [] tt) ltac:(lia))
    as (Hout & _ & Hin).
  split; [exact Hout |].
  exact (proj1 (Hin (ChArchiveInBinary.mk
                       (enc_string "oID" ++ enc_size_t 0) [7%nat] 0%nat)
                  [] 7%nat ltac:(vm_compute; reflexivity) eq_refl)).
Defined.

Lemma out_ref_leaf_read_as_new_object :
  let a := ChArchiveOutBinary.mk [] [] tt in
  ChArchiveOutBinary.out_ref (leaf_out 4) false 1 "leaf" a
  = Ok tt (ChArchiveOutBinary.mk (enc_string "" ++ enc_int 4) [] tt) /\
  ChArchiveInBinary.in_ref leaf_in
    (ChArchiveInBinary.mk (enc_string "" ++ enc_int 4) [] 0%nat)
  = Ok tt (ChArchiveInBinary.mk [] [5%nat] 5%nat).
Proof.
  cbv zeta.
  destruct (ArchiveMore.out_ref_envelope_read_as_new_object
              (leaf_out 4) leaf_in 1 "leaf"
              (ChArchiveOutBinary.mk [] [] tt)
              (ChArchiveOutBinary.mk (enc_string "") [] tt)
              (ChArchiveOutBinary.mk (enc_string "" ++ enc_int 4) [] tt)
              [] (enc_int 4)
              ltac:(vm_compute; reflexivity) ltac:(vm_compute; reflexivity)
              ltac:(vm_compute; reflexivity) ltac:(vm_compute; reflexivity))
    as (Hout & _ & Hin).
  split; [exact Hout |].
  rewrite (proj1 (Hin (ChArchiveInBinary.mk (enc_string "" ++ enc_int 4)
                         [] 0%nat) [] ltac:(vm_compute; reflexivity))).
  vm_compute. reflexivity.
Defined.

Lemma leaf_reads_extend_registry :
  extends_registry (ChArchiveInBinary.in_ref_polimorphic leaf_in) /\
  extends_registry (ChArchiveInBinary.in_ref leaf_in) /\
  extends_registry (ChArchiveInBinary.in_ChFunctorArchiveIn 1 leaf_in).
Proof.
  apply (ArchiveMore.read_methods_extend_registry 1 leaf_in).
  - apply ArchiveMore.extends_bind;
      [apply ArchiveMore.extends_read | intros _; apply ArchiveMore.extends_ret].
  - intros cls_name a. cbn. reflexivity.
  - intros p a. cbn. reflexivity.
Defined.

Lemma leaf_reads_register_no_null :
  registers_no_null (ChArchiveInBinary.in_ref_polimorphic leaf_in) /\
  registers_no_null (ChArchiveInBinary.in_ref leaf_in).
Proof.
  apply (ArchiveMore.in_ref_registers_no_null leaf_in).
  - apply ArchiveMore.no_null_bind;
      [apply ArchiveMore.no_null_read | intros _; apply ArchiveMore.no_null_ret].
  - intros cls_name a Ha. exact Ha.
  - intros p a Ha. exact Ha.
Defined.

Lemma int_array_of_three :
  let l := [1; -2; 3] in
  (Z.of_nat (length l) < 2 ^ 64 /\
   Forall (fun z => - 2 ^ 31 <= z < 2 ^ 31) l) /\
  out_int_array "v" l (ChArchiveOutBinary.mk [] [] tt)
  = Ok tt (ChArchiveOutBinary.mk
             (enc_size_t 3 ++ enc_int 1 ++ enc_int (-2) ++ enc_int 3)
             [] tt) /\
  in_int_array "v"
    (ChArchiveInBinary.mk
       (enc_size_t 3 ++ enc_int 1 ++ enc_int (-2) ++ enc_int 3) [] tt)
  = Ok l (ChArchiveInBinary.mk [] [] tt).
Proof.
  cbv zeta.
  assert (Hlen : Z.of_nat (length [1; -2; 3]) < 2 ^ 64)
    by (vm_compute; reflexivity).
  assert (Hfit : Forall (fun z => - 2 ^ 31 <= z < 2 ^ 31) [1; -2; 3])
    by (repeat constructor; lia).
  split; [split; assumption |].
  destruct (ArchiveMore.int_array_round_trip (W := unit) (W' := unit)
              "v" "v" [1; -2; 3] (ChArchiveOutBinary.mk [] [] tt) Hlen Hfit)
    as [Hout Hin].
  split.
  - rewrite Hout. vm_compute. reflexivity.
  - apply (Hin (ChArchiveInBinary.mk
                  (enc_size_t 3 ++ enc_int 1 ++ enc_int (-2) ++ enc_int 3)
                  [] tt) []).
    vm_compute. reflexivity.
Defined.

Lemma OnEvent_W_released_and_pressed :
  let released := {| EventType := EET_KEY_INPUT_EVENT;
                     KeyInput := {| Key := KEY_KEY_W;
                                    PressedDown := false |} |} in
  let pressed := {| EventType := EET_KEY_INPUT_EVENT;
                    KeyInput := {| Key := KEY_KEY_W;
                                   PressedDown := true |} |} in
  let w := {| copter := [Throttle "0.01"]; cout := [] |} in
  fst (OnEvent released w) = true /\
  snd (OnEvent released w)
  = {| copter := [Throttle "0.01"; Pitch_Down "0.001"];
       cout := [String.append "Pressing W"
                  (String (ascii_of_nat 10) EmptyString)] |} /\
  snd (OnEvent pressed w) = w.
Proof.
  cbv zeta.
  assert (Hrel :
    fst (OnEvent {| EventType := EET_KEY_INPUT_EVENT;
                    KeyInput := {| Key := KEY_KEY_W;
                                   PressedDown := false |} |}
           {| copter := [Throttle "0.01"]; cout := [] |}) = true).
  { apply (proj1 (HexaCopterFacts.OnEvent_acts_on_key_release_only
                    {| EventType := EET_KEY_INPUT_EVENT;
                       KeyInput := {| Key := KEY_KEY_W;
                                      PressedDown := false |} |}
                    {| copter := [Throttle "0.01"]; cout := [] |})).
    repeat split. }
  split_and!.
  - exact Hrel.
  - destruct (proj1 (proj2 (HexaCopterFacts.OnEvent_acts_on_key_release_only
                              {| EventType := EET_KEY_INPUT_EVENT;
                                 KeyInput := {| Key := KEY_KEY_W;
                                                PressedDown := false |} |}
                              {| copter := [Throttle "0.01"]; cout := [] |}))
                Hrel) as (c & line & Hrun).
    rewrite Hrun. vm_compute in Hrun. now inversion Hrun.
  - apply (proj2 (proj2 (HexaCopterFacts.OnEvent_acts_on_key_release_only
                           {| EventType := EET_KEY_INPUT_EVENT;
                              KeyInput := {| Key := KEY_KEY_W;
                                             PressedDown := true |} |}
                           {| copter := [Throttle "0.01"]; cout := [] |}))).
    reflexivity.
Defined.

End Instances.
